(** * MemoryVault: key custody, challenge message and chain-state reader

    A shallow embedding of the parts of the MemoryVault code base that carry
    its cryptographic protocol logic:

    - [CryptoManager.kt]   (wallet import, address derivation, AES-GCM blobs),
    - [AptosClient]        (balance and memory reads, hex decoding),
    - [WalletContext.tsx]  (the authentication challenge message).

    Kotlin [ByteArray]s are [list byte]; Kotlin and JavaScript strings are
    [string] (a list of 8-bit code units, read as ISO-8859-1) except where a
    function can produce a code unit above 255, where UTF-16 code units are
    kept as [N].  [SharedPreferences] is a [gmap string string].  The JCA
    primitives the code calls by name ("SHA3-256", "AES/GCM/NoPadding",
    [android.util.Base64]) are modelled after their standards and checked
    against the published test vectors. *)

From Stdlib Require Import ZArith NArith List Lia Bool Btauto.
From Stdlib.Strings Require Import String Ascii Byte.
From Stdlib Require Import DecimalString DecimalPos DecimalZ.
From stdpp Require Import base option list strings gmap.

Import ListNotations.
Local Open Scope Z_scope.

(** ** Bytes *)

Module Bytes.

Definition b2z (b : byte) : Z := Z.of_N (Byte.to_N b).

Definition z2b (z : Z) : byte :=
  match Byte.of_N (Z.to_N (z mod 256)) with
  | Some b => b
  | None => x00
  end.

Definition bxor (a b : byte) : byte := z2b (Z.lxor (b2z a) (b2z b)).

(** Pointwise xor, truncated to the shorter operand. *)
Fixpoint xor_bytes (xs ys : list byte) : list byte :=
  match xs, ys with
  | x :: xs', y :: ys' => bxor x y :: xor_bytes xs' ys'
  | _, _ => []
  end.

Fixpoint bytes_eqb (xs ys : list byte) : bool :=
  match xs, ys with
  | [], [] => true
  | x :: xs', y :: ys' => Byte.eqb x y && bytes_eqb xs' ys'
  | _, _ => false
  end.

(** Big-endian and little-endian readings of a byte string. *)
Definition be2z (bs : list byte) : Z :=
  fold_left (fun acc b => acc * 256 + b2z b) bs 0.

Definition le2z (bs : list byte) : Z := be2z (rev bs).

(** The [n] low bytes of [z], most significant first. *)
Fixpoint z2be (n : nat) (z : Z) : list byte :=
  match n with
  | O => []
  | S n' => z2b (Z.shiftr z (8 * Z.of_nat n')) :: z2be n' z
  end.

Definition z2le (n : nat) (z : Z) : list byte := rev (z2be n z).

(** Split into chunks of [n] elements; the last one may be shorter. *)
Fixpoint chunks_fuel {A} (fuel n : nat) (l : list A) : list (list A) :=
  match fuel with
  | O => []
  | S fuel' =>
      match l with
      | [] => []
      | _ => firstn n l :: chunks_fuel fuel' n (skipn n l)
      end
  end.

Definition chunks {A} (n : nat) (l : list A) : list (list A) :=
  chunks_fuel (length l) n l.

Definition hex_digit (d : Z) : ascii :=
  if d <? 10 then ascii_of_N (Z.to_N (48 + d)) else ascii_of_N (Z.to_N (87 + d)).

(** ["%02x".format(b)] for a Kotlin [Byte]: the two lowercase hex digits of
    the byte read as an unsigned value. *)
Definition format_02x (b : byte) : string :=
  String (hex_digit (b2z b / 16)) (String (hex_digit (b2z b mod 16)) EmptyString).

Definition of_hex_digit (c : ascii) : option Z :=
  let n := Z.of_N (N_of_ascii c) in
  if (48 <=? n) && (n <=? 57) then Some (n - 48)
  else if (97 <=? n) && (n <=? 102) then Some (n - 87)
  else if (65 <=? n) && (n <=? 70) then Some (n - 55)
  else None.

(** Test-vector helper: reads a hex literal, ignoring anything that is not
    a hex digit. *)
Fixpoint unhex (s : string) : list byte :=
  match s with
  | String a (String b rest) =>
      match of_hex_digit a, of_hex_digit b with
      | Some h, Some l => z2b (16 * h + l) :: unhex rest
      | _, _ => unhex rest
      end
  | _ => []
  end.

Definition bytes_of_string (s : string) : list byte :=
  map byte_of_ascii (list_ascii_of_string s).

End Bytes.
Import Bytes.

(** ** SHA3-256 (FIPS 202), the digest behind
    [MessageDigest.getInstance("SHA3-256")] *)

Module Sha3.

Definition mask64 : Z := 2 ^ 64 - 1.

Definition rotl64 (x : Z) (n : Z) : Z :=
  Z.land (Z.lor (Z.shiftl x n) (Z.shiftr x (64 - n))) mask64.

Definition lane (st : list Z) (x y : nat) : Z :=
  nth ((x mod 5) + 5 * (y mod 5))%nat st 0.

Definition rho_offsets : list Z :=
  [ 0;  1; 62; 28; 27;
   36; 44;  6; 55; 20;
    3; 10; 43; 25; 39;
   41; 45; 15; 21;  8;
   18;  2; 61; 56; 14].

Definition round_constants : list Z :=
  [0x0000000000000001; 0x0000000000008082; 0x800000000000808A;
   0x8000000080008000; 0x000000000000808B; 0x0000000080000001;
   0x8000000080008081; 0x8000000000008009; 0x000000000000008A;
   0x0000000000000088; 0x0000000080008009; 0x000000008000000A;
   0x000000008000808B; 0x800000000000008B; 0x8000000000008089;
   0x8000000000008003; 0x8000000000008002; 0x8000000000000080;
   0x000000000000800A; 0x800000008000000A; 0x8000000080008081;
   0x8000000000008080; 0x0000000080000001; 0x8000000080008008].

(** All 25 positions, in the order the lanes are stored: index [x + 5y]. *)
Definition positions : list (nat * nat) :=
  flat_map (fun y => map (fun x => (x, y)) (seq 0 5)) (seq 0 5).

Definition theta (st : list Z) : list Z :=
  let c x := fold_left Z.lxor (map (fun y => lane st x y) (seq 0 5)) 0 in
  let d x := Z.lxor (c (x + 4)%nat) (rotl64 (c (x + 1)%nat) 1) in
  map (fun '(x, y) => Z.lxor (lane st x y) (d x)) positions.

(** rho and pi together: B[y, 2x+3y] = rot(A[x,y], r[x,y]); read backwards,
    the lane at (X, Y) comes from x = X + 3Y, y = X. *)
Definition rho_pi (st : list Z) : list Z :=
  map (fun '(X, Y) =>
         let x := ((X + 3 * Y) mod 5)%nat in
         let y := X in
         rotl64 (lane st x y) (nth (x + 5 * y)%nat rho_offsets 0))
      positions.

Definition chi (st : list Z) : list Z :=
  map (fun '(x, y) =>
         Z.lxor (lane st x y)
                (Z.land (Z.lxor (lane st (x + 1) y) mask64)
                        (lane st (x + 2) y)))
      positions.

Definition iota (rc : Z) (st : list Z) : list Z :=
  match st with
  | a :: rest => Z.lxor a rc :: rest
  | [] => []
  end.

Definition keccak_round (st : list Z) (rc : Z) : list Z :=
  iota rc (chi (rho_pi (theta st))).

Definition keccak_f (st : list Z) : list Z :=
  fold_left keccak_round round_constants st.

Definition rate : nat := 136.

(** Domain bits 01 and pad10*1, byte aligned: 0x06 ... 0x80. *)
Definition pad (msg : list byte) : list byte :=
  let q := (rate - length msg mod rate)%nat in
  if (q =? 1)%nat then msg ++ [z2b 0x86]
  else msg ++ [z2b 0x06] ++ repeat x00 (q - 2) ++ [z2b 0x80].

Definition absorb_block (st : list Z) (block : list byte) : list Z :=
  let lanes := map le2z (chunks 8 block) in
  map (fun i => Z.lxor (nth i st 0) (nth i lanes 0)) (seq 0 25).

Definition absorb (msg : list byte) : list Z :=
  fold_left (fun st blk => keccak_f (absorb_block st blk))
            (chunks rate (pad msg)) (repeat 0 25).

(** The first 32 bytes of the state: byte [i] sits in lane [i / 8]. *)
Definition squeeze (st : list Z) : list byte :=
  map (fun i => z2b (Z.shiftr (nth (i / 8)%nat st 0) (8 * Z.of_nat (i mod 8))))
      (seq 0 32).

Definition sha3_256 (msg : list byte) : list byte := squeeze (absorb msg).

End Sha3.

(** ** android.util.Base64, flag NO_WRAP *)

Module Base64.

(** The character of a six-bit value. *)
Definition encode_char (s : Z) : ascii :=
  ascii_of_N (Z.to_N
    (if s <? 26 then 65 + s
     else if s <? 52 then 97 + (s - 26)
     else if s <? 62 then 48 + (s - 52)
     else if s =? 62 then 43 else 47)).

Fixpoint encode (bs : list byte) : string :=
  match bs with
  | [] => EmptyString
  | [a] =>
      let x := b2z a in
      String (encode_char (x / 4)) (String (encode_char (x mod 4 * 16)) "==")
  | [a; b] =>
      let x := b2z a in
      let y := b2z b in
      String (encode_char (x / 4))
        (String (encode_char (x mod 4 * 16 + y / 16))
           (String (encode_char (y mod 16 * 4)) "="))
  | a :: b :: c :: rest =>
      let x := b2z a in
      let y := b2z b in
      let z := b2z c in
      String (encode_char (x / 4))
        (String (encode_char (x mod 4 * 16 + y / 16))
           (String (encode_char (y mod 16 * 4 + z / 64))
              (String (encode_char (z mod 64)) (encode rest))))
  end.

(** The decoder's table: a data value, the padding sign, or a character
    that is skipped. *)
Inductive symbol := Data (v : Z) | Equals | Skip.

Definition decode_char (c : ascii) : symbol :=
  let n := Z.of_N (N_of_ascii c) in
  if (65 <=? n) && (n <=? 90) then Data (n - 65)
  else if (97 <=? n) && (n <=? 122) then Data (n - 97 + 26)
  else if (48 <=? n) && (n <=? 57) then Data (n - 48 + 52)
  else if n =? 43 then Data 62
  else if n =? 47 then Data 63
  else if n =? 61 then Equals
  else Skip.

(** The decoder's automaton: states 0 to 3 count the characters of the
    current group, 4 has seen one '=' of two, 5 has seen all padding. *)
Record dstate := DState { phase : nat; value : Z; out : list byte }.

Definition step (st : dstate) (c : ascii) : option dstate :=
  let '(DState ph v o) := st in
  match ph, decode_char c with
  | _, Skip => Some st
  | 0%nat, Data d => Some (DState 1 d o)
  | 1%nat, Data d => Some (DState 2 (v * 64 + d) o)
  | 2%nat, Data d => Some (DState 3 (v * 64 + d) o)
  | 2%nat, Equals => Some (DState 4 v (o ++ [z2b (v / 16)]))
  | 3%nat, Data d =>
      let w := v * 64 + d in
      Some (DState 0 w (o ++ [z2b (w / 65536); z2b (w / 256); z2b w]))
  | 3%nat, Equals => Some (DState 5 v (o ++ [z2b (v / 1024); z2b (v / 4)]))
  | 4%nat, Equals => Some (DState 5 v o)
  | _, _ => None
  end.

Fixpoint run (st : dstate) (s : string) : option dstate :=
  match s with
  | EmptyString => Some st
  | String c rest =>
      match step st c with
      | Some st' => run st' rest
      | None => None
      end
  end.

(** End of input: a dangling single character or a lone '=' is an error,
    two or three dangling characters still give one or two bytes. *)
Definition finish (st : dstate) : option (list byte) :=
  let '(DState ph v o) := st in
  match ph with
  | 0%nat | 5%nat => Some o
  | 2%nat => Some (o ++ [z2b (v / 16)])
  | 3%nat => Some (o ++ [z2b (v / 1024); z2b (v / 4)])
  | _ => None
  end.

Definition decode (s : string) : option (list byte) :=
  match run (DState 0 0 []) s with
  | Some st => finish st
  | None => None
  end.

End Base64.

(** ** AES (FIPS 197), for the three key sizes [SecretKeySpec] admits *)

Module Aes.

Definition xtime (b : Z) : Z :=
  Z.land (Z.lxor (Z.shiftl b 1) (if Z.testbit b 7 then 0x1b else 0)) 0xff.

(** Multiplication in GF(2^8). *)
Fixpoint gmul_go (n : nat) (a b acc : Z) : Z :=
  match n with
  | O => acc
  | S n' =>
      gmul_go n' (xtime a) (Z.shiftr b 1)
              (if Z.testbit b 0 then Z.lxor acc a else acc)
  end.

Definition gmul (a b : Z) : Z := gmul_go 8 a b 0.

Fixpoint gpow (a : Z) (n : nat) : Z :=
  match n with
  | O => 1
  | S n' => gmul a (gpow a n')
  end.

Definition rotl8 (x n : Z) : Z :=
  Z.land (Z.lor (Z.shiftl x n) (Z.shiftr x (8 - n))) 0xff.

(** The S-box from its definition: inversion, then the affine map. *)
Definition sbox_calc (b : Z) : Z :=
  let s := gpow b 254 in
  fold_left Z.lxor [rotl8 s 1; rotl8 s 2; rotl8 s 3; rotl8 s 4; 0x63] s.

Definition sbox_table : list Z :=
  Eval vm_compute in map (fun i => sbox_calc (Z.of_nat i)) (seq 0 256).

Definition sbox (b : Z) : Z := nth (Z.to_nat b) sbox_table 0.

Definition xor_list (xs ys : list Z) : list Z :=
  map (fun '(x, y) => Z.lxor x y) (combine xs ys).

(** The state is column major: byte [r + 4c] is row [r] of column [c]. *)
Definition sub_bytes (st : list Z) : list Z := map sbox st.

Definition shift_rows (st : list Z) : list Z :=
  map (fun i => let r := (i mod 4)%nat in
                let c := (i / 4)%nat in
                nth (r + 4 * ((c + r) mod 4))%nat st 0)
      (seq 0 16).

Definition mix_column (col : list Z) : list Z :=
  match col with
  | [a; b; c; d] =>
      [fold_left Z.lxor [gmul 3 b; c; d] (gmul 2 a);
       fold_left Z.lxor [gmul 2 b; gmul 3 c; d] a;
       fold_left Z.lxor [b; gmul 2 c; gmul 3 d] a;
       fold_left Z.lxor [b; c; gmul 2 d] (gmul 3 a)]
  | _ => col
  end.

Definition mix_columns (st : list Z) : list Z :=
  List.concat (map mix_column (chunks 4 st)).

Definition rcon (i : nat) : Z := gpow 2 (i - 1).

(** Key expansion; [ws] holds the words computed so far, newest last. *)
Fixpoint expand (n : nat) (nk : nat) (ws : list (list Z)) : list (list Z) :=
  match n with
  | O => ws
  | S n' =>
      let i := length ws in
      let prev := nth (i - 1) ws [] in
      let temp :=
        if (i mod nk =? 0)%nat then
          match prev with
          | a :: rest => xor_list (map sbox (rest ++ [a])) [rcon (i / nk); 0; 0; 0]
          | [] => []
          end
        else if (6 <? nk)%nat && (i mod nk =? 4)%nat then map sbox prev
        else prev in
      expand n' nk (ws ++ [xor_list (nth (i - nk) ws []) temp])
  end.

Definition key_schedule (key : list Z) : list (list Z) :=
  let nk := (length key / 4)%nat in
  let words := expand (4 * (nk + 7) - nk) nk (chunks 4 key) in
  map (@List.concat Z) (chunks 4 words).

Definition cipher_round (st rk : list Z) : list Z :=
  xor_list (mix_columns (shift_rows (sub_bytes st))) rk.

(** Encrypts one 16-byte block under an expanded key. *)
Definition cipher (rks : list (list Z)) (block : list Z) : list Z :=
  match rks with
  | [] => block
  | rk0 :: rest =>
      let middle := List.removelast rest in
      let final := List.last rest [] in
      let st := fold_left cipher_round middle (xor_list block rk0) in
      xor_list (shift_rows (sub_bytes st)) final
  end.

Definition valid_key_length (n : nat) : bool :=
  (n =? 16)%nat || (n =? 24)%nat || (n =? 32)%nat.

Definition encrypt_block (key block : list byte) : list byte :=
  map z2b (cipher (key_schedule (map b2z key)) (map b2z block)).

End Aes.

(** ** AES read backwards, for showing that a block cipher call loses
    nothing *)

Module AesInverse.

Definition all_bytes : list Z := map Z.of_nat (seq 0 256).

Definition in_range (b : Z) : bool := (0 <=? b) && (b <? 256).

(** The position of a value in the S-box, found by search. *)
Definition inv_sbox_calc (y : Z) : Z :=
  match List.find (fun x => Aes.sbox x =? y) all_bytes with
  | Some x => x
  | None => 0
  end.

Definition inv_sbox_table : list Z := Eval vm_compute in map inv_sbox_calc all_bytes.

Definition inv_sbox (b : Z) : Z := nth (Z.to_nat b) inv_sbox_table 0.

Definition inv_shift_rows (st : list Z) : list Z :=
  map (fun i => let r := (i mod 4)%nat in
                let c := (i / 4)%nat in
                nth (r + 4 * ((c + 4 - r) mod 4))%nat st 0)
      (seq 0 16).

(** The xor of four values. *)
Definition x4 (p q r s : Z) : Z := Z.lxor (Z.lxor (Z.lxor p q) r) s.

Definition inv_mix_column (col : list Z) : list Z :=
  match col with
  | [a; b; c; d] =>
      [x4 (Aes.gmul 14 a) (Aes.gmul 11 b) (Aes.gmul 13 c) (Aes.gmul 9 d);
       x4 (Aes.gmul 9 a) (Aes.gmul 14 b) (Aes.gmul 11 c) (Aes.gmul 13 d);
       x4 (Aes.gmul 13 a) (Aes.gmul 9 b) (Aes.gmul 14 c) (Aes.gmul 11 d);
       x4 (Aes.gmul 11 a) (Aes.gmul 13 b) (Aes.gmul 9 c) (Aes.gmul 14 d)]
  | _ => col
  end.

(** The facts about single bytes that are settled by running through all
    of them: the S-box stays within the bytes and is undone by its inverse,
    and products stay within the bytes. *)
Definition byte_check (x : Z) : bool :=
  in_range (Aes.sbox x) && (inv_sbox (Aes.sbox x) =? x)
  && forallb (fun c => in_range (Aes.gmul c x)) all_bytes.

(** Multiplication by a constant distributes over xor. *)
Definition linear_check (k x y : Z) : bool :=
  Aes.gmul k (Z.lxor x y) =? Z.lxor (Aes.gmul k x) (Aes.gmul k y).

(** The inverse matrix times the matrix, one entry at a time: row
    [(k0, k1, k2, k3)] against each of the four columns. *)
Definition entry_check (k0 k1 k2 k3 : Z) (e0 e1 e2 e3 : bool) (v : Z) : bool :=
  let g := Aes.gmul in
  (x4 (g k0 (g 2 v)) (g k1 v) (g k2 v) (g k3 (g 3 v)) =? (if e0 then v else 0))
  && (x4 (g k0 (g 3 v)) (g k1 (g 2 v)) (g k2 v) (g k3 v) =? (if e1 then v else 0))
  && (x4 (g k0 v) (g k1 (g 3 v)) (g k2 (g 2 v)) (g k3 v) =? (if e2 then v else 0))
  && (x4 (g k0 v) (g k1 v) (g k2 (g 3 v)) (g k3 (g 2 v)) =? (if e3 then v else 0)).

(** A state: sixteen values, each a byte. *)
Definition state16 (st : list Z) : Prop :=
  length st = 16%nat /\ Forall (fun b => 0 <= b < 256) st.

Definition word4 (w : list Z) : Prop :=
  length w = 4%nat /\ Forall (fun b => 0 <= b < 256) w.

Definition inv_mix_columns (st : list Z) : list Z :=
  List.concat (map inv_mix_column (chunks 4 st)).

(** One round and the last round, undone. *)
Definition inv_round (st rk : list Z) : list Z :=
  map inv_sbox (inv_shift_rows (inv_mix_columns (Aes.xor_list st rk))).

Definition inv_final (st rk : list Z) : list Z :=
  map inv_sbox (inv_shift_rows (Aes.xor_list st rk)).

Definition inv_cipher (rks : list (list Z)) (block : list Z) : list Z :=
  match rks with
  | [] => block
  | rk0 :: rest =>
      let middle := List.removelast rest in
      let final := List.last rest [] in
      Aes.xor_list (fold_left inv_round (rev middle) (inv_final block final)) rk0
  end.

End AesInverse.

(** ** Galois/Counter Mode (NIST SP 800-38D) with a 128-bit tag and no
    associated data, as ["AES/GCM/NoPadding"] is used here *)

Module Gcm.

Definition R : Z := Z.shiftl 0xE1 120.

(** Multiplication in GF(2^128); blocks are read big-endian, bit 0 of the
    standard is the most significant bit of the integer. *)
Fixpoint gf_mul_go (n : nat) (x v z : Z) : Z :=
  match n with
  | O => z
  | S n' =>
      let z' := if Z.testbit x (Z.of_nat n') then Z.lxor z v else z in
      let v' := if Z.testbit v 0 then Z.lxor (Z.shiftr v 1) R else Z.shiftr v 1 in
      gf_mul_go n' x v' z'
  end.

Definition gf_mul (x y : Z) : Z := gf_mul_go 128 x y 0.

Definition pad16 (bs : list byte) : list byte :=
  bs ++ repeat x00 ((16 - length bs mod 16) mod 16).

Definition ghash (h : Z) (data : list byte) : Z :=
  fold_left (fun y blk => gf_mul (Z.lxor y (be2z blk)) h) (chunks 16 data) 0.

Definition bit_length (bs : list byte) : Z := 8 * Z.of_nat (length bs).

Section WithKey.
Variable key : list byte.

Definition E (block : Z) : Z := be2z (Aes.encrypt_block key (z2be 16 block)).

Definition H : Z := E 0.

  (** The pre-counter block. *)
Definition j0 (iv : list byte) : Z :=
    if (length iv =? 12)%nat then be2z iv * 2 ^ 32 + 1
    else ghash H (pad16 iv ++ z2be 8 0 ++ z2be 8 (bit_length iv)).

  (** Increments the low 32 bits of a counter block by [i]. *)
Definition inc32 (ctr : Z) (i : Z) : Z :=
    (ctr / 2 ^ 32) * 2 ^ 32 + (ctr + i) mod 2 ^ 32.

Definition keystream (ctr0 : Z) (n : nat) : list byte :=
    firstn n
      (List.concat
         (map (fun i => z2be 16 (E (inc32 ctr0 (Z.of_nat i)))) (seq 1 (n / 16 + 1)))).

Definition tag (ctr0 : Z) (ct : list byte) : list byte :=
    let s := ghash H (pad16 ct ++ z2be 8 0 ++ z2be 8 (bit_length ct)) in
    z2be 16 (Z.lxor s (E ctr0)).

  (** [Cipher.doFinal] in encrypt mode: ciphertext followed by the tag. *)
Definition seal (iv plaintext : list byte) : list byte :=
    let ctr0 := j0 iv in
    let ct := xor_bytes plaintext (keystream ctr0 (length plaintext)) in
    ct ++ tag ctr0 ct.

  (** [Cipher.doFinal] in decrypt mode; [None] is [AEADBadTagException]. *)
Definition open (iv input : list byte) : option (list byte) :=
    if (length input <? 16)%nat then None
    else
      let n := (length input - 16)%nat in
      let ct := firstn n input in
      let ctr0 := j0 iv in
      if bytes_eqb (tag ctr0 ct) (skipn n input)
      then Some (xor_bytes ct (keystream ctr0 n))
      else None.
End WithKey.

End Gcm.

(** ** Kotlin string helpers used by the wallet import *)

Module Kotlin.

Definition code (c : ascii) : Z := Z.of_N (N_of_ascii c).

(** [Char.isWhitespace()] on the code units below 256: the controls 9-13
    and 28-31, the space and the no-break space. *)
Definition isWhitespace (c : ascii) : bool :=
  let n := code c in
  (9 <=? n) && (n <=? 13) || (28 <=? n) && (n <=? 32) || (n =? 160).

(** The class [\s] of [Regex] as Android matches it: its regular
    expressions follow Unicode, where [\s] is the set of characters with
    the White_Space property.  On the code units below 256 these are the
    controls 9-13, the space, next line (U+0085) and the no-break space
    (U+00A0).  Next line is in this class but not in [isWhitespace]; the
    controls 28-31 are the other way round. *)
Definition is_regex_space (c : ascii) : bool :=
  let n := code c in
  (9 <=? n) && (n <=? 13) || (n =? 32) || (n =? 133) || (n =? 160).

Fixpoint drop_while (p : ascii -> bool) (s : string) : string :=
  match s with
  | EmptyString => EmptyString
  | String c rest => if p c then drop_while p rest else s
  end.

Fixpoint rev_append (s acc : string) : string :=
  match s with
  | EmptyString => acc
  | String c rest => rev_append rest (String c acc)
  end.

Definition rev_string (s : string) : string := rev_append s EmptyString.

(** [String.trim()] *)
Definition trim (s : string) : string :=
  rev_string (drop_while isWhitespace (rev_string (drop_while isWhitespace s))).

(** [Char.lowercaseChar()] on the code units below 256. *)
Definition lowercaseChar (c : ascii) : ascii :=
  let n := code c in
  if (65 <=? n) && (n <=? 90)
     || (192 <=? n) && (n <=? 222) && negb (n =? 215)
  then ascii_of_N (Z.to_N (n + 32))
  else c.

(** [String.lowercase()] *)
Fixpoint lowercase (s : string) : string :=
  match s with
  | EmptyString => EmptyString
  | String c rest => String (lowercaseChar c) (lowercase rest)
  end.

(** [replace(Regex("\\s+"), " ")]: every maximal run of [\s] characters
    becomes one space.  [in_run] tells that the previous character already
    belonged to the run being replaced. *)
Fixpoint collapse_spaces (in_run : bool) (s : string) : string :=
  match s with
  | EmptyString => EmptyString
  | String c rest =>
      if is_regex_space c then
        if in_run then collapse_spaces true rest
        else String " " (collapse_spaces true rest)
      else String c (collapse_spaces false rest)
  end.

(** [split(" ")] with a one-character delimiter: the pieces between the
    delimiters, empty ones included; never the empty list. *)
Fixpoint split (sep : ascii) (s : string) : list string :=
  match s with
  | EmptyString => [EmptyString]
  | String c rest =>
      if Ascii.eqb c sep then EmptyString :: split sep rest
      else
        match split sep rest with
        | w :: ws => String c w :: ws
        | [] => [String c EmptyString]
        end
  end.

(** [startsWith] *)
Definition startsWith (pre s : string) : bool := String.prefix pre s.

(** [ByteArray.copyOf(n)]: truncated or padded with zeros. *)
Definition copyOf (n : nat) (bs : list byte) : list byte :=
  firstn n bs ++ repeat x00 (n - length bs).

End Kotlin.

(** ** CryptoManager.kt *)

Module CryptoManager.

Definition KEY_PRIVATE_KEY : string := "private_key".
Definition KEY_PUBLIC_KEY : string := "public_key".
Definition KEY_ADDRESS : string := "wallet_address".
Definition KEY_MNEMONIC : string := "mnemonic".
Definition KEY_ENCRYPTION_KEY : string := "encryption_key".

(** The exceptions that can leave the functions modelled here. *)
Inductive error :=
  | IllegalArgument        (* IllegalArgumentException: word count, bad base-64, empty key *)
  | MnemonicRejected       (* the BIP-39 library refusing the phrase *)
  | InvalidMnemonic        (* Exception("Invalid Recovery Phrase. Please check spelling.") *)
  | NoWallet               (* IllegalStateException("No wallet found") *)
  | InvalidKey             (* InvalidKeyException *)
  | InvalidParameter       (* InvalidAlgorithmParameterException *)
  | AuthenticationFailure. (* AEADBadTagException *)

Inductive result (A : Type) :=
  | Ok (a : A)
  | Err (e : error).
Arguments Ok {A} a.
Arguments Err {A} e.

(** What the object works on: the encrypted preferences file and the bytes
    [SecureRandom] is going to hand out. *)
Record world := World {
  prefs : gmap string string;
  entropy : nat -> byte
}.

(** A computation reads and writes the world and returns or throws; a throw
    keeps the world as it was when the exception was raised. *)
Definition M (A : Type) : Type := world -> result A * world.

Definition ret {A} (a : A) : M A := fun w => (Ok a, w).

Definition throw {A} (e : error) : M A := fun w => (Err e, w).

Definition bind {A B} (c : M A) (k : A -> M B) : M B :=
  fun w =>
    match c w with
    | (Ok a, w') => k a w'
    | (Err e, w') => (Err e, w')
    end.

Notation "'let*' x ':=' c 'in' k" := (bind c (fun x => k))
  (at level 10, x pattern, c at level 100, k at level 200).

(** [try { c } catch (e: Exception) { throw h(e) }] *)
Definition try_catch {A} (c : M A) (h : error -> error) : M A :=
  fun w =>
    match c w with
    | (Ok a, w') => (Ok a, w')
    | (Err e, w') => (Err (h e), w')
    end.

(** [sharedPreferences.getString(key, null)] *)
Definition getString (key : string) : M (option string) :=
  fun w => (Ok (prefs w !! key), w).

(** [edit().putString(..)...apply()] with the pairs in the order written. *)
Definition putStrings (kvs : list (string * string)) : M unit :=
  fun w =>
    (Ok tt,
     World (fold_left (fun m kv => <[kv.1 := kv.2]> m) kvs (prefs w)) (entropy w)).

(** [SecureRandom] handing out the next [n] bytes. *)
Definition secureRandom (n : nat) : M (list byte) :=
  fun w =>
    (Ok (map (entropy w) (seq 0 n)),
     World (prefs w) (fun i => entropy w (n + i)%nat)).

(** [Base64.decode(s, NO_WRAP)] *)
Definition base64_decode (s : string) : M (list byte) :=
  match Base64.decode s with
  | Some bs => ret bs
  | None => throw IllegalArgument
  end.

(** The wallet library the class builds on: BIP-39 validation of a phrase
    (word list and checksum), the PBKDF2 seed of a phrase, and the Ed25519
    public key of a 32-byte private seed. *)
Class Primitives := {
  bip39_validate : string -> bool;
  bip39_seed : string -> list byte;
  ed25519_public : list byte -> list byte
}.

Record EncryptedData := { iv : string; data : string }.

Record KeyPair := { public : list byte; private : list byte }.

Definition deriveAptosAddress (publicKey : list byte) : string :=
  let buffer := publicKey ++ [x00] in
  let hash := Sha3.sha3_256 buffer in
  "0x" +:+ String.concat EmptyString (map format_02x hash).

(** [KeyGenerator.getInstance("AES")], [init(256, SecureRandom())],
    [generateKey()] *)
Definition generateEncryptionKey : M (list byte) := secureRandom 32.

(** [SecretKeySpec(keyBytes, "AES")] refuses an empty key. *)
Definition secretKeySpec (keyBytes : list byte) : M (list byte) :=
  match keyBytes with
  | [] => throw IllegalArgument
  | _ => ret keyBytes
  end.

Definition getEncryptionKey : M (list byte) :=
  let* encoded := getString KEY_ENCRYPTION_KEY in
  match encoded with
  | Some encoded =>
      let* keyBytes := base64_decode encoded in
      secretKeySpec keyBytes
  | None =>
      let* key := generateEncryptionKey in
      let* _ := putStrings [(KEY_ENCRYPTION_KEY, Base64.encode key)] in
      ret key
  end.

(** [cipher.init] checks the key size. *)
Definition check_key (key : list byte) : M unit :=
  if Aes.valid_key_length (length key) then ret tt else throw InvalidKey.

Definition encryptData (plain : list byte) : M EncryptedData :=
  let* secretKey := getEncryptionKey in
  let* _ := check_key secretKey in
  let* iv := secureRandom 12 in
  let encryptedBytes := Gcm.seal secretKey iv plain in
  ret {| iv := Base64.encode iv; data := Base64.encode encryptedBytes |}.

Definition decryptData (encryptedData : EncryptedData) : M (list byte) :=
  let* secretKey := getEncryptionKey in
  let* iv := base64_decode (iv encryptedData) in
  let* encryptedBytes := base64_decode (data encryptedData) in
  let* _ := check_key secretKey in
  let* _ := (match iv with [] => throw InvalidParameter | _ => ret tt end) in
  match Gcm.open secretKey iv encryptedBytes with
  | Some plain => ret plain
  | None => throw AuthenticationFailure
  end.

Section WithPrimitives.
Context {P : Primitives}.

  (** [Mnemonics.MnemonicCode(chars).toSeed()]: validation, then the seed. *)
Definition toSeed (mnemonic : string) : M (list byte) :=
    if bip39_validate mnemonic then ret (bip39_seed mnemonic)
    else throw MnemonicRejected.

Definition generateKeyPairFromSeed (seed : list byte) : KeyPair :=
    let privateKeySeed := Kotlin.copyOf 32 seed in
    {| public := ed25519_public privateKeySeed; private := privateKeySeed |}.

Definition cleanMnemonic (rawMnemonic : string) : string :=
    Kotlin.collapse_spaces false (Kotlin.lowercase (Kotlin.trim rawMnemonic)).

Definition word_count (mnemonic : string) : nat :=
    length (Kotlin.split " " mnemonic).

Definition importWalletFromMnemonic (rawMnemonic : string) : M string :=
    try_catch
      (let clean := cleanMnemonic rawMnemonic in
       let words := Kotlin.split " " clean in
       if negb (length words =? 12)%nat && negb (length words =? 24)%nat
       then throw IllegalArgument
       else
         let* seed := toSeed clean in
         let keyPair := generateKeyPairFromSeed seed in
         let privateKey := private keyPair in
         let publicKey := public keyPair in
         let address := deriveAptosAddress publicKey in
         let* encryptionKey := generateEncryptionKey in
         let* _ := putStrings
           [(KEY_PRIVATE_KEY, Base64.encode privateKey);
            (KEY_PUBLIC_KEY, Base64.encode publicKey);
            (KEY_ADDRESS, address);
            (KEY_MNEMONIC, clean);
            (KEY_ENCRYPTION_KEY, Base64.encode encryptionKey)] in
         ret address)
      (fun _ => InvalidMnemonic).

  (** Both checks of the import, as one test on the normalized phrase. *)
Definition accepted (clean : string) : bool :=
    ((word_count clean =? 12)%nat || (word_count clean =? 24)%nat)
    && bip39_validate clean.

  (** The world an accepted import of the normalized phrase [clean] leaves
      behind: five entries written over the old store, 32 bytes of the
      random source used up. *)
Definition imported (clean : string) (w : world) : world :=
    let keyPair := generateKeyPairFromSeed (bip39_seed clean) in
    let fresh := map (entropy w) (seq 0 32) in
    World
      (<[KEY_ENCRYPTION_KEY := Base64.encode fresh]>
         (<[KEY_MNEMONIC := clean]>
            (<[KEY_ADDRESS := deriveAptosAddress (public keyPair)]>
               (<[KEY_PUBLIC_KEY := Base64.encode (public keyPair)]>
                  (<[KEY_PRIVATE_KEY := Base64.encode (private keyPair)]> (prefs w))))))
      (fun i => entropy w (32 + i)%nat).

Definition getAddress : M (option string) := getString KEY_ADDRESS.
Definition getMnemonic : M (option string) := getString KEY_MNEMONIC.
End WithPrimitives.

End CryptoManager.

(** ** CryptoManager.kt: the rest of the wallet life cycle *)

Module Wallet.
Import CryptoManager.

(** [hasWallet]: a private key entry that is neither null nor empty. *)
Definition hasWallet : M bool :=
  let* privateKey := getString KEY_PRIVATE_KEY in
  ret (match privateKey with
       | None => false
       | Some EmptyString => false
       | Some _ => true
       end).

(** [getPrivateKeyBytes] and [getPublicKeyBytes]: null without an entry,
    otherwise the decoded bytes. *)
Definition getBytes (key : string) : M (option (list byte)) :=
  let* encoded := getString key in
  match encoded with
  | None => ret None
  | Some encoded =>
      let* bs := base64_decode encoded in
      ret (Some bs)
  end.

Definition getPrivateKeyBytes : M (option (list byte)) := getBytes KEY_PRIVATE_KEY.
Definition getPublicKeyBytes : M (option (list byte)) := getBytes KEY_PUBLIC_KEY.

(** [logout]: [edit().clear().apply()] *)
Definition logout : M unit := fun w => (Ok tt, World ∅ (entropy w)).

(** What [signMessage] can end in: a signature, one of the exceptions of
    [error], or the index error of copying 32 bytes out of a shorter key. *)
Inductive sign_outcome :=
  | Signed (signature : list byte)
  | Thrown (e : error)
  | IndexOutOfBounds.

Record WalletData := {
  address : string;
  mnemonic : string;
  publicKey : list byte
}.

Section WithLibrary.
Context {P : Primitives}.

(** [Ed25519Signer] with a private key: the signature of a message. *)
Variable ed25519_sign : list byte -> list byte -> list byte.

(** [Mnemonics.MnemonicCode(WordCount.COUNT_24)]: the 24 words of 32 bytes
    of entropy. *)
Variable mnemonic_of_entropy : list byte -> string.

Definition signMessage (message : list byte) : world -> sign_outcome * world :=
  fun w =>
    match getPrivateKeyBytes w with
    | (Err e, w') => (Thrown e, w')
    | (Ok None, w') => (Thrown NoWallet, w')
    | (Ok (Some privateKeyBytes), w') =>
        if (length privateKeyBytes <? 32)%nat then (IndexOutOfBounds, w')
        else (Signed (ed25519_sign (firstn 32 privateKeyBytes) message), w')
    end.

Definition processAndStoreWallet (mnemonicString : string) : M WalletData :=
  let words := Kotlin.split " " mnemonicString in
  if negb (length words =? 12)%nat && negb (length words =? 24)%nat
  then throw IllegalArgument
  else
    let* seed := toSeed mnemonicString in
    let keyPair := generateKeyPairFromSeed seed in
    let privateKey := private keyPair in
    let publicKey := public keyPair in
    let address := deriveAptosAddress publicKey in
    let* encryptionKey := generateEncryptionKey in
    let* _ := putStrings
      [(KEY_PRIVATE_KEY, Base64.encode privateKey);
       (KEY_PUBLIC_KEY, Base64.encode publicKey);
       (KEY_ADDRESS, address);
       (KEY_MNEMONIC, mnemonicString);
       (KEY_ENCRYPTION_KEY, Base64.encode encryptionKey)] in
    ret {| address := address; mnemonic := mnemonicString; publicKey := publicKey |}.

Definition createNewWallet : M WalletData :=
  try_catch
    (let* bits := secureRandom 32 in
     let mnemonic := mnemonic_of_entropy bits in
     processAndStoreWallet mnemonic)
    (fun e => e).

(** [createWallet]: the alias that returns the phrase only. *)
Definition createWallet : M string :=
  let* data := createNewWallet in
  ret (mnemonic data).

End WithLibrary.

End Wallet.

(** ** AptosClient: balance and memory reads *)

Module AptosClient.

(** A Kotlin [String] as its UTF-16 code units; [convertHexToString] can
    produce units that no 8-bit character holds. *)
Definition utf16 : Type := list N.

Definition units (s : string) : utf16 := map N_of_ascii (list_ascii_of_string s).

(** A parsed JSON document, as [org.json] holds it.  Object members are in
    source order; on a repeated name the last member counts. *)
#[local] Unset Elimination Schemes.
Inductive json :=
  | JNull
  | JBool (b : bool)
  | JNumber (n : Z)
  | JString (s : string)
  | JArray (items : list json)
  | JObject (members : list (string * json)).
#[local] Set Elimination Schemes.

(** The body of an HTTP response: missing, not parseable, or a document. *)
Inductive body :=
  | NoBody
  | Malformed
  | Document (j : json).

Record response := { isSuccessful : bool; responseBody : body }.

(** [httpClient.newCall(request).execute()] either throws or answers. *)
Inductive reply :=
  | TransportError
  | Answer (r : response).

(** [JSONObject.opt(name)] *)
Fixpoint opt (name : string) (members : list (string * json)) : option json :=
  match members with
  | [] => None
  | (k, v) :: rest =>
      match opt name rest with
      | Some later => Some later
      | None => if String.eqb k name then Some v else None
      end
  end.

Definition optJSONObject (name : string) (members : list (string * json))
  : option (list (string * json)) :=
  match opt name members with
  | Some (JObject ms) => Some ms
  | _ => None
  end.

(** [JSONArray.optJSONArray(index)] *)
Definition optJSONArray (index : nat) (items : list json) : option (list json) :=
  match nth_error items index with
  | Some (JArray xs) => Some xs
  | _ => None
  end.

(** [JSONArray.getJSONObject(index)]; [None] is a [JSONException]. *)
Definition getJSONObject (index : nat) (items : list json)
  : option (list (string * json)) :=
  match nth_error items index with
  | Some (JObject ms) => Some ms
  | _ => None
  end.

(** [JSONObject(text)] and [JSONArray(text)] on the response body, with the
    source's fallback text for a missing body; [None] is a [JSONException]. *)
Definition parseObject (b : body) : option (list (string * json)) :=
  match b with
  | NoBody => Some []
  | Document (JObject ms) => Some ms
  | _ => None
  end.

Definition parseArray (b : body) : option (list json) :=
  match b with
  | NoBody => Some []
  | Document (JArray xs) => Some xs
  | _ => None
  end.

Definition is_digit (c : ascii) : bool :=
  let n := Kotlin.code c in (48 <=? n) && (n <=? 57).

Fixpoint digits_value (acc : Z) (s : string) : option Z :=
  match s with
  | EmptyString => Some acc
  | String c rest =>
      if is_digit c then digits_value (acc * 10 + (Kotlin.code c - 48)) rest
      else None
  end.

(** [String.toLongOrNull()]: an optional sign, at least one digit, and a
    value that fits a [Long]. *)
Definition toLongOrNull (s : string) : option Z :=
  let in_range v :=
    if (- 2 ^ 63 <=? v) && (v <=? 2 ^ 63 - 1) then Some v else None in
  match s with
  | EmptyString => None
  | String c rest =>
      if Kotlin.code c <? 48 then
        match rest with
        | EmptyString => None
        | _ =>
            if Ascii.eqb c "-" then
              match digits_value 0 rest with
              | Some v => in_range (- v)
              | None => None
              end
            else if Ascii.eqb c "+" then
              match digits_value 0 rest with
              | Some v => in_range v
              | None => None
              end
            else None
        end
      else
        match digits_value 0 s with
        | Some v => in_range v
        | None => None
        end
  end.

(** [Character.digit(c, 16)] on the code units below 256. *)
Definition hex_value (c : ascii) : option Z := of_hex_digit c.

(** [str.toInt(16)] for the two-character strings [substring(i, i + 2)]
    yields; [None] is a [NumberFormatException]. *)
Definition toInt16 (a b : ascii) : option Z :=
  if Ascii.eqb a "-" then
    match hex_value b with Some d => Some (- d) | None => None end
  else if Ascii.eqb a "+" then
    match hex_value b with Some d => Some d | None => None end
  else
    match hex_value a, hex_value b with
    | Some h, Some l => Some (16 * h + l)
    | _, _ => None
    end.

(** [Int.toChar()]: the low 16 bits. *)
Definition toChar (v : Z) : N := Z.to_N (v mod 65536).

(** The loop of [convertHexToString]; [None] is the exception thrown by
    [substring] on a dangling last character or by [toInt] on a pair that is
    not a number. *)
Fixpoint decode_pairs (cleanHex : string) : option utf16 :=
  match cleanHex with
  | EmptyString => Some []
  | String _ EmptyString => None
  | String a (String b rest) =>
      match toInt16 a b with
      | Some v =>
          match decode_pairs rest with
          | Some out => Some (toChar v :: out)
          | None => None
          end
      | None => None
      end
  end.

Definition convertHexToString (hex : string) : option utf16 :=
  let cleanHex :=
    if Kotlin.startsWith "0x" hex then String.substring 2 (String.length hex - 2) hex
    else hex in
  decode_pairs cleanHex.

(** [if (raw.startsWith("0x")) convertHexToString(raw) else raw] *)
Definition cleanField (raw : string) : option utf16 :=
  if Kotlin.startsWith "0x" raw then convertHexToString raw else Some (units raw).

Record MemoryItem := {
  id : Z;
  title : utf16;
  date : string;
  ipfsHash : utf16;
  isSecured : bool
}.

(** [Long.toInt()] *)
Definition toInt (v : Z) : Z := (v + 2 ^ 31) mod 2 ^ 32 - 2 ^ 31.

Section WithLibrary.
  (** [String.valueOf] of a JSON value that is not a string. *)
Variable valueOf : json -> string.

  (** [System.currentTimeMillis()] as read in the [i]-th loop iteration. *)
Variable currentTimeMillis : nat -> Z.

  (** [JSONObject.optString(name, fallback)] *)
Definition optString (name fallback : string) (members : list (string * json))
    : string :=
    match opt name members with
    | Some (JString s) => s
    | Some v => valueOf v
    | None => fallback
    end.

  (** The body of [getBalance]'s [try]; [None] is an exception. *)
Definition getBalance_try (r : reply) : option Z :=
    match r with
    | TransportError => None
    | Answer response =>
        if negb (isSuccessful response) then Some 0
        else
          match parseObject (responseBody response) with
          | None => None
          | Some json =>
              match optJSONObject "data" json with
              | None => Some 0
              | Some data =>
                  match optJSONObject "coin" data with
                  | None => Some 0
                  | Some coin =>
                      match toLongOrNull (optString "value" "0" coin) with
                      | Some v => Some v
                      | None => Some 0
                      end
                  end
              end
          end
    end.

Definition getBalance (r : reply) : Z :=
    match getBalance_try r with
    | Some v => v
    | None => 0
    end.

  (** One iteration of the loop over [memoriesArray]. *)
Definition decode_memory (memoriesArray : list json) (i : nat)
    : option MemoryItem :=
    match getJSONObject i memoriesArray with
    | None => None
    | Some mem =>
        let rawTitle := optString "title" "Secured Memory" mem in
        let rawHash := optString "ipfs_hash" EmptyString mem in
        match cleanField rawTitle with
        | None => None
        | Some cleanTitle =>
            match cleanField rawHash with
            | None => None
            | Some cleanHash =>
                Some {| id := toInt (currentTimeMillis i + Z.of_nat i);
                        title := cleanTitle;
                        date := "On-Chain";
                        ipfsHash := cleanHash;
                        isSecured := true |}
            end
        end
    end.

Fixpoint decode_all (memoriesArray : list json) (indices : list nat)
    : option (list MemoryItem) :=
    match indices with
    | [] => Some []
    | i :: rest =>
        match decode_memory memoriesArray i with
        | None => None
        | Some item =>
            match decode_all memoriesArray rest with
            | Some items => Some (item :: items)
            | None => None
            end
        end
    end.

  (** The body of [fetchUserMemories]'s [try]; [None] is an exception. *)
Definition fetchUserMemories_try (r : reply) : option (list MemoryItem) :=
    match r with
    | TransportError => None
    | Answer response =>
        if negb (isSuccessful response) then Some []
        else
          match parseArray (responseBody response) with
          | None => None
          | Some jsonArray =>
              if (length jsonArray =? 0)%nat then Some []
              else
                match optJSONArray 0 jsonArray with
                | None => Some []
                | Some memoriesArray =>
                    decode_all memoriesArray (seq 0 (length memoriesArray))
                end
          end
    end.

Definition fetchUserMemories (r : reply) : list MemoryItem :=
    match fetchUserMemories_try r with
    | Some items => items
    | None => []
    end.
End WithLibrary.

(** The decoding the specification asks for: the bytes of the hex digits,
    read as UTF-8.  A code point is given as its UTF-16 units. *)
Definition continuation (b : Z) : bool := (128 <=? b) && (b <? 192).

Definition utf16_of_code_point (cp : Z) : utf16 :=
  if cp <? 65536 then [Z.to_N cp]
  else [Z.to_N (55296 + (cp - 65536) / 1024); Z.to_N (56320 + (cp - 65536) mod 1024)].

(** Malformed input gives the replacement character U+FFFD. *)
Fixpoint utf8_decode_fuel (fuel : nat) (bs : list Z) : utf16 :=
  match fuel with
  | O => []
  | S fuel' =>
      match bs with
      | [] => []
      | b0 :: r0 =>
          if b0 <? 128 then Z.to_N b0 :: utf8_decode_fuel fuel' r0
          else
            match r0 with
            | b1 :: r1 =>
                if (192 <=? b0) && (b0 <? 224) && continuation b1 then
                  utf16_of_code_point ((b0 - 192) * 64 + (b1 - 128))
                    ++ utf8_decode_fuel fuel' r1
                else
                  match r1 with
                  | b2 :: r2 =>
                      if (224 <=? b0) && (b0 <? 240) && continuation b1
                         && continuation b2 then
                        utf16_of_code_point
                          ((b0 - 224) * 4096 + (b1 - 128) * 64 + (b2 - 128))
                          ++ utf8_decode_fuel fuel' r2
                      else
                        match r2 with
                        | b3 :: r3 =>
                            if (240 <=? b0) && (b0 <? 248) && continuation b1
                               && continuation b2 && continuation b3 then
                              utf16_of_code_point
                                ((b0 - 240) * 262144 + (b1 - 128) * 4096
                                 + (b2 - 128) * 64 + (b3 - 128))
                                ++ utf8_decode_fuel fuel' r3
                            else 65533%N :: utf8_decode_fuel fuel' r0
                        | [] => 65533%N :: utf8_decode_fuel fuel' r0
                        end
                  | [] => 65533%N :: utf8_decode_fuel fuel' r0
                  end
            | [] => [65533%N]
            end
      end
  end.

Definition utf8_decode (bs : list Z) : utf16 := utf8_decode_fuel (length bs) bs.

(** The bytes two hex digits at a time; [None] when the text is not an even
    number of hex digits. *)
Fixpoint hex_bytes (s : string) : option (list Z) :=
  match s with
  | EmptyString => Some []
  | String _ EmptyString => None
  | String a (String b rest) =>
      match hex_value a, hex_value b, hex_bytes rest with
      | Some h, Some l, Some bs => Some (16 * h + l :: bs)
      | _, _, _ => None
      end
  end.

(** The specification's decoding of a field. *)
Definition spec_decode_field (raw : string) : option utf16 :=
  if Kotlin.startsWith "0x" raw then
    match hex_bytes (String.substring 2 (String.length raw - 2) raw) with
    | Some bs => Some (utf8_decode bs)
    | None => None
    end
  else Some (units raw).

End AptosClient.

(** ** WalletContext.tsx: the authentication challenge *)

Module WalletContext.

(** A JavaScript integer number to string: plain decimal digits with a
    minus sign when negative ([Date.now()] stays far below 1e21). *)
Definition number_to_string (n : Z) : string := NilZero.string_of_int (Z.to_int n).

(** [generateAuthMessage]; [now] is what [Date.now()] returned. *)
Definition generateAuthMessage (now : Z) (address : string) : string :=
  let timestamp := now in
  "Sign this message to authenticate with LifeVault." +:+ String "010" (String "010"
    ("Wallet: " +:+ address +:+ String "010"
      ("Timestamp: " +:+ number_to_string timestamp +:+ String "010" (String "010"
        "This signature will not trigger any blockchain transaction or cost any gas fees.")))).

(** The template of the specification: literal text and named holes. *)
Inductive segment :=
  | Lit (s : string)
  | App
  | Address
  | TimestampMs.

Definition newline : string := String "010" EmptyString.

Definition challenge_template : list segment :=
  [Lit "Sign this message to authenticate with "; App; Lit "."; Lit newline;
   Lit newline; Lit "Wallet: "; Address; Lit newline; Lit "Timestamp: ";
   TimestampMs; Lit newline; Lit newline;
   Lit "This signature will not trigger any blockchain transaction or cost any gas fees."].

Definition fill (app address timestampMs : string) (seg : segment) : string :=
  match seg with
  | Lit s => s
  | App => app
  | Address => address
  | TimestampMs => timestampMs
  end.

Definition instantiate (app address timestampMs : string) (t : list segment)
  : string :=
  String.concat EmptyString (map (fill app address timestampMs) t).

End WalletContext.

Definition hex_of_bytes (bs : list byte) : string :=
  String.concat EmptyString (map format_02x bs).

Definition is_lower_hex (c : ascii) : bool :=
  let n := N_of_ascii c in
  ((48 <=? n) && (n <=? 57) || (97 <=? n) && (n <=? 102))%N.

Fixpoint string_forall (p : ascii -> bool) (s : string) : bool :=
  match s with
  | EmptyString => true
  | String c rest => p c && string_forall p rest
  end.

(** ** AptosClient: relaying a memory and the deprecated registration *)

Module Relay.
Import AptosClient.

(** The relay answer as Gson fills it; a member the JSON lacks is null. *)
Record TransactionDetails := { hash : option string; explorerUrl : option string }.
Record RelayData := { tx : option TransactionDetails }.
Record RelayResponse := {
  success : bool;
  message : option string;
  data : option RelayData
}.

(** A Retrofit [Response<RelayResponse>]: status, parsed body, error body
    and the HTTP status text. *)
Record http := {
  successful : bool;
  parsed : option RelayResponse;
  errorBody : AptosClient.body;
  statusMessage : string
}.

Inductive relay_reply :=
  | RelayTransportError
  | RelayAnswer (r : http).

(** How [submitRealMemory] ends: it returns a hash, or throws the
    exception with the given message, or rethrows what the call threw. *)
Inductive outcome :=
  | Returned (txHash : string)
  | Failed (message : string)
  | Rethrown.

Section WithLibrary.
Variable valueOf : json -> string.

(** [response.body()?.data?.tx?.hash ?: ""] *)
Definition body_hash (r : http) : string :=
  match parsed r with
  | Some b =>
      match data b with
      | Some d =>
          match tx d with
          | Some t =>
              match hash t with
              | Some h => h
              | None => EmptyString
              end
          | None => EmptyString
          end
      | None => EmptyString
      end
  | None => EmptyString
  end.

(** The message of the failure branch: the "message" of the error body
    when that parses as a JSON object, otherwise the status text. *)
Definition errorMessage (r : http) : string :=
  match parseObject (errorBody r) with
  | Some members => optString valueOf "message" (statusMessage r) members
  | None => statusMessage r
  end.

Definition submitRealMemory (reply : relay_reply) : outcome :=
  match reply with
  | RelayTransportError => Rethrown
  | RelayAnswer response =>
      if successful response
         && match parsed response with
            | Some b => success b
            | None => false
            end
      then Returned (body_hash response)
      else Failed ("Relay Failed: " +:+ errorMessage response)
  end.
End WithLibrary.

(** [Long.toString(16)]: the digits of the magnitude, a minus sign in
    front when negative.  Sixteen digits are enough for a [Long]. *)
Fixpoint hex_go (fuel : nat) (n : Z) (acc : string) : string :=
  match fuel with
  | O => acc
  | S fuel' =>
      let acc' := String (hex_digit (n mod 16)) acc in
      if n / 16 =? 0 then acc' else hex_go fuel' (n / 16) acc'
  end.

Definition toString16 (n : Z) : string :=
  if n <? 0 then String "-" (hex_go 16 (- n) EmptyString)
  else hex_go 16 n EmptyString.

Fixpoint repeat_char (c : ascii) (n : nat) : string :=
  match n with
  | O => EmptyString
  | S n' => String c (repeat_char c n')
  end.

(** [padStart(n, c)] *)
Definition padStart (n : nat) (c : ascii) (s : string) : string :=
  repeat_char c (n - String.length s) +:+ s.

(** [registerMemory], after its delay; [now] is [System.currentTimeMillis()]. *)
Definition registerMemory (now : Z) : string :=
  "0x" +:+ padStart 64 "0" (toString16 now).

(** The number a string of hex digits spells; a character that is no hex
    digit counts as 0. *)
Fixpoint hex_number (s : string) : Z :=
  match s with
  | EmptyString => 0
  | String c rest =>
      match of_hex_digit c with
      | Some d => d * 16 ^ Z.of_nat (String.length rest) + hex_number rest
      | None => hex_number rest
      end
  end.

End Relay.

(** ** WalletContext.tsx: keys, signatures and the link message *)

Module WalletHex.

(** The values [toHexString] is modelled on: nothing, a string, a
    [Uint8Array], and the two wrappers [{key: v}] and [{data: v}]. *)
Inductive value :=
  | Undefined
  | Str (s : string)
  | Bytes (bs : list byte)
  | KeyOf (v : value)
  | DataOf (v : value).

(** JavaScript truthiness on these values: only [undefined] and the empty
    string are falsy. *)
Definition truthy (v : value) : bool :=
  match v with
  | Undefined => false
  | Str EmptyString => false
  | _ => true
  end.

Fixpoint toHexString (v : value) : string :=
  match v with
  | Undefined => EmptyString
  | Str s =>
      match s with
      | EmptyString => EmptyString
      | _ => if Kotlin.startsWith "0x" s then s else "0x" +:+ s
      end
  | Bytes bs => "0x" +:+ String.concat EmptyString (map format_02x bs)
  | KeyOf inner =>
      if truthy inner then toHexString inner else "[object Object]"
  | DataOf inner =>
      if truthy inner then toHexString inner else "[object Object]"
  end.

(** [s.startsWith('0x') ? s.slice(2) : s] *)
Definition strip0x (s : string) : string :=
  if Kotlin.startsWith "0x" s then String.substring 2 (String.length s - 2) s else s.

(** The signature [signMessage] returns for the wallet's answer, from its
    [signature] member or else its [signedMessage] member. *)
Definition processSignature (signature signedMessage : value) : string :=
  let sig :=
    if truthy signature then toHexString signature
    else if truthy signedMessage then toHexString signedMessage
    else EmptyString in
  strip0x sig.

(** What [authenticateWithWallet] and [linkWalletToAccount] put into their
    request.  The account's public key went through [toHexString] when the
    account was read, and "0x" is removed from it once.  The signature is
    the one [signMessage] returned, so "0x" was already removed from it
    once, and it is removed a second time here.  ([authenticateWithWallet]
    gives up before posting when one of the two texts is empty.) *)
Definition postedPublicKey (publicKey : value) : string :=
  strip0x (toHexString publicKey).

Definition postedSignature (signature signedMessage : value) : string :=
  strip0x (processSignature signature signedMessage).

(** The message signed by [linkWalletToAccount]. *)
Definition linkMessage (now : Z) (address : string) : string :=
  "Link this wallet to your LifeVault account." +:+ String "010" (String "010"
    ("Wallet: " +:+ address +:+ String "010"
      ("Timestamp: " +:+ WalletContext.number_to_string now))).

(** No line feed in it. *)
Definition one_line (s : string) : bool :=
  string_forall (fun c => negb (Ascii.eqb c "010")) s.

End WalletHex.

(** ** Shapes of strings, for stating what normalization achieves *)

Module Shape.

(** The first character, if any, is no whitespace. *)
Definition head_ok (s : string) : bool :=
  match s with
  | EmptyString => true
  | String c _ => negb (Kotlin.isWhitespace c)
  end.

(** The last character, if any, is no whitespace. *)
Fixpoint last_ok (s : string) : bool :=
  match s with
  | EmptyString => true
  | String c EmptyString => negb (Kotlin.isWhitespace c)
  | String _ rest => last_ok rest
  end.

(** Every [\s] character is a space, and no two of them are adjacent;
    [after_space] tells that the character before was one. *)
Fixpoint single_spaced (after_space : bool) (s : string) : bool :=
  match s with
  | EmptyString => true
  | String c rest =>
      if Kotlin.is_regex_space c
      then Ascii.eqb c " " && negb after_space && single_spaced true rest
      else single_spaced false rest
  end.

(** No character that [lowercase] would change. *)
Definition all_lower (s : string) : bool :=
  string_forall (fun c => Ascii.eqb (Kotlin.lowercaseChar c) c) s.

Definition normalized (s : string) : bool :=
  head_ok s && last_ok s && single_spaced false s && all_lower s.

(** Next line, U+0085: matched by [\s] but kept by [trim]. *)
Definition is_next_line (c : ascii) : bool := (Kotlin.code c =? 133).

(** The first character, if any, is not next line. *)
Definition head_plain (s : string) : bool :=
  match s with
  | EmptyString => true
  | String c _ => negb (is_next_line c)
  end.

(** The last character, if any, is not next line. *)
Fixpoint last_plain (s : string) : bool :=
  match s with
  | EmptyString => true
  | String c EmptyString => negb (is_next_line c)
  | String _ rest => last_plain rest
  end.

Definition plain_ends (s : string) : bool := head_plain s && last_plain s.

Definition no_next_line (s : string) : bool :=
  string_forall (fun c => negb (is_next_line c)) s.

End Shape.

(** ** Sample inputs on which the theorems below are evaluated *)

Module Samples.
Import CryptoManager.

(** A stand-in for the wallet library, good enough to run the code: every
    phrase of the letters a to z and spaces validates, the seed is two digests of the
    phrase, the public key a digest of the private seed. *)
Definition primitives : Primitives := {|
  bip39_validate := fun m =>
    string_forall (fun c => Ascii.eqb c " "
                            || (97 <=? Kotlin.code c) && (Kotlin.code c <=? 122)) m;
  bip39_seed := fun m =>
    Sha3.sha3_256 (bytes_of_string m) ++ Sha3.sha3_256 (x01 :: bytes_of_string m);
  ed25519_public := fun sk => Sha3.sha3_256 (x02 :: sk)
|}.

(** A library that validates nothing. *)
Definition strict_primitives : Primitives := {|
  bip39_validate := fun _ => false;
  bip39_seed := fun _ => [];
  ed25519_public := fun sk => sk
|}.

Definition counting (start : nat) : nat -> byte := fun i => z2b (Z.of_nat (start + i)).

(** An empty preferences file. *)
Definition fresh_world : world := World ∅ (counting 0).

Definition other_world : world :=
  World (<[KEY_ADDRESS := "0xold"%string]> ∅) (counting 100).

Definition phrase : string :=
  "  Abandon ability  ABLE about above absent   absorb abstract absurd abuse access accident ".

Definition plain : list byte := bytes_of_string "a memory".

Definition result_blob (r : result EncryptedData * world) : EncryptedData :=
  match r.1 with
  | Ok b => b
  | Err _ => {| iv := EmptyString; data := EmptyString |}
  end.

Definition result_string (r : result string * world) : string :=
  match r.1 with
  | Ok a => a
  | Err _ => EmptyString
  end.

Definition sealed_blob : EncryptedData := result_blob (encryptData plain fresh_world).
Definition sealed_world : world := (encryptData plain fresh_world).2.

(** The same phrase typed differently. *)
Definition phrase_retyped : string :=
  "abandon ABILITY able about above absent absorb abstract absurd abuse access   accident".

Definition imported_address : string :=
  result_string (importWalletFromMnemonic (P := primitives) phrase sealed_world).
Definition imported_world : world :=
  (importWalletFromMnemonic (P := primitives) phrase sealed_world).2.

Definition reimported_address : string :=
  result_string (importWalletFromMnemonic (P := primitives) phrase_retyped other_world).
Definition reimported_world : world :=
  (importWalletFromMnemonic (P := primitives) phrase_retyped other_world).2.




(** Stand-ins for the signer and the phrase generator: one letter per
    entropy byte, 24 words. *)
Definition sign (sk msg : list byte) : list byte := Sha3.sha3_256 (sk ++ msg).

Definition letter (b : byte) : string :=
  String (ascii_of_N (Z.to_N (97 + b2z b mod 26))) EmptyString.

Definition words_of_entropy (bits : list byte) : string :=
  String.concat " " (map letter (firstn 24 bits)).

Definition created : CryptoManager.result Wallet.WalletData * world :=
  Wallet.createNewWallet (P := primitives) words_of_entropy fresh_world.

Definition created_data : Wallet.WalletData :=
  match created.1 with
  | Ok d => d
  | Err _ => {| Wallet.address := EmptyString; Wallet.mnemonic := EmptyString;
                Wallet.publicKey := [] |}
  end.

(** A node's answer to a resource read of an account without coin store,
    and stand-ins for the two library functions of the reader. *)
Definition not_found : AptosClient.response :=
  {| AptosClient.isSuccessful := false;
     AptosClient.responseBody :=
       AptosClient.Document
         (AptosClient.JObject
            [("message"%string, AptosClient.JString "Resource not found");
             ("error_code"%string, AptosClient.JString "resource_not_found")]) |}.

Definition no_memories : AptosClient.response :=
  {| AptosClient.isSuccessful := true;
     AptosClient.responseBody :=
       AptosClient.Document (AptosClient.JArray [AptosClient.JArray []]) |}.

Definition valueOf (j : AptosClient.json) : string := "?".

(** An inner array of two records, one with a hex title, and one whose
    second record has a title of "0x" and three characters. *)
Definition two_memories : list AptosClient.json :=
  [AptosClient.JObject
     [("title"%string, AptosClient.JString "0x74657374");
      ("ipfs_hash"%string, AptosClient.JString "QmFirst")];
   AptosClient.JObject
     [("title"%string, AptosClient.JString "Trip");
      ("ipfs_hash"%string, AptosClient.JString "0x516d")]].

Definition one_broken_memory : list AptosClient.json :=
  [AptosClient.JObject
     [("title"%string, AptosClient.JString "Trip");
      ("ipfs_hash"%string, AptosClient.JString "QmFirst")];
   AptosClient.JObject
     [("title"%string, AptosClient.JString "0x123");
      ("ipfs_hash"%string, AptosClient.JString "QmSecond")]].

Definition later_clock (i : nat) : Z := 1700000005000 + Z.of_nat i.

Definition coin_members : list (string * AptosClient.json) :=
  [("value"%string, AptosClient.JString "100000000")].
Definition data_members : list (string * AptosClient.json) :=
  [("coin"%string, AptosClient.JObject coin_members)].
Definition resource_members : list (string * AptosClient.json) :=
  [("type"%string, AptosClient.JString "0x1::coin::CoinStore");
   ("data"%string, AptosClient.JObject data_members)].

Definition clock (i : nat) : Z := 1700000000000 + Z.of_nat i.

End Samples.

(** * Theorems *)

(** ** The library models against their published test vectors *)

Example sha3_256_empty :
  hex_of_bytes (Sha3.sha3_256 []) =
  "a7ffc6f8bf1ed76651c14756a061d662f580ff4de43b49fa82d80a4b80f8434a"%string.
Proof. vm_compute. reflexivity. Qed.

Example sha3_256_abc :
  hex_of_bytes (Sha3.sha3_256 (bytes_of_string "abc")) =
  "3a985da74fe225b2045c172d6bd390bd855f086e3e9d525b46bfe24511431532"%string.
Proof. vm_compute. reflexivity. Qed.

Example aes256_fips197 :
  hex_of_bytes
    (Aes.encrypt_block
       (unhex "000102030405060708090a0b0c0d0e0f101112131415161718191a1b1c1d1e1f")
       (unhex "00112233445566778899aabbccddeeff")) =
  "8ea2b7ca516745bfeafc49904b496089"%string.
Proof. vm_compute. reflexivity. Qed.

Example aes128_fips197 :
  hex_of_bytes
    (Aes.encrypt_block
       (unhex "000102030405060708090a0b0c0d0e0f")
       (unhex "00112233445566778899aabbccddeeff")) =
  "69c4e0d86a7b0430d8cdb78070b4c55a"%string.
Proof. vm_compute. reflexivity. Qed.

Example gcm_case_14 :
  hex_of_bytes (Gcm.seal (repeat x00 32) (repeat x00 12) (repeat x00 16)) =
  "cea7403d4d606b6e074ec5d3baf39d18d0d1c8a799996bf0265b98b5d48ab919"%string.
Proof. vm_compute. reflexivity. Qed.

Example gcm_case_15 :
  hex_of_bytes
    (Gcm.seal
       (unhex "feffe9928665731c6d6a8f9467308308feffe9928665731c6d6a8f9467308308")
       (unhex "cafebabefacedbaddecaf888")
       (unhex "d9313225f88406e5a55909c5aff5269a86a7a9531534f7da2e4c303d8a318a721c3c0c95956809532fcf0e2449a6b525b16aedf5aa0de657ba637b391aafd255")) =
  ("522dc1f099567d07f47f37a32a84427d643a8cdcbfe5c0c97598a2bd2555d1aa" +:+
   "8cb08e48590dbb3da7b08b1056828838c5f61e6393ba7a0abcc9f662898015ad" +:+
   "b094dac5d93471bdec1a502270e3cc6c")%string.
Proof. vm_compute. reflexivity. Qed.

Example base64_foobar :
  Base64.encode (bytes_of_string "fooba") = "Zm9vYmE="%string
  /\ Base64.decode "Zm9vYmE=" = Some (bytes_of_string "fooba").
Proof. vm_compute. split; reflexivity. Qed.

(** ** Bytes *)

Section ByteFacts.

Lemma z2b_b2z (b : byte) : z2b (b2z b) = b.
Proof. destruct b; reflexivity. Qed.

Lemma b2z_range (b : byte) : 0 <= b2z b < 256.
Proof.
  unfold b2z. pose proof (Byte.to_N_bounded b) as Hb.
  split; [apply N2Z.is_nonneg | ]. lia.
Qed.

Lemma b2z_z2b (z : Z) : b2z (z2b z) = z mod 256.
Proof.
  unfold z2b, b2z.
  assert (Hm : 0 <= z mod 256 < 256) by (apply Z.mod_pos_bound; lia).
  destruct (Byte.of_N (Z.to_N (z mod 256))) as [b|] eqn:E.
  - apply Byte.to_of_N in E. rewrite E. lia.
  - apply Byte.of_N_None_iff in E. lia.
Qed.

Lemma string_length_app (s t : string) :
  String.length (s +:+ t) = (String.length s + String.length t)%nat.
Proof. induction s as [|c s IH]; simpl; [reflexivity | now rewrite IH]. Qed.

Lemma string_forall_app p (s t : string) :
  string_forall p (s +:+ t) = string_forall p s && string_forall p t.
Proof.
  induction s as [|c s IH]; simpl; [reflexivity | ].
  rewrite IH. apply andb_assoc.
Qed.

Lemma format_02x_lower_hex (b : byte) :
  string_forall is_lower_hex (format_02x b) = true.
Proof. destruct b; reflexivity. Qed.

Lemma format_02x_unhex (b : byte) (rest : string) :
  unhex (format_02x b +:+ rest) = b :: unhex rest.
Proof. destruct b; reflexivity. Qed.

Lemma hex_of_bytes_cons (b : byte) (bs : list byte) :
  hex_of_bytes (b :: bs) = format_02x b +:+ hex_of_bytes bs.
Proof.
  unfold hex_of_bytes. destruct bs as [|b' bs]; [destruct b; reflexivity | reflexivity].
Qed.

Lemma hex_of_bytes_length (bs : list byte) :
  String.length (hex_of_bytes bs) = (2 * length bs)%nat.
Proof.
  induction bs as [|b bs IH]; [reflexivity | ].
  rewrite hex_of_bytes_cons, string_length_app, IH. simpl. lia.
Qed.

Lemma hex_of_bytes_lower_hex (bs : list byte) :
  string_forall is_lower_hex (hex_of_bytes bs) = true.
Proof.
  induction bs as [|b bs IH]; [reflexivity | ].
  now rewrite hex_of_bytes_cons, string_forall_app, format_02x_lower_hex, IH.
Qed.

Lemma unhex_hex_of_bytes (bs : list byte) : unhex (hex_of_bytes bs) = bs.
Proof.
  induction bs as [|b bs IH]; [reflexivity | ].
  now rewrite hex_of_bytes_cons, format_02x_unhex, IH.
Qed.

End ByteFacts.

(** ** SHA3-256 and the address *)

Lemma sha3_256_length (msg : list byte) : length (Sha3.sha3_256 msg) = 32%nat.
Proof.
  unfold Sha3.sha3_256, Sha3.squeeze.
  now rewrite length_map, length_seq.
Qed.

(** C1: the address of a public key is "0x" followed by the lowercase hex
    encoding of SHA3-256 of the key bytes with one zero byte appended, that
    is, "0x" and then exactly 64 characters out of 0-9 and a-f which read
    back as the 32 bytes of the digest. *)
Theorem deriveAptosAddress_is_0x_sha3_hex (pk : list byte) :
  let digits := hex_of_bytes (Sha3.sha3_256 (pk ++ [x00])) in
  CryptoManager.deriveAptosAddress pk = "0x" +:+ digits
  /\ String.length digits = 64%nat
  /\ string_forall is_lower_hex digits = true
  /\ unhex digits = Sha3.sha3_256 (pk ++ [x00])
  /\ String.length (CryptoManager.deriveAptosAddress pk) = 66%nat.
Proof.
  intros digits. subst digits.
  assert (Hlen : String.length (hex_of_bytes (Sha3.sha3_256 (pk ++ [x00]))) = 64%nat)
    by now rewrite hex_of_bytes_length, sha3_256_length.
  split; [reflexivity | ].
  split; [exact Hlen | ].
  split; [apply hex_of_bytes_lower_hex | ].
  split; [apply unhex_hex_of_bytes | ].
  unfold CryptoManager.deriveAptosAddress. fold (hex_of_bytes (Sha3.sha3_256 (pk ++ [x00]))).
  rewrite string_length_app, Hlen. reflexivity.
Qed.

Example deriveAptosAddress_zero_key :
  CryptoManager.deriveAptosAddress (repeat x00 32) =
  "0xdc33296e4d20f0ef35ff9fd449e23ebbaa5a049a17779db3c2fe194b499aaf74"%string.
Proof. vm_compute. reflexivity. Qed.

(** ** Base64: decoding undoes encoding *)

Module Base64Facts.
Import Base64.

Ltac dlia := Z.div_mod_to_equations; lia.

Lemma decode_encode_char (s : Z) :
  0 <= s < 64 -> decode_char (encode_char s) = Data s.
Proof.
  intros [Hlo Hhi].
  destruct s as [|p|p]; [reflexivity | | lia].
  do 6 (try destruct p as [p|p|]); try lia; reflexivity.
Qed.

Lemma step0 v o c d :
  decode_char c = Data d -> step (DState 0 v o) c = Some (DState 1 d o).
Proof. intros H. unfold step. now rewrite H. Qed.

Lemma step1 v o c d :
  decode_char c = Data d -> step (DState 1 v o) c = Some (DState 2 (v * 64 + d) o).
Proof. intros H. unfold step. now rewrite H. Qed.

Lemma step2 v o c d :
  decode_char c = Data d -> step (DState 2 v o) c = Some (DState 3 (v * 64 + d) o).
Proof. intros H. unfold step. now rewrite H. Qed.

Lemma step3 v o c d :
  decode_char c = Data d ->
  step (DState 3 v o) c =
  Some (DState 0 (v * 64 + d)
          (o ++ [z2b ((v * 64 + d) / 65536); z2b ((v * 64 + d) / 256);
                 z2b (v * 64 + d)])).
Proof. intros H. unfold step. now rewrite H. Qed.

Lemma step2_eq v o :
  step (DState 2 v o) "=" = Some (DState 4 v (o ++ [z2b (v / 16)])).
Proof. unfold step. now change (decode_char "=") with Equals. Qed.

Lemma step3_eq v o :
  step (DState 3 v o) "=" = Some (DState 5 v (o ++ [z2b (v / 1024); z2b (v / 4)])).
Proof. unfold step. now change (decode_char "=") with Equals. Qed.

Lemma step4_eq v o : step (DState 4 v o) "=" = Some (DState 5 v o).
Proof. unfold step. now change (decode_char "=") with Equals. Qed.

Lemma z2b_mod (z : Z) : z2b (z mod 256) = z2b z.
Proof. unfold z2b. now rewrite Z.mod_mod by lia. Qed.

Lemma z2b_eq (z : Z) (b : byte) : z mod 256 = b2z b -> z2b z = b.
Proof. intros H. rewrite <- z2b_mod, H. apply z2b_b2z. Qed.

(** Induction over a list three elements at a time. *)
Lemma list_ind3 {A} (P : list A -> Prop) :
  P [] -> (forall a, P [a]) -> (forall a b, P [a; b]) ->
  (forall a b c l, P l -> P (a :: b :: c :: l)) ->
  forall l, P l.
Proof.
  intros H0 H1 H2 H3 l.
  enough (H : P l /\ (forall a, P (a :: l)) /\ (forall a b, P (a :: b :: l)))
    by apply H.
  induction l as [|x l (IH0 & IH1 & IH2)].
  - repeat split; auto.
  - split; [apply IH1 | ]. split; [intros; apply IH2 | ].
    intros a b. now apply H3.
Qed.

Lemma run_finish_encode (bs : list byte) :
  forall v o,
    match run (DState 0 v o) (encode bs) with
    | Some st => finish st
    | None => None
    end = Some (o ++ bs).
Proof.
  induction bs as [ | a | a b | a b c l IH] using list_ind3; intros v o.
  - simpl. now rewrite app_nil_r.
  - pose proof (b2z_range a) as Ha.
    cbn [encode run].
    rewrite (step0 _ _ _ (b2z a / 4))
      by (apply decode_encode_char; dlia).
    rewrite (step1 _ _ _ (b2z a mod 4 * 16))
      by (apply decode_encode_char; dlia).
    rewrite step2_eq, step4_eq. cbn [run finish].
    do 2 f_equal. f_equal. apply z2b_eq. dlia.
  - pose proof (b2z_range a) as Ha. pose proof (b2z_range b) as Hb.
    cbn [encode run].
    rewrite (step0 _ _ _ (b2z a / 4))
      by (apply decode_encode_char; dlia).
    rewrite (step1 _ _ _ (b2z a mod 4 * 16 + b2z b / 16))
      by (apply decode_encode_char; dlia).
    rewrite (step2 _ _ _ (b2z b mod 16 * 4))
      by (apply decode_encode_char; dlia).
    rewrite step3_eq. cbn [run finish].
    do 2 f_equal. f_equal; [ | f_equal]; apply z2b_eq; dlia.
  - pose proof (b2z_range a) as Ha. pose proof (b2z_range b) as Hb.
    pose proof (b2z_range c) as Hc.
    cbn [encode run].
    rewrite (step0 _ _ _ (b2z a / 4))
      by (apply decode_encode_char; dlia).
    rewrite (step1 _ _ _ (b2z a mod 4 * 16 + b2z b / 16))
      by (apply decode_encode_char; dlia).
    rewrite (step2 _ _ _ (b2z b mod 16 * 4 + b2z c / 64))
      by (apply decode_encode_char; dlia).
    rewrite (step3 _ _ _ (b2z c mod 64))
      by (apply decode_encode_char; dlia).
    rewrite IH. rewrite <- app_assoc. do 2 f_equal. cbn [app].
    f_equal; [ | f_equal; [ | f_equal]]; apply z2b_eq; dlia.
Qed.

Lemma decode_encode (bs : list byte) : decode (encode bs) = Some bs.
Proof. unfold decode. now rewrite run_finish_encode. Qed.


End Base64Facts.

(** ** AES-GCM: opening what was sealed *)

Module GcmFacts.
Import Gcm.

Lemma small_bits_high (a n : Z) : 0 <= a < 256 -> 8 <= n -> Z.testbit a n = false.
Proof.
  intros Ha Hn. rewrite <- (Z.mod_small a (2 ^ 8)) by lia.
  apply Z.mod_pow2_bits_high. lia.
Qed.

Lemma lxor_small (a b : Z) :
  0 <= a < 256 -> 0 <= b < 256 -> Z.lxor a b mod 256 = Z.lxor a b.
Proof.
  intros Ha Hb. change 256 with (2 ^ 8).
  apply Z.bits_inj'. intros n Hn.
  destruct (Z_lt_le_dec n 8) as [Hlt | Hge].
  - now rewrite Z.mod_pow2_bits_low by lia.
  - rewrite Z.mod_pow2_bits_high by lia.
    now rewrite Z.lxor_spec, !small_bits_high by lia.
Qed.

Lemma bxor_involutive (a k : byte) : bxor (bxor a k) k = a.
Proof.
  unfold bxor. rewrite b2z_z2b, lxor_small by apply b2z_range.
  rewrite Z.lxor_assoc, Z.lxor_nilpotent, Z.lxor_0_r. apply z2b_b2z.
Qed.

Lemma xor_bytes_length (xs ks : list byte) :
  (length xs <= length ks)%nat -> length (xor_bytes xs ks) = length xs.
Proof.
  revert ks. induction xs as [|x xs IH]; intros [|k ks] H; simpl in *;
    try reflexivity; try lia.
  f_equal. apply IH. lia.
Qed.

Lemma xor_bytes_involutive (xs ks : list byte) :
  (length xs <= length ks)%nat -> xor_bytes (xor_bytes xs ks) ks = xs.
Proof.
  revert ks. induction xs as [|x xs IH]; intros [|k ks] H; simpl in *;
    try reflexivity; try lia.
  rewrite bxor_involutive. f_equal. apply IH. lia.
Qed.

Lemma z2be_length (n : nat) (z : Z) : length (z2be n z) = n.
Proof. induction n as [|n IH]; simpl; [reflexivity | now rewrite IH]. Qed.

Lemma concat_blocks_length {A} (f : nat -> list byte) (l : list A) (g : A -> nat) :
  (forall i, length (f i) = 16%nat) ->
  length (List.concat (map (fun a => f (g a)) l)) = (16 * length l)%nat.
Proof.
  intros Hf. induction l as [|a l IH]; [reflexivity | ].
  cbn [map List.concat]. rewrite length_app, Hf, IH. simpl. lia.
Qed.

Lemma keystream_length key ctr0 (n : nat) : length (keystream key ctr0 n) = n.
Proof.
  unfold keystream. rewrite length_take.
  rewrite (concat_blocks_length
             (fun i => z2be 16 (E key (inc32 ctr0 (Z.of_nat i)))) _ (fun i => i))
    by (intros; apply z2be_length).
  rewrite length_seq.
  pose proof (Nat.div_mod_eq n 16) as Hd.
  pose proof (Nat.mod_upper_bound n 16 ltac:(lia)) as Hm. lia.
Qed.

Lemma bytes_eqb_refl (xs : list byte) : bytes_eqb xs xs = true.
Proof.
  induction xs as [|x xs IH]; [reflexivity | ].
  simpl. rewrite IH, andb_true_r. now apply Byte.byte_dec_lb.
Qed.

Lemma bytes_eqb_eq (xs ys : list byte) : bytes_eqb xs ys = true -> xs = ys.
Proof.
  revert ys. induction xs as [|x xs IH]; intros [|y ys] H; simpl in H;
    try reflexivity; try discriminate.
  apply andb_true_iff in H as [Hx Hr].
  apply Byte.byte_dec_bl in Hx. f_equal; [exact Hx | now apply IH].
Qed.

Lemma tag_length key ctr0 ct : length (tag key ctr0 ct) = 16%nat.
Proof. apply z2be_length. Qed.

Lemma seal_length key iv plain :
  length (seal key iv plain) = (length plain + 16)%nat.
Proof.
  unfold seal. rewrite length_app, tag_length, xor_bytes_length; [reflexivity | ].
  now rewrite keystream_length.
Qed.

(** Decryption under the same key and IV returns the plaintext. *)
Lemma open_seal key iv plain : open key iv (seal key iv plain) = Some plain.
Proof.
  unfold open. rewrite seal_length.
  destruct (length plain + 16 <? 16)%nat eqn:Hlt;
    [apply Nat.ltb_lt in Hlt; lia | ].
  replace (length plain + 16 - 16)%nat with (length plain) by lia.
  unfold seal.
  set (ct := xor_bytes plain (keystream key (j0 key iv) (length plain))).
  assert (Hct : length ct = length plain)
    by (apply xor_bytes_length; now rewrite keystream_length).
  rewrite take_app_length', drop_app_length' by (symmetry; exact Hct).
  rewrite bytes_eqb_refl. f_equal.
  apply xor_bytes_involutive. now rewrite keystream_length.
Qed.

End GcmFacts.

(** ** CryptoManager: encrypted blobs *)

Module BlobFacts.
Import CryptoManager.

Lemma bind_ok {A B} (c : M A) (k : A -> M B) w a w' :
  c w = (Ok a, w') -> bind c k w = k a w'.
Proof. intros H. unfold bind. now rewrite H. Qed.

Lemma bind_err {A B} (c : M A) (k : A -> M B) w e w' :
  c w = (Err e, w') -> bind c k w = (Err e, w').
Proof. intros H. unfold bind. now rewrite H. Qed.

(** Inversion of a successful [bind]. *)
Lemma bind_inv {A B} (c : M A) (k : A -> M B) w b w2 :
  bind c k w = (Ok b, w2) ->
  exists a w1, c w = (Ok a, w1) /\ k a w1 = (Ok b, w2).
Proof.
  unfold bind. destruct (c w) as [[a | e] w1]; intros H; [eauto | discriminate].
Qed.

Lemma base64_decode_encode (bs : list byte) (w : world) :
  base64_decode (Base64.encode bs) w = (Ok bs, w).
Proof. unfold base64_decode. now rewrite Base64Facts.decode_encode. Qed.

(** Without a stored key, 32 fresh bytes become the key and are stored. *)
Lemma getEncryptionKey_fresh (w : world) :
  prefs w !! KEY_ENCRYPTION_KEY = None ->
  getEncryptionKey w =
  (Ok (map (entropy w) (seq 0 32)),
   World (<[KEY_ENCRYPTION_KEY := Base64.encode (map (entropy w) (seq 0 32))]> (prefs w))
         (fun i => entropy w (32 + i)%nat)).
Proof.
  intros Hnone. unfold getEncryptionKey, bind, getString. rewrite Hnone.
  reflexivity.
Qed.

(** A key that [getEncryptionKey] returned is in the store afterwards. *)
Lemma getEncryptionKey_stored (w w1 : world) (k : list byte) :
  getEncryptionKey w = (Ok k, w1) ->
  exists encoded,
    prefs w1 !! KEY_ENCRYPTION_KEY = Some encoded
    /\ Base64.decode encoded = Some k
    /\ k <> [].
Proof.
  intros H.
  destruct (prefs w !! KEY_ENCRYPTION_KEY) as [encoded | ] eqn:Hlook.
  - unfold getEncryptionKey, bind, getString in H. rewrite Hlook in H.
    unfold base64_decode in H.
    destruct (Base64.decode encoded) as [kb | ] eqn:Hdec; [ | discriminate].
    unfold ret, secretKeySpec in H. destruct kb as [ | b kb]; [discriminate | ].
    inversion H; subst. exists encoded. now repeat split.
  - rewrite (getEncryptionKey_fresh w Hlook) in H.
    apply pair_equal_spec in H as [Hk Hw]. injection Hk as <-. subst w1.
    cbn [prefs].
    exists (Base64.encode (map (entropy w) (seq 0 32))).
    split; [apply lookup_insert_eq | ].
    split; [apply Base64Facts.decode_encode | ].
    intros Hnil. apply (f_equal (@length byte)) in Hnil.
    rewrite ?length_map, ?length_seq in Hnil. discriminate.
Qed.

(** A stored well-formed key is returned as it is, and nothing changes. *)
Lemma getEncryptionKey_of_stored (w : world) (encoded : string) (k : list byte) :
  prefs w !! KEY_ENCRYPTION_KEY = Some encoded ->
  Base64.decode encoded = Some k ->
  k <> [] ->
  getEncryptionKey w = (Ok k, w).
Proof.
  intros Hlook Hdec Hne.
  unfold getEncryptionKey, bind, getString. rewrite Hlook.
  unfold base64_decode. rewrite Hdec. unfold ret, secretKeySpec.
  destruct k; [contradiction | reflexivity].
Qed.

(** C2: whatever the store and the random source, a blob that [encryptData]
    produced from [x] is decrypted by [decryptData], run on the store
    [encryptData] left behind, to exactly [x]; decryption leaves the store as
    it is.  This covers the case where the envelope key was missing and
    [encryptData] created it. *)
Theorem decryptData_encryptData
    (w w' : world) (x : list byte) (blob : EncryptedData) :
  encryptData x w = (Ok blob, w') ->
  decryptData blob w' = (Ok x, w').
Proof.
  unfold encryptData. intros H.
  apply bind_inv in H as (k & w1 & Hkey & H).
  apply bind_inv in H as ([] & w2 & Hcheck & H).
  apply bind_inv in H as (nonce & w3 & Hiv & H).
  unfold ret in H. apply pair_equal_spec in H as [Hblob <-].
  injection Hblob as <-.
  assert (Hcheck' : forall v, check_key k v = (Ok tt, v)).
  { intros v. unfold check_key in *.
    destruct (Aes.valid_key_length (length k)); [reflexivity | discriminate]. }
  rewrite Hcheck' in Hcheck. apply pair_equal_spec in Hcheck as [_ <-].
  unfold secureRandom in Hiv. apply pair_equal_spec in Hiv as [Hnonce <-].
  injection Hnonce as <-.
  destruct (getEncryptionKey_stored _ _ _ Hkey) as (encoded & Hlook & Hdec & Hne).
  set (w3 := World (prefs w1) (fun i => entropy w1 (12 + i)%nat)).
  set (nonce := map (entropy w1) (seq 0 12)).
  assert (Hnonce : nonce <> []).
  { intros Hnil. apply (f_equal (@length byte)) in Hnil.
    unfold nonce in Hnil. rewrite length_map, length_seq in Hnil. discriminate. }
  unfold decryptData.
  rewrite (bind_ok _ _ _ k _ (getEncryptionKey_of_stored w3 encoded k Hlook Hdec Hne)).
  cbn [iv data].
  rewrite (bind_ok _ _ _ _ _ (base64_decode_encode _ _)).
  rewrite (bind_ok _ _ _ _ _ (base64_decode_encode _ _)).
  rewrite (bind_ok _ _ _ _ _ (Hcheck' w3)).
  rewrite GcmFacts.open_seal.
  destruct nonce; [contradiction | reflexivity].
Qed.

(** [encryptData] succeeds on every store without an envelope key and on
    every store holding one of an AES key size. *)
Lemma encryptData_succeeds (w : world) (x : list byte) :
  (prefs w !! KEY_ENCRYPTION_KEY = None
   \/ exists encoded k,
        prefs w !! KEY_ENCRYPTION_KEY = Some encoded
        /\ Base64.decode encoded = Some k
        /\ Aes.valid_key_length (length k) = true) ->
  exists blob w', encryptData x w = (Ok blob, w').
Proof.
  intros [Hnone | (encoded & k & Hlook & Hdec & Hlen)].
  - unfold encryptData.
    rewrite (bind_ok _ _ _ _ _ (getEncryptionKey_fresh w Hnone)).
    unfold bind, check_key, secureRandom, ret. rewrite length_map, length_seq.
    cbn [Aes.valid_key_length Nat.eqb orb]. eauto.
  - assert (Hne : k <> []) by (destruct k; [discriminate | discriminate]).
    unfold encryptData.
    rewrite (bind_ok _ _ _ k _ (getEncryptionKey_of_stored _ encoded k Hlook Hdec Hne)).
    unfold bind, check_key, secureRandom, ret. rewrite Hlen. eauto.
Qed.

End BlobFacts.

(** A concrete run of C2: starting from an empty store, the key is created
    by [encryptData] and found again by [decryptData]. *)
Lemma decryptData_encryptData_witness :
  CryptoManager.encryptData Samples.plain Samples.fresh_world
    = (CryptoManager.Ok Samples.sealed_blob, Samples.sealed_world)
  /\ CryptoManager.decryptData Samples.sealed_blob Samples.sealed_world
    = (CryptoManager.Ok Samples.plain, Samples.sealed_world).
Proof.
  assert (H : CryptoManager.encryptData Samples.plain Samples.fresh_world
              = (CryptoManager.Ok Samples.sealed_blob, Samples.sealed_world))
    by (vm_compute; reflexivity).
  split; [exact H | ].
  exact (BlobFacts.decryptData_encryptData _ _ _ _ H).
Defined.

(** ** CryptoManager: wallet import *)

Module ImportFacts.
Import CryptoManager.

Section WithPrimitives.
Context {P : Primitives}.

Lemma import_rejected (rawMnemonic : string) (w : world) :
    accepted (cleanMnemonic rawMnemonic) = false ->
    importWalletFromMnemonic rawMnemonic w = (Err InvalidMnemonic, w).
  Proof.
    unfold accepted, word_count, importWalletFromMnemonic, try_catch.
    intros H.
    destruct (length (Kotlin.split " " (cleanMnemonic rawMnemonic)) =? 12)%nat;
      destruct (length (Kotlin.split " " (cleanMnemonic rawMnemonic)) =? 24)%nat;
      cbn [negb andb orb] in *; try reflexivity;
      unfold bind, toSeed; rewrite H; reflexivity.
  Qed.

Lemma import_accepted (rawMnemonic : string) (w : world) :
    accepted (cleanMnemonic rawMnemonic) = true ->
    importWalletFromMnemonic rawMnemonic w =
    (Ok (deriveAptosAddress
           (public (generateKeyPairFromSeed (bip39_seed (cleanMnemonic rawMnemonic))))),
     imported (cleanMnemonic rawMnemonic) w).
  Proof.
    unfold accepted, word_count, importWalletFromMnemonic, try_catch.
    intros H. apply andb_true_iff in H as [Hcount Hvalid].
    assert (Hguard :
      negb (length (Kotlin.split " " (cleanMnemonic rawMnemonic)) =? 12)%nat
      && negb (length (Kotlin.split " " (cleanMnemonic rawMnemonic)) =? 24)%nat
      = false).
    { destruct (length (Kotlin.split " " (cleanMnemonic rawMnemonic)) =? 12)%nat;
        destruct (length (Kotlin.split " " (cleanMnemonic rawMnemonic)) =? 24)%nat;
        try reflexivity; discriminate. }
    rewrite Hguard. unfold bind, toSeed. rewrite Hvalid. reflexivity.
  Qed.

  (** A successful import went through both checks. *)
Lemma import_ok_inv (rawMnemonic : string) (w w' : world) (address : string) :
    importWalletFromMnemonic rawMnemonic w = (Ok address, w') ->
    accepted (cleanMnemonic rawMnemonic) = true
    /\ address = deriveAptosAddress
         (public (generateKeyPairFromSeed (bip39_seed (cleanMnemonic rawMnemonic))))
    /\ w' = imported (cleanMnemonic rawMnemonic) w.
  Proof.
    intros H.
    destruct (accepted (cleanMnemonic rawMnemonic)) eqn:Hacc.
    - rewrite (import_accepted _ _ Hacc) in H.
      apply pair_equal_spec in H as [Ha Hw]. injection Ha as Ha.
      now repeat split.
    - rewrite (import_rejected _ _ Hacc) in H. discriminate.
  Qed.

Lemma imported_lookups (clean : string) (w : world) :
    let keyPair := generateKeyPairFromSeed (bip39_seed clean) in
    prefs (imported clean w) !! KEY_PRIVATE_KEY = Some (Base64.encode (private keyPair))
    /\ prefs (imported clean w) !! KEY_PUBLIC_KEY = Some (Base64.encode (public keyPair))
    /\ prefs (imported clean w) !! KEY_ADDRESS = Some (deriveAptosAddress (public keyPair))
    /\ prefs (imported clean w) !! KEY_MNEMONIC = Some clean
    /\ prefs (imported clean w) !! KEY_ENCRYPTION_KEY
       = Some (Base64.encode (map (entropy w) (seq 0 32))).
  Proof.
    intros keyPair. unfold imported. cbn [prefs]. fold keyPair.
    repeat split;
      repeat (first [ apply lookup_insert_eq
                    | rewrite lookup_insert_ne by (unfold KEY_PRIVATE_KEY, KEY_PUBLIC_KEY,
                        KEY_ADDRESS, KEY_MNEMONIC, KEY_ENCRYPTION_KEY; discriminate) ]).
  Qed.

  (** C6: the phrase is first normalized; then either the normalized phrase
      misses one of the two checks (12 or 24 words, BIP-39 validation) and the
      import fails with the invalid-phrase error, the store and the random
      source left exactly as they were, or it passes both and the import
      goes on to derive the keys and store them, the normalized phrase
      among them. *)
Theorem importWallet_checks_before_storing (rawMnemonic : string) (w : world) :
    let clean :=
      Kotlin.collapse_spaces false (Kotlin.lowercase (Kotlin.trim rawMnemonic)) in
    let count := length (Kotlin.split " " clean) in
    ((count <> 12%nat /\ count <> 24%nat \/ bip39_validate clean = false)
     /\ importWalletFromMnemonic rawMnemonic w = (Err InvalidMnemonic, w))
    \/
    ((count = 12%nat \/ count = 24%nat) /\ bip39_validate clean = true
     /\ exists address w',
          importWalletFromMnemonic rawMnemonic w = (Ok address, w')
          /\ prefs w' !! KEY_ADDRESS = Some address
          /\ prefs w' !! KEY_MNEMONIC = Some clean
          /\ is_Some (prefs w' !! KEY_PRIVATE_KEY)
          /\ is_Some (prefs w' !! KEY_PUBLIC_KEY)
          /\ is_Some (prefs w' !! KEY_ENCRYPTION_KEY)).
  Proof.
    intros clean count.
    change clean with (cleanMnemonic rawMnemonic) in *.
    destruct (accepted (cleanMnemonic rawMnemonic)) eqn:Hacc.
    - right. pose proof (import_accepted _ w Hacc) as Himp.
      unfold accepted, word_count in Hacc. fold count in Hacc.
      apply andb_true_iff in Hacc as [Hcount Hvalid].
      apply orb_true_iff in Hcount as [H12 | H24].
      + apply Nat.eqb_eq in H12. split; [now left | ]. split; [exact Hvalid | ].
        destruct (imported_lookups (cleanMnemonic rawMnemonic) w)
          as (Hpriv & Hpub & Haddr & Hmn & Henc).
        eexists _, _. split; [exact Himp | ].
        rewrite Hpriv, Hpub, Haddr, Hmn, Henc. repeat split; eauto.
      + apply Nat.eqb_eq in H24. split; [now right | ]. split; [exact Hvalid | ].
        destruct (imported_lookups (cleanMnemonic rawMnemonic) w)
          as (Hpriv & Hpub & Haddr & Hmn & Henc).
        eexists _, _. split; [exact Himp | ].
        rewrite Hpriv, Hpub, Haddr, Hmn, Henc. repeat split; eauto.
    - left. split; [ | now apply import_rejected].
      unfold accepted, word_count in Hacc. fold count in Hacc.
      apply andb_false_iff in Hacc as [Hcount | Hvalid]; [left | now right].
      apply orb_false_iff in Hcount as [H12 H24].
      apply Nat.eqb_neq in H12, H24. now split.
  Qed.

(** C5: two successful imports of the same phrase, whatever the stores and
    random sources they start from, return the same address and store the
    same address, the same private key and the same public key.  It is
    enough that the two phrases agree after normalization. *)
Theorem import_same_phrase_same_identity
    (raw1 raw2 : string) (w1 w2 w1' w2' : world) (a1 a2 : string) :
  cleanMnemonic raw1 = cleanMnemonic raw2 ->
  importWalletFromMnemonic raw1 w1 = (Ok a1, w1') ->
  importWalletFromMnemonic raw2 w2 = (Ok a2, w2') ->
  a1 = a2
  /\ prefs w1' !! KEY_ADDRESS = Some a1
  /\ prefs w2' !! KEY_ADDRESS = Some a2
  /\ is_Some (prefs w1' !! KEY_PRIVATE_KEY)
  /\ prefs w1' !! KEY_PRIVATE_KEY = prefs w2' !! KEY_PRIVATE_KEY
  /\ is_Some (prefs w1' !! KEY_PUBLIC_KEY)
  /\ prefs w1' !! KEY_PUBLIC_KEY = prefs w2' !! KEY_PUBLIC_KEY.
Proof.
  intros Hclean H1 H2.
  apply import_ok_inv in H1 as (_ & -> & ->).
  apply import_ok_inv in H2 as (_ & -> & ->).
  destruct (imported_lookups (cleanMnemonic raw1) w1) as (Hp1 & Hq1 & Ha1 & _ & _).
  destruct (imported_lookups (cleanMnemonic raw2) w2) as (Hp2 & Hq2 & Ha2 & _ & _).
  rewrite Hp1, Hq1, Ha1, Hp2, Hq2, Ha2, Hclean.
  repeat split; eauto.
Qed.

(** What [decryptData] does once the store holds a key of an AES size and
    the two fields of the blob decode: it answers with what the cipher finds
    under the stored key, and with nothing else. *)
Lemma decryptData_with_key
    (w : world) (encoded : string) (k : list byte)
    (blob : EncryptedData) (ivb ct : list byte) :
  prefs w !! KEY_ENCRYPTION_KEY = Some encoded ->
  Base64.decode encoded = Some k ->
  Aes.valid_key_length (length k) = true ->
  Base64.decode (iv blob) = Some ivb ->
  Base64.decode (data blob) = Some ct ->
  ivb <> [] ->
  decryptData blob w =
  (match Gcm.open k ivb ct with
   | Some plain => Ok plain
   | None => Err AuthenticationFailure
   end, w).
Proof.
  intros Hlook Hdec Hlen Hiv Hct Hne.
  assert (Hk : k <> []) by (destruct k; [discriminate | discriminate]).
  unfold decryptData.
  rewrite (BlobFacts.bind_ok _ _ _ k _
             (BlobFacts.getEncryptionKey_of_stored w encoded k Hlook Hdec Hk)).
  unfold bind, base64_decode. rewrite Hiv, Hct. unfold ret, check_key.
  rewrite Hlen. unfold ret.
  destruct ivb; [contradiction | ].
  destruct (Gcm.open k (b :: ivb) ct); reflexivity.
Qed.

(** The shape of a blob: a 12-byte IV and the sealed bytes, both in
    Base64, sealed under the key the store holds afterwards. *)
Lemma encryptData_blob (x : list byte) (w w' : world) (blob : EncryptedData) :
  encryptData x w = (Ok blob, w') ->
  exists encoded k nonce,
    prefs w' !! KEY_ENCRYPTION_KEY = Some encoded
    /\ Base64.decode encoded = Some k
    /\ Aes.valid_key_length (length k) = true
    /\ length nonce = 12%nat
    /\ iv blob = Base64.encode nonce
    /\ data blob = Base64.encode (Gcm.seal k nonce x).
Proof.
  unfold encryptData. intros H.
  apply BlobFacts.bind_inv in H as (k & w1 & Hkey & H).
  apply BlobFacts.bind_inv in H as ([] & w2 & Hcheck & H).
  apply BlobFacts.bind_inv in H as (nonce & w3 & Hiv & H).
  unfold ret in H. apply pair_equal_spec in H as [Hblob <-].
  injection Hblob as <-.
  unfold check_key in Hcheck.
  destruct (Aes.valid_key_length (length k)) eqn:Hlen; [ | discriminate].
  apply pair_equal_spec in Hcheck as [_ <-].
  unfold secureRandom in Hiv. apply pair_equal_spec in Hiv as [Hnonce <-].
  destruct (BlobFacts.getEncryptionKey_stored _ _ _ Hkey)
    as (encoded & Hlook & Hdec & _).
  exists encoded, k, nonce. cbn [prefs iv data].
  repeat split; try assumption.
  injection Hnonce as <-.
  first [now rewrite length_map, length_seq | reflexivity].
Qed.


End WithPrimitives.

End ImportFacts.

(** ** The import theorems on the sample phrase *)

Lemma import_same_phrase_same_identity_witness :
  CryptoManager.cleanMnemonic Samples.phrase
    = CryptoManager.cleanMnemonic Samples.phrase_retyped
  /\ Samples.imported_address = Samples.reimported_address
  /\ CryptoManager.prefs Samples.imported_world !! CryptoManager.KEY_PRIVATE_KEY
     = CryptoManager.prefs Samples.reimported_world !! CryptoManager.KEY_PRIVATE_KEY.
Proof.
  assert (Hc : CryptoManager.cleanMnemonic Samples.phrase
               = CryptoManager.cleanMnemonic Samples.phrase_retyped)
    by (vm_compute; reflexivity).
  assert (H1 : CryptoManager.importWalletFromMnemonic (P := Samples.primitives)
                 Samples.phrase Samples.sealed_world
               = (CryptoManager.Ok Samples.imported_address, Samples.imported_world))
    by (vm_compute; reflexivity).
  assert (H2 : CryptoManager.importWalletFromMnemonic (P := Samples.primitives)
                 Samples.phrase_retyped Samples.other_world
               = (CryptoManager.Ok Samples.reimported_address, Samples.reimported_world))
    by (vm_compute; reflexivity).
  destruct (ImportFacts.import_same_phrase_same_identity _ _ _ _ _ _ _ _ Hc H1 H2)
    as (Ha & _ & _ & _ & Hp & _).
  split; [exact Hc | ]. split; [exact Ha | exact Hp].
Defined.



(** ** AptosClient: reading the chain *)

Module ReaderFacts.
Import AptosClient.

Lemma hex_value_range (c : ascii) (d : Z) : hex_value c = Some d -> 0 <= d < 16.
Proof.
  unfold hex_value, of_hex_digit. cbv zeta.
  generalize (Z.of_N (N_of_ascii c)). intros n.
  destruct ((48 <=? n) && (n <=? 57)) eqn:E1;
    [intros H; injection H as H; lia | ].
  destruct ((97 <=? n) && (n <=? 102)) eqn:E2;
    [intros H; injection H as H; lia | ].
  destruct ((65 <=? n) && (n <=? 70)) eqn:E3;
    [intros H; injection H as H; lia | discriminate].
Qed.

Lemma toInt16_digits (a b : ascii) (h l : Z) :
  hex_value a = Some h -> hex_value b = Some l -> toInt16 a b = Some (16 * h + l).
Proof.
  intros Ha Hb. unfold toInt16.
  destruct (Ascii.eqb_spec a "-") as [-> | _]; [discriminate Ha | ].
  destruct (Ascii.eqb_spec a "+") as [-> | _]; [discriminate Ha | ].
  now rewrite Ha, Hb.
Qed.

Lemma toChar_small (v : Z) : 0 <= v < 65536 -> toChar v = Z.to_N v.
Proof. intros H. unfold toChar. now rewrite Z.mod_small. Qed.

(** On an even number of hex digits the loop yields one code unit per pair,
    the unit being the byte the pair spells. *)
Lemma decode_pairs_hex_bytes (s : string) :
  (forall bs, hex_bytes s = Some bs -> decode_pairs s = Some (map Z.to_N bs))
  /\ (forall c bs, hex_bytes (String c s) = Some bs ->
                   decode_pairs (String c s) = Some (map Z.to_N bs)).
Proof.
  induction s as [ | b s [IH0 IH1]].
  - split; [intros bs [= <-]; reflexivity | intros c bs H; discriminate H].
  - split; [apply IH1 | ].
    intros a bs H. cbn [hex_bytes] in H. cbn [decode_pairs].
    destruct (hex_value a) as [h | ] eqn:Ha; [ | discriminate].
    destruct (hex_value b) as [l | ] eqn:Hb; [ | discriminate].
    destruct (hex_bytes s) as [rest | ] eqn:Hs; [ | discriminate].
    injection H as <-.
    rewrite (toInt16_digits _ _ _ _ Ha Hb), (IH0 _ eq_refl).
    apply hex_value_range in Ha, Hb.
    rewrite toChar_small by lia. reflexivity.
Qed.

Lemma hex_bytes_range (s : string) :
  (forall bs, hex_bytes s = Some bs -> Forall (fun b => 0 <= b < 256) bs)
  /\ (forall c bs, hex_bytes (String c s) = Some bs ->
                   Forall (fun b => 0 <= b < 256) bs).
Proof.
  induction s as [ | b s [IH0 IH1]].
  - split; [intros bs [= <-]; constructor | intros c bs H; discriminate H].
  - split; [apply IH1 | ].
    intros a bs H. cbn [hex_bytes] in H.
    destruct (hex_value a) as [h | ] eqn:Ha; [ | discriminate].
    destruct (hex_value b) as [l | ] eqn:Hb; [ | discriminate].
    destruct (hex_bytes s) as [rest | ] eqn:Hs; [ | discriminate].
    injection H as <-. apply hex_value_range in Ha, Hb.
    constructor; [lia | now apply IH0].
Qed.

(** UTF-8 reads bytes below 128 as the characters of the same number. *)
Lemma utf8_decode_fuel_ascii (bs : list Z) (fuel : nat) :
  (length bs <= fuel)%nat ->
  forallb (fun b => b <? 128) bs = true ->
  Forall (fun b => 0 <= b < 256) bs ->
  utf8_decode_fuel fuel bs = map Z.to_N bs.
Proof.
  revert fuel. induction bs as [ | b bs IH]; intros fuel Hlen Hsmall Hrange.
  - destruct fuel; reflexivity.
  - destruct fuel as [ | fuel]; [simpl in Hlen; lia | ].
    cbn [forallb] in Hsmall. apply andb_true_iff in Hsmall as [Hb Hrest].
    cbn [utf8_decode_fuel]. rewrite Hb. cbn [map]. f_equal.
    apply IH; [simpl in Hlen; lia | exact Hrest | now inversion Hrange].
Qed.

Lemma utf16_of_code_point_length (cp : Z) :
  (length (utf16_of_code_point cp) <= 2)%nat.
Proof. unfold utf16_of_code_point. destruct (cp <? 65536); cbn; lia. Qed.

(** The UTF-8 reading never has more units than there are bytes. *)
Lemma utf8_decode_fuel_length (fuel : nat) (bs : list Z) :
  (length (utf8_decode_fuel fuel bs) <= length bs)%nat.
Proof.
  revert bs. induction fuel as [ | fuel IH]; intros bs; [cbn; lia | ].
  cbn [utf8_decode_fuel].
  repeat match goal with
         | |- context [match ?l with [] => _ | _ :: _ => _ end] =>
             is_var l; destruct l
         | |- context [if ?c then _ else _] => destruct c
         end;
    rewrite ?length_app; cbn [length];
    repeat match goal with
           | |- context [utf16_of_code_point ?cp] =>
               pose proof (utf16_of_code_point_length cp);
               generalize dependent (utf16_of_code_point cp); intros
           | |- context [utf8_decode_fuel fuel ?r] =>
               pose proof (IH r);
               generalize dependent (utf8_decode_fuel fuel r); intros
           end;
    cbn [length] in *; lia.
Qed.

(** A byte from 128 on makes the UTF-8 reading differ from the reading one
    character per byte: a sequence of several bytes gives fewer units than
    bytes, and a byte that starts no sequence gives U+FFFD. *)
Lemma utf8_decode_fuel_only_ascii (fuel : nat) (bs : list Z) :
  Forall (fun b => 0 <= b < 256) bs ->
  utf8_decode_fuel fuel bs = map Z.to_N bs ->
  forallb (fun b => b <? 128) bs = true.
Proof.
  revert bs. induction fuel as [ | fuel IH]; intros bs Hrange H.
  - destruct bs; [reflexivity | discriminate H].
  - destruct bs as [ | b0 r0]; [reflexivity | ].
    apply Forall_cons_iff in Hrange as [H0 Hr0].
    cbn [utf8_decode_fuel] in H. cbn [forallb].
    destruct (b0 <? 128) eqn:E0.
    + cbn [map] in H. injection H as H. cbn [andb]. now apply IH.
    + exfalso.
      assert (Hbad : forall rest : list N, 65533%N :: rest <> map Z.to_N (b0 :: r0)).
      { intros rest Heq. cbn [map] in Heq. injection Heq as Heq _. lia. }
      destruct r0 as [ | b1 r1]; [now apply (Hbad []) | ].
      destruct ((192 <=? b0) && (b0 <? 224) && continuation b1) eqn:E2.
      { apply andb_true_iff in E2 as [E2 C1]. apply andb_true_iff in E2 as [Ea Eb].
        unfold continuation in C1. apply andb_true_iff in C1 as [C1a C1b].
        unfold utf16_of_code_point in H.
        replace ((b0 - 192) * 64 + (b1 - 128) <? 65536) with true in H
          by (symmetry; apply Z.ltb_lt; lia).
        apply (f_equal (@length N)) in H. cbn [app length map] in H.
        rewrite length_map in H.
        pose proof (utf8_decode_fuel_length fuel r1). lia. }
      destruct r1 as [ | b2 r2]; [now apply (Hbad _ H) | ].
      destruct ((224 <=? b0) && (b0 <? 240) && continuation b1 && continuation b2).
      { apply (f_equal (@length N)) in H. rewrite length_app in H.
        cbn [length map] in H. rewrite length_map in H.
        pose proof (utf16_of_code_point_length
                      ((b0 - 224) * 4096 + (b1 - 128) * 64 + (b2 - 128))).
        pose proof (utf8_decode_fuel_length fuel r2). lia. }
      destruct r2 as [ | b3 r3]; [now apply (Hbad _ H) | ].
      destruct ((240 <=? b0) && (b0 <? 248) && continuation b1 && continuation b2
                && continuation b3); [ | now apply (Hbad _ H)].
      apply (f_equal (@length N)) in H. rewrite length_app in H.
      cbn [length map] in H. rewrite length_map in H.
      pose proof (utf16_of_code_point_length
                    ((b0 - 240) * 262144 + (b1 - 128) * 4096
                     + (b2 - 128) * 64 + (b3 - 128))).
      pose proof (utf8_decode_fuel_length fuel r3). lia.
Qed.

Lemma cleanField_plain (raw : string) :
  Kotlin.startsWith "0x" raw = false -> cleanField raw = Some (units raw).
Proof. intros H. unfold cleanField. now rewrite H. Qed.

Lemma cleanField_hex (raw : string) (bs : list Z) :
  Kotlin.startsWith "0x" raw = true ->
  hex_bytes (String.substring 2 (String.length raw - 2) raw) = Some bs ->
  cleanField raw = Some (map Z.to_N bs).
Proof.
  intros Hpre Hhex. unfold cleanField, convertHexToString. rewrite Hpre.
  now apply decode_pairs_hex_bytes.
Qed.

(** C4: the decoding is not the UTF-8 reading the claim states.  The two
    bytes C3 A9 are the UTF-8 form of the one character U+00E9; on the
    field "0xc3a9" the code returns the two characters U+00C3 and U+00A9,
    although the helper is meant to give back the readable string. *)
Lemma cleanField_is_not_utf8 :
  cleanField "0xc3a9" = Some [195%N; 169%N]
  /\ spec_decode_field "0xc3a9" = Some [233%N]
  /\ cleanField "0xc3a9" <> spec_decode_field "0xc3a9".
Proof. split; [reflexivity | split; [reflexivity | discriminate]]. Qed.

Section WithLibrary.
Variable valueOf : json -> string.
Variable currentTimeMillis : nat -> Z.

(** Where the decoding of a field meets the UTF-8 reading.  A field that
    does not start with "0x" is passed through unchanged.  A field that is
    "0x" and then an even number of hex digits is read two digits at a
    time, each pair giving one byte and each byte one character; the
    result is the UTF-8 reading of the bytes exactly when every byte is
    below 0x80, as in "0x74657374" and "0x48656c6c6f".  The title and the
    hash of every decoded record are obtained this way. *)
Theorem cleanField_is_utf8_exactly_on_ascii (raw : string) :
  (Kotlin.startsWith "0x" raw = false -> cleanField raw = Some (units raw))
  /\ (forall bs,
        Kotlin.startsWith "0x" raw = true ->
        hex_bytes (String.substring 2 (String.length raw - 2) raw) = Some bs ->
        cleanField raw = Some (map Z.to_N bs)
        /\ (cleanField raw = spec_decode_field raw
            <-> forallb (fun b => b <? 128) bs = true))
  /\ cleanField "0x74657374" = Some (units "test")
  /\ cleanField "0x48656c6c6f" = Some (units "Hello")
  /\ (forall memoriesArray i item,
        decode_memory valueOf currentTimeMillis memoriesArray i = Some item ->
        exists mem,
          getJSONObject i memoriesArray = Some mem
          /\ cleanField (optString valueOf "title" "Secured Memory" mem)
             = Some (title item)
          /\ cleanField (optString valueOf "ipfs_hash" EmptyString mem)
             = Some (ipfsHash item)).
Proof.
  split; [apply cleanField_plain | ].
  split.
  { intros bs Hpre Hhex. split; [now apply cleanField_hex | ].
    rewrite (cleanField_hex _ _ Hpre Hhex).
    unfold spec_decode_field. rewrite Hpre, Hhex.
    pose proof (proj1 (hex_bytes_range _) _ Hhex) as Hrange.
    split.
    - intros Heq. apply (utf8_decode_fuel_only_ascii (length bs) bs Hrange).
      symmetry.
      exact (f_equal (fun o => match o with Some t => t | None => [] end) Heq).
    - intros Hsmall. f_equal. symmetry.
      apply utf8_decode_fuel_ascii; [lia | exact Hsmall | exact Hrange]. }
  split; [reflexivity | ]. split; [reflexivity | ].
  intros memoriesArray i item H. unfold decode_memory in H.
  destruct (getJSONObject i memoriesArray) as [mem | ]; [ | discriminate].
  destruct (cleanField (optString valueOf "title" "Secured Memory" mem))
    as [t | ] eqn:Ht; [ | discriminate].
  destruct (cleanField (optString valueOf "ipfs_hash" EmptyString mem))
    as [h | ] eqn:Hh; [ | discriminate].
  injection H as <-. exists mem. now repeat split.
Qed.

(** C8: when the node answers without success, or answers with a document
    that has no "data" object or whose "data" has no "coin" object, the
    balance is 0, and no exception is raised on the way. *)
Theorem getBalance_zero_without_coin_store (r : response) :
  isSuccessful r = false
  \/ (exists json,
        parseObject (responseBody r) = Some json
        /\ (optJSONObject "data" json = None
            \/ exists data,
                 optJSONObject "data" json = Some data
                 /\ optJSONObject "coin" data = None)) ->
  getBalance_try valueOf (Answer r) = Some 0
  /\ getBalance valueOf (Answer r) = 0.
Proof.
  intros H.
  assert (Htry : getBalance_try valueOf (Answer r) = Some 0).
  { unfold getBalance_try.
    destruct (isSuccessful r); cbn [negb]; [ | reflexivity].
    destruct H as [H | (json & Hparse & H)]; [discriminate | ].
    rewrite Hparse.
    destruct H as [Hdata | (data & Hdata & Hcoin)]; rewrite Hdata;
      [reflexivity | now rewrite Hcoin]. }
  split; [exact Htry | ]. unfold getBalance. now rewrite Htry.
Qed.

(** C9: an empty outer array, a first element that is not an array, and an
    empty inner array each give the empty list, reached without an
    exception; so does the view result [[]]. *)
Theorem fetchUserMemories_empty_results (r : response) :
  (responseBody r = Document (JArray [])
   \/ (exists first rest,
         responseBody r = Document (JArray (first :: rest))
         /\ forall inner, first <> JArray inner)
   \/ (exists rest, responseBody r = Document (JArray (JArray [] :: rest)))) ->
  fetchUserMemories_try valueOf currentTimeMillis (Answer r) = Some []
  /\ fetchUserMemories valueOf currentTimeMillis (Answer r) = [].
Proof.
  intros H.
  assert (Htry : fetchUserMemories_try valueOf currentTimeMillis (Answer r) = Some []).
  { unfold fetchUserMemories_try.
    destruct (isSuccessful r); cbn [negb]; [ | reflexivity].
    destruct H as [Hbody | [(first & rest & Hbody & Hnot) | (rest & Hbody)]];
      rewrite Hbody; cbn [parseArray length Nat.eqb].
    - reflexivity.
    - unfold optJSONArray. cbn [nth_error].
      destruct first; try reflexivity. now destruct (Hnot items).
    - reflexivity. }
  split; [exact Htry | ]. unfold fetchUserMemories. now rewrite Htry.
Qed.

End WithLibrary.

End ReaderFacts.

Lemma cleanField_is_utf8_exactly_on_ascii_witness :
  Kotlin.startsWith "0x" "0x48656c6c6f" = true
  /\ AptosClient.hex_bytes "48656c6c6f" = Some [72; 101; 108; 108; 111]
  /\ AptosClient.cleanField "0x48656c6c6f" = Some [72%N; 101%N; 108%N; 108%N; 111%N]
  /\ AptosClient.cleanField "0x48656c6c6f" = AptosClient.spec_decode_field "0x48656c6c6f".
Proof.
  destruct (ReaderFacts.cleanField_is_utf8_exactly_on_ascii
              Samples.valueOf Samples.clock "0x48656c6c6f")
    as (_ & Hhex & _).
  destruct (Hhex [72; 101; 108; 108; 111] eq_refl eq_refl) as [Hunits Hutf8].
  split; [reflexivity | ]. split; [reflexivity | ].
  split; [exact Hunits | exact (proj2 Hutf8 eq_refl)].
Defined.

Lemma getBalance_zero_without_coin_store_witness :
  AptosClient.isSuccessful Samples.not_found = false
  /\ AptosClient.getBalance Samples.valueOf (AptosClient.Answer Samples.not_found) = 0.
Proof.
  split; [reflexivity | ].
  apply (ReaderFacts.getBalance_zero_without_coin_store Samples.valueOf Samples.not_found).
  left. reflexivity.
Defined.

Lemma fetchUserMemories_empty_results_witness :
  AptosClient.responseBody Samples.no_memories
    = AptosClient.Document (AptosClient.JArray [AptosClient.JArray []])
  /\ AptosClient.fetchUserMemories Samples.valueOf Samples.clock
       (AptosClient.Answer Samples.no_memories) = [].
Proof.
  split; [reflexivity | ].
  apply (ReaderFacts.fetchUserMemories_empty_results
           Samples.valueOf Samples.clock Samples.no_memories).
  right. right. exists []. reflexivity.
Defined.

(** ** WalletContext: the challenge message *)

Module ChallengeFacts.
Import WalletContext.

Lemma string_app_nil_r (a : string) : a +:+ EmptyString = a.
Proof.
  induction a as [ | x a IH]; [reflexivity | ].
  change (String x (a +:+ EmptyString) = String x a). now rewrite IH.
Qed.

Lemma string_app_assoc (a b c : string) : (a +:+ b) +:+ c = a +:+ (b +:+ c).
Proof.
  induction a as [ | x a IH]; [reflexivity | ].
  change (String x ((a +:+ b) +:+ c) = String x (a +:+ (b +:+ c))). now rewrite IH.
Qed.

(** C7: for every address and every value of the clock the message is the
    fixed template with "LifeVault" as the application name, the address as
    given and the timestamp in decimal, and nothing else: the text before
    the address, between address and timestamp, and after the timestamp are
    the same bytes in every message. *)
Theorem generateAuthMessage_is_the_template (now : Z) (address : string) :
  generateAuthMessage now address
    = instantiate "LifeVault" address (number_to_string now) challenge_template
  /\ generateAuthMessage now address
    = ("Sign this message to authenticate with LifeVault." +:+ newline +:+ newline
       +:+ "Wallet: ") +:+ address
      +:+ (newline +:+ "Timestamp: ") +:+ number_to_string now
      +:+ (newline +:+ newline +:+
           "This signature will not trigger any blockchain transaction or cost any gas fees.")
  /\ String.length (generateAuthMessage now address)
    = (153 + String.length address + String.length (number_to_string now))%nat.
Proof.
  assert (H : generateAuthMessage now address
    = ("Sign this message to authenticate with LifeVault." +:+ newline +:+ newline
       +:+ "Wallet: ") +:+ address
      +:+ (newline +:+ "Timestamp: ") +:+ number_to_string now
      +:+ (newline +:+ newline +:+
           "This signature will not trigger any blockchain transaction or cost any gas fees.")).
  { reflexivity. }
  split; [ | split; [exact H | ]].
  - rewrite H. unfold instantiate, challenge_template.
    reflexivity.
  - rewrite H. rewrite !string_length_app. cbn [String.length newline String.append].
    lia.
Qed.

Example generateAuthMessage_sample :
  generateAuthMessage 1700000000000 "0xabc" =
  ("Sign this message to authenticate with LifeVault." +:+ newline +:+ newline +:+
   "Wallet: 0xabc" +:+ newline +:+
   "Timestamp: 1700000000000" +:+ newline +:+ newline +:+
   "This signature will not trigger any blockchain transaction or cost any gas fees.")%string.
Proof. vm_compute. reflexivity. Qed.

End ChallengeFacts.

(** ** CryptoManager: the wallet life cycle *)

Module WalletFacts.
Import CryptoManager Wallet.

Lemma encode_nonempty (bs : list byte) : bs <> [] -> Base64.encode bs <> EmptyString.
Proof.
  destruct bs as [ | a [ | b [ | c rest]]]; [contradiction | | | ];
    intros _; discriminate.
Qed.

Lemma copyOf_length (n : nat) (bs : list byte) : length (Kotlin.copyOf n bs) = n.
Proof.
  unfold Kotlin.copyOf. rewrite length_app, length_take, repeat_length. lia.
Qed.

Lemma getBytes_stored (key : string) (bs : list byte) (w : world) :
  prefs w !! key = Some (Base64.encode bs) ->
  getBytes key w = (Ok (Some bs), w).
Proof.
  intros H. unfold getBytes, bind, getString. rewrite H.
  unfold base64_decode. now rewrite Base64Facts.decode_encode.
Qed.

Lemma getBytes_missing (key : string) (w : world) :
  prefs w !! key = None -> getBytes key w = (Ok None, w).
Proof. intros H. unfold getBytes, bind, getString. now rewrite H. Qed.

Section WithLibrary.
Context {P : Primitives}.
Variable ed25519_sign : list byte -> list byte -> list byte.
Variable mnemonic_of_entropy : list byte -> string.

(** After a successful import the getters give back what was imported: the
    wallet exists, the address is the one the import returned and is the
    address of the stored public key, the stored private key is the 32-byte
    seed prefix, and the phrase is the normalized one. *)
Theorem import_then_getters
    (rawMnemonic : string) (w w' : world) (addr : string) :
  importWalletFromMnemonic rawMnemonic w = (Ok addr, w') ->
  exists privateKey publicKey,
    hasWallet w' = (Ok true, w')
    /\ getAddress w' = (Ok (Some addr), w')
    /\ getMnemonic w' = (Ok (Some (cleanMnemonic rawMnemonic)), w')
    /\ getPrivateKeyBytes w' = (Ok (Some privateKey), w')
    /\ getPublicKeyBytes w' = (Ok (Some publicKey), w')
    /\ length privateKey = 32%nat
    /\ privateKey = Kotlin.copyOf 32 (bip39_seed (cleanMnemonic rawMnemonic))
    /\ publicKey = ed25519_public privateKey
    /\ addr = deriveAptosAddress publicKey.
Proof.
  intros H. apply ImportFacts.import_ok_inv in H as (_ & -> & ->).
  destruct (ImportFacts.imported_lookups (cleanMnemonic rawMnemonic) w)
    as (Hpriv & Hpub & Haddr & Hmn & _).
  set (clean := cleanMnemonic rawMnemonic) in *.
  exists (Kotlin.copyOf 32 (bip39_seed clean)),
         (ed25519_public (Kotlin.copyOf 32 (bip39_seed clean))).
  cbn [generateKeyPairFromSeed public private] in *.
  split.
  { unfold hasWallet, bind, getString. rewrite Hpriv. unfold ret. do 2 f_equal.
    destruct (Base64.encode (Kotlin.copyOf 32 (bip39_seed clean))) eqn:E;
      [ | reflexivity].
    exfalso. apply (encode_nonempty (Kotlin.copyOf 32 (bip39_seed clean))); [ | exact E].
    intros Hnil. apply (f_equal (@length byte)) in Hnil.
    rewrite copyOf_length in Hnil. discriminate. }
  split; [unfold getAddress, getString; now rewrite Haddr | ].
  split; [unfold getMnemonic, getString; now rewrite Hmn | ].
  split; [now apply getBytes_stored | ].
  split; [now apply getBytes_stored | ].
  split; [apply copyOf_length | ].
  repeat split.
Qed.

(** After [logout] nothing of the wallet is left: no wallet, no address, no
    phrase, no keys, and signing fails with the no-wallet error without
    creating anything. *)
Theorem logout_wipes_wallet (w : world) (message : list byte) :
  let w' := (logout w).2 in
  hasWallet w' = (Ok false, w')
  /\ getAddress w' = (Ok None, w')
  /\ getMnemonic w' = (Ok None, w')
  /\ getPrivateKeyBytes w' = (Ok None, w')
  /\ getPublicKeyBytes w' = (Ok None, w')
  /\ signMessage ed25519_sign message w' = (Thrown NoWallet, w')
  /\ prefs w' = ∅.
Proof.
  intros w'. subst w'. cbn [logout snd].
  assert (Hnone : forall k, prefs (World ∅ (entropy w)) !! k = None)
    by (intros k; apply lookup_empty).
  split; [unfold hasWallet, bind, getString; now rewrite Hnone | ].
  split; [unfold getAddress, getString; now rewrite Hnone | ].
  split; [unfold getMnemonic, getString; now rewrite Hnone | ].
  split; [now apply getBytes_missing | ].
  split; [now apply getBytes_missing | ].
  split; [ | reflexivity].
  unfold signMessage, getPrivateKeyBytes. now rewrite getBytes_missing.
Qed.

(** Signing never touches the store; with the imported wallet it signs
    under the imported private key, and without a private key entry it
    throws the no-wallet error. *)
Theorem signMessage_uses_stored_key (message : list byte) (w : world) :
  (signMessage ed25519_sign message w).2 = w
  /\ (prefs w !! KEY_PRIVATE_KEY = None ->
      signMessage ed25519_sign message w = (Thrown NoWallet, w))
  /\ (forall rawMnemonic w0 addr,
        importWalletFromMnemonic rawMnemonic w0 = (Ok addr, w) ->
        signMessage ed25519_sign message w =
        (Signed (ed25519_sign
                   (Kotlin.copyOf 32 (bip39_seed (cleanMnemonic rawMnemonic)))
                   message), w)).
Proof.
  split.
  { unfold signMessage, getPrivateKeyBytes, getBytes, bind, getString.
    destruct (prefs w !! KEY_PRIVATE_KEY) as [encoded | ]; [ | reflexivity].
    unfold base64_decode. destruct (Base64.decode encoded) as [bs | ]; [ | reflexivity].
    unfold ret. destruct (length bs <? 32)%nat; reflexivity. }
  split.
  { intros H. unfold signMessage, getPrivateKeyBytes. now rewrite getBytes_missing. }
  intros rawMnemonic w0 addr H.
  apply ImportFacts.import_ok_inv in H as (_ & _ & ->).
  destruct (ImportFacts.imported_lookups (cleanMnemonic rawMnemonic) w0)
    as (Hpriv & _).
  cbn [generateKeyPairFromSeed private] in Hpriv.
  unfold signMessage, getPrivateKeyBytes.
  rewrite (getBytes_stored _ _ _ Hpriv), copyOf_length. cbn [Nat.ltb Nat.leb].
  do 3 f_equal. apply firstn_all2. now rewrite copyOf_length.
Qed.

Lemma processAndStoreWallet_ok_inv (m : string) (w w' : world) (d : WalletData) :
  processAndStoreWallet m w = (Ok d, w') ->
  accepted m = true
  /\ d = {| address := deriveAptosAddress
                         (public (generateKeyPairFromSeed (bip39_seed m)));
            mnemonic := m;
            publicKey := public (generateKeyPairFromSeed (bip39_seed m)) |}
  /\ prefs w' !! KEY_PRIVATE_KEY
     = Some (Base64.encode (private (generateKeyPairFromSeed (bip39_seed m))))
  /\ prefs w' !! KEY_PUBLIC_KEY
     = Some (Base64.encode (public (generateKeyPairFromSeed (bip39_seed m))))
  /\ prefs w' !! KEY_ADDRESS
     = Some (deriveAptosAddress (public (generateKeyPairFromSeed (bip39_seed m))))
  /\ prefs w' !! KEY_MNEMONIC = Some m.
Proof.
  unfold processAndStoreWallet, accepted, word_count.
  destruct (length (Kotlin.split " " m) =? 12)%nat eqn:H12;
    destruct (length (Kotlin.split " " m) =? 24)%nat eqn:H24;
    cbn [negb andb orb]; try discriminate;
    unfold bind, toSeed;
    (destruct (bip39_validate m); [ | discriminate]);
    intros H; apply pair_equal_spec in H as [Hd <-];
    (split; [reflexivity | ]);
    (split; [exact (f_equal (fun r => match r with Ok x => x | Err _ => d end)
                      (eq_sym Hd)) | ]);
    destruct (ImportFacts.imported_lookups m w) as (Hp & Hq & Ha & Hm & _);
    repeat split; assumption.
Qed.

(** Backup and recovery: the phrase a new wallet was created with, when it
    is already in normalized form, imports on any store to the same address
    and the same key pair. *)
Theorem create_then_import_restores_wallet
    (w w1 w2 : world) (d : WalletData) :
  createNewWallet mnemonic_of_entropy w = (Ok d, w1) ->
  cleanMnemonic (mnemonic d) = mnemonic d ->
  exists w2',
    importWalletFromMnemonic (mnemonic d) w2 = (Ok (address d), w2')
    /\ prefs w2' !! KEY_ADDRESS = prefs w1 !! KEY_ADDRESS
    /\ prefs w2' !! KEY_PRIVATE_KEY = prefs w1 !! KEY_PRIVATE_KEY
    /\ prefs w2' !! KEY_PUBLIC_KEY = prefs w1 !! KEY_PUBLIC_KEY
    /\ prefs w2' !! KEY_MNEMONIC = prefs w1 !! KEY_MNEMONIC
    /\ prefs w1 !! KEY_ADDRESS = Some (address d)
    /\ address d = deriveAptosAddress (publicKey d).
Proof.
  unfold createNewWallet, try_catch. intros H Hclean.
  destruct (bind _ _ w) as [[d' | e] w1'] eqn:Hrun; [ | discriminate].
  apply pair_equal_spec in H as [Hd <-].
  assert (d' = d) as -> by exact (f_equal (fun r => match r with Ok x => x | Err _ => d end) Hd).
  apply BlobFacts.bind_inv in Hrun as (bits & w0 & _ & Hstore).
  apply processAndStoreWallet_ok_inv in Hstore
    as (Hacc & -> & Hpriv & Hpub & Haddr & Hmn).
  cbn [mnemonic address publicKey] in *.
  set (m := mnemonic_of_entropy bits) in *.
  assert (Hacc' : accepted (cleanMnemonic m) = true) by now rewrite Hclean.
  pose proof (ImportFacts.import_accepted m w2 Hacc') as Himp.
  destruct (ImportFacts.imported_lookups (cleanMnemonic m) w2)
    as (Hpriv2 & Hpub2 & Haddr2 & Hmn2 & _).
  rewrite Hclean in Himp, Hpriv2, Hpub2, Haddr2, Hmn2.
  eexists. split; [exact Himp | ].
  rewrite Hpriv, Hpub, Haddr, Hmn, Hpriv2, Hpub2, Haddr2, Hmn2.
  repeat split.
Qed.

End WithLibrary.

End WalletFacts.

(** ** CryptoManager: what decryption accepts and refuses *)

Module TamperFacts.
Import CryptoManager.

Lemma open_inv (k ivb input plain : list byte) :
  Gcm.open k ivb input = Some plain ->
  (16 <= length input)%nat
  /\ Gcm.tag k (Gcm.j0 k ivb) (firstn (length input - 16) input)
     = skipn (length input - 16) input
  /\ plain = xor_bytes (firstn (length input - 16) input)
               (Gcm.keystream k (Gcm.j0 k ivb) (length input - 16))
  /\ length plain = (length input - 16)%nat.
Proof.
  unfold Gcm.open.
  destruct (length input <? 16)%nat eqn:Hlen; [discriminate | ].
  apply Nat.ltb_ge in Hlen.
  destruct (bytes_eqb _ _) eqn:Htag; [ | discriminate].
  intros H. apply GcmFacts.bytes_eqb_eq in Htag.
  split; [exact Hlen | ]. split; [exact Htag | ].
  assert (Hp : plain = xor_bytes (firstn (length input - 16) input)
               (Gcm.keystream k (Gcm.j0 k ivb) (length input - 16)))
    by exact (f_equal (fun o => match o with Some t => t | None => plain end)
                (eq_sym H)).
  split; [exact Hp | ].
  rewrite Hp, GcmFacts.xor_bytes_length;
    rewrite ?GcmFacts.keystream_length, length_take; lia.
Qed.

(** A wrong tag is refused whatever the key, IV and ciphertext. *)
Lemma open_wrong_tag (k ivb ct tag' : list byte) :
  length tag' = 16%nat ->
  tag' <> Gcm.tag k (Gcm.j0 k ivb) ct ->
  Gcm.open k ivb (ct ++ tag') = None.
Proof.
  intros Hlen Hne. unfold Gcm.open. rewrite length_app, Hlen.
  destruct (length ct + 16 <? 16)%nat eqn:E; [reflexivity | ].
  replace (length ct + 16 - 16)%nat with (length ct) by lia.
  rewrite take_app_length, drop_app_length.
  destruct (bytes_eqb _ tag') eqn:Heq; [ | reflexivity].
  apply GcmFacts.bytes_eqb_eq in Heq. congruence.
Qed.

Lemma open_too_short (k ivb input : list byte) :
  (length input < 16)%nat -> Gcm.open k ivb input = None.
Proof.
  intros H. unfold Gcm.open. apply Nat.ltb_lt in H. now rewrite H.
Qed.

(** [decryptData] hands out plaintext only when the last 16 bytes of the
    decoded data are the GCM tag of the bytes before them, under the key in
    the store and the decoded IV; the plaintext is then 16 bytes shorter
    than the data. *)
Theorem decryptData_only_authenticated
    (blob : EncryptedData) (w w' : world) (plain : list byte) :
  decryptData blob w = (Ok plain, w') ->
  exists encoded k ivb input,
    prefs w' !! KEY_ENCRYPTION_KEY = Some encoded
    /\ Base64.decode encoded = Some k
    /\ Base64.decode (iv blob) = Some ivb
    /\ Base64.decode (data blob) = Some input
    /\ (16 <= length input)%nat
    /\ Gcm.tag k (Gcm.j0 k ivb) (firstn (length input - 16) input)
       = skipn (length input - 16) input
    /\ length plain = (length input - 16)%nat.
Proof.
  unfold decryptData. intros H.
  apply BlobFacts.bind_inv in H as (k & w1 & Hkey & H).
  apply BlobFacts.bind_inv in H as (ivb & w2 & Hiv & H).
  apply BlobFacts.bind_inv in H as (input & w3 & Hdata & H).
  apply BlobFacts.bind_inv in H as ([] & w4 & Hcheck & H).
  apply BlobFacts.bind_inv in H as ([] & w5 & Hnonempty & H).
  unfold base64_decode in Hiv, Hdata.
  destruct (Base64.decode (iv blob)) as [ivb' | ] eqn:Eiv; [ | discriminate].
  destruct (Base64.decode (data blob)) as [input' | ] eqn:Edata; [ | discriminate].
  apply pair_equal_spec in Hiv as [Hivb <-].
  apply pair_equal_spec in Hdata as [Hinput <-].
  assert (ivb' = ivb) as ->
    by exact (f_equal (fun r => match r with Ok t => t | Err _ => ivb end) Hivb).
  assert (input' = input) as ->
    by exact (f_equal (fun r => match r with Ok t => t | Err _ => input end) Hinput).
  unfold check_key in Hcheck.
  destruct (Aes.valid_key_length (length k)); [ | discriminate].
  apply pair_equal_spec in Hcheck as [_ <-].
  assert (w5 = w1) as ->
    by (destruct ivb; [discriminate | now apply pair_equal_spec in Hnonempty]).
  destruct (Gcm.open k ivb input) as [p | ] eqn:Hopen; [ | discriminate].
  apply pair_equal_spec in H as [Hp <-].
  assert (p = plain) as ->
    by exact (f_equal (fun r => match r with Ok t => t | Err _ => plain end) Hp).
  destruct (BlobFacts.getEncryptionKey_stored _ _ _ Hkey) as (encoded & Hlook & Hdec & _).
  apply open_inv in Hopen as (Hlen & Htag & _ & Hplen).
  exists encoded, k, ivb, input. repeat split; assumption.
Qed.

(** Tampering with the tag: when the last 16 bytes of a blob's data are
    replaced by any other 16 bytes, or the data is cut below 16 bytes,
    [decryptData] fails with the authentication error and the store stays
    as it is. *)
Theorem decryptData_rejects_changed_tag
    (x : list byte) (w w' : world) (blob : EncryptedData)
    (sealed tag' : list byte) :
  encryptData x w = (Ok blob, w') ->
  Base64.decode (data blob) = Some sealed ->
  (length tag' = 16%nat /\ tag' <> skipn (length x) sealed
   \/ (length tag' < 16)%nat /\ x = []) ->
  decryptData
    {| iv := iv blob; data := Base64.encode (firstn (length x) sealed ++ tag') |} w'
  = (Err AuthenticationFailure, w').
Proof.
  intros Henc Hsealed Htag'.
  destruct (ImportFacts.encryptData_blob _ _ _ _ Henc)
    as (encoded & k & nonce & Hlook & Hdec & Hlen & Hnonce & Hiv & Hdata).
  rewrite Hdata, Base64Facts.decode_encode in Hsealed.
  assert (Hs : Gcm.seal k nonce x = sealed)
    by exact (f_equal (fun o => match o with Some t => t | None => sealed end) Hsealed).
  assert (Hne : nonce <> []) by (intros E; rewrite E in Hnonce; discriminate).
  rewrite (ImportFacts.decryptData_with_key w' encoded k _ nonce
             (firstn (length x) sealed ++ tag') Hlook Hdec Hlen);
    [ | cbn [iv]; rewrite Hiv; apply Base64Facts.decode_encode
      | cbn [data]; apply Base64Facts.decode_encode
      | exact Hne].
  assert (Hct : length (xor_bytes x (Gcm.keystream k (Gcm.j0 k nonce) (length x)))
                = length x)
    by (apply GcmFacts.xor_bytes_length; now rewrite GcmFacts.keystream_length).
  set (ct := xor_bytes x (Gcm.keystream k (Gcm.j0 k nonce) (length x))) in *.
  assert (Htake : firstn (length x) sealed = ct)
    by (rewrite <- Hs; unfold Gcm.seal; fold ct;
        now rewrite take_app_length' by (symmetry; exact Hct)).
  assert (Hdrop : skipn (length x) sealed = Gcm.tag k (Gcm.j0 k nonce) ct)
    by (rewrite <- Hs; unfold Gcm.seal; fold ct;
        now rewrite drop_app_length' by (symmetry; exact Hct)).
  rewrite Htake.
  destruct Htag' as [[Hl Hdiff] | [Hl Hx]].
  - rewrite open_wrong_tag; [reflexivity | exact Hl | ].
    now rewrite <- Hdrop.
  - rewrite open_too_short; [reflexivity | ].
    rewrite length_app, Hct, Hx. cbn [length]. lia.
Qed.


End TamperFacts.

(** ** Normalization of a typed phrase *)

Module NormalFacts.
Import Kotlin Shape.

(** How the two whitespace classes lie to each other: a [\s] character is
    whitespace for [trim] unless it is next line, and next line is a [\s]
    character that [trim] keeps. *)
Lemma class_facts (c : ascii) :
  is_regex_space c && negb (is_next_line c) && negb (isWhitespace c) = false
  /\ is_next_line c && negb (is_regex_space c) = false
  /\ is_next_line c && isWhitespace c = false.
Proof. destruct c as [[] [] [] [] [] [] [] []]; repeat split. Qed.

Lemma regex_space_not_trimmed (c : ascii) :
  is_regex_space c = true -> isWhitespace c = false -> is_next_line c = true.
Proof.
  intros Hr Hw. destruct (class_facts c) as (H & _ & _).
  rewrite Hr, Hw in H. now destruct (is_next_line c).
Qed.

Lemma next_line_is_regex_space (c : ascii) :
  is_next_line c = true -> is_regex_space c = true.
Proof.
  intros Hn. destruct (class_facts c) as (_ & H & _).
  rewrite Hn in H. now destruct (is_regex_space c).
Qed.

Lemma lowercaseChar_facts (c : ascii) :
  isWhitespace (lowercaseChar c) = isWhitespace c
  /\ is_regex_space (lowercaseChar c) = is_regex_space c
  /\ lowercaseChar (lowercaseChar c) = lowercaseChar c
  /\ is_next_line (lowercaseChar c) = is_next_line c.
Proof. destruct c as [[] [] [] [] [] [] [] []]; repeat split. Qed.

(** *** Reversal *)

Lemma rev_append_rev_append (s a b : string) :
  rev_append (rev_append s a) b = rev_append a (s +:+ b).
Proof.
  revert a b. induction s as [ | c s IH]; intros a b; [reflexivity | ].
  cbn [rev_append]. rewrite IH. reflexivity.
Qed.

Lemma rev_string_involutive (s : string) : rev_string (rev_string s) = s.
Proof.
  unfold rev_string. rewrite rev_append_rev_append. cbn [rev_append].
  apply ChallengeFacts.string_app_nil_r.
Qed.

Lemma head_ok_rev_append (s acc : string) :
  head_ok (rev_append s acc) =
  match s with EmptyString => head_ok acc | _ => last_ok s end.
Proof.
  revert acc. induction s as [ | c s IH]; intros acc; [reflexivity | ].
  cbn [rev_append]. rewrite IH. destruct s; reflexivity.
Qed.

Lemma head_ok_rev (s : string) : head_ok (rev_string s) = last_ok s.
Proof. unfold rev_string. rewrite head_ok_rev_append. now destruct s. Qed.

Lemma last_ok_rev (s : string) : last_ok (rev_string s) = head_ok s.
Proof. now rewrite <- head_ok_rev, rev_string_involutive. Qed.

(** *** trim *)

Lemma head_ok_drop_while (s : string) : head_ok (drop_while isWhitespace s) = true.
Proof.
  induction s as [ | c s IH]; [reflexivity | ].
  cbn [drop_while]. destruct (isWhitespace c) eqn:E; [exact IH | ].
  cbn [head_ok]. now rewrite E.
Qed.

Lemma last_ok_drop_while (s : string) :
  last_ok s = true -> last_ok (drop_while isWhitespace s) = true.
Proof.
  induction s as [ | c s IH]; [reflexivity | ].
  intros H. cbn [drop_while]. destruct (isWhitespace c) eqn:E; [ | exact H].
  apply IH. destruct s; [reflexivity | exact H].
Qed.

Lemma drop_while_head_ok (s : string) :
  head_ok s = true -> drop_while isWhitespace s = s.
Proof.
  destruct s as [ | c s]; [reflexivity | ].
  cbn [head_ok drop_while]. now destruct (isWhitespace c).
Qed.

Lemma trim_ends (s : string) : head_ok (trim s) = true /\ last_ok (trim s) = true.
Proof.
  unfold trim. rewrite head_ok_rev, last_ok_rev. split.
  - apply last_ok_drop_while. rewrite last_ok_rev. apply head_ok_drop_while.
  - apply head_ok_drop_while.
Qed.

Lemma trim_fixed (s : string) :
  head_ok s = true -> last_ok s = true -> trim s = s.
Proof.
  intros Hh Hl. unfold trim. rewrite (drop_while_head_ok s Hh).
  rewrite drop_while_head_ok by now rewrite head_ok_rev.
  apply rev_string_involutive.
Qed.

Lemma drop_while_all (s : string) :
  string_forall isWhitespace s = true -> drop_while isWhitespace s = EmptyString.
Proof.
  induction s as [ | c s IH]; [reflexivity | ].
  cbn [string_forall drop_while]. intros H. apply andb_true_iff in H as [Hc Hs].
  rewrite Hc. now apply IH.
Qed.

(** *** lowercase *)

Lemma lowercase_ends (s : string) :
  head_ok (lowercase s) = head_ok s /\ last_ok (lowercase s) = last_ok s.
Proof.
  split.
  - destruct s as [ | c s]; [reflexivity | ].
    cbn [lowercase head_ok]. now rewrite (proj1 (lowercaseChar_facts c)).
  - induction s as [ | c s IH]; [reflexivity | ].
    cbn [lowercase]. destruct s as [ | d s]; [ | exact IH].
    cbn [lowercase last_ok]. now rewrite (proj1 (lowercaseChar_facts c)).
Qed.

Lemma lowercase_plain_ends (s : string) :
  head_plain (lowercase s) = head_plain s /\ last_plain (lowercase s) = last_plain s.
Proof.
  split.
  - destruct s as [ | c s]; [reflexivity | ].
    cbn [lowercase head_plain].
    now rewrite (proj2 (proj2 (proj2 (lowercaseChar_facts c)))).
  - induction s as [ | c s IH]; [reflexivity | ].
    cbn [lowercase]. destruct s as [ | d s]; [ | exact IH].
    cbn [lowercase last_plain].
    now rewrite (proj2 (proj2 (proj2 (lowercaseChar_facts c)))).
Qed.

Lemma lowercase_all_lower (s : string) : all_lower (lowercase s) = true.
Proof.
  unfold all_lower. induction s as [ | c s IH]; [reflexivity | ].
  cbn [lowercase string_forall]. rewrite IH, andb_true_r.
  rewrite (proj1 (proj2 (proj2 (lowercaseChar_facts c)))). apply Ascii.eqb_refl.
Qed.

Lemma lowercase_fixed (s : string) : all_lower s = true -> lowercase s = s.
Proof.
  unfold all_lower. induction s as [ | c s IH]; [reflexivity | ].
  cbn [lowercase string_forall]. intros H. apply andb_true_iff in H as [Hc Hs].
  apply Ascii.eqb_eq in Hc. now rewrite Hc, IH.
Qed.

(** *** collapse *)

Lemma collapse_all_lower (b : bool) (s : string) :
  all_lower s = true -> all_lower (collapse_spaces b s) = true.
Proof.
  unfold all_lower. revert b. induction s as [ | c s IH]; intros b; [reflexivity | ].
  cbn [collapse_spaces string_forall]. intros H. apply andb_true_iff in H as [Hc Hs].
  destruct (is_regex_space c); [destruct b | ]; cbn [string_forall];
    rewrite ?Hc, ?IH; auto.
Qed.

Lemma collapse_single_spaced (b : bool) (s : string) :
  single_spaced b (collapse_spaces b s) = true.
Proof.
  revert b. induction s as [ | c s IH]; intros b; [reflexivity | ].
  cbn [collapse_spaces]. destruct (is_regex_space c) eqn:E.
  - destruct b; [apply IH | ].
    cbn [single_spaced]. change (is_regex_space " ") with true.
    cbn [Ascii.eqb Bool.eqb andb negb]. apply IH.
  - cbn [single_spaced]. rewrite E. apply IH.
Qed.

Lemma collapse_fixed (s : string) :
  (single_spaced true s = true -> collapse_spaces true s = s)
  /\ (single_spaced false s = true -> collapse_spaces false s = s).
Proof.
  induction s as [ | c s [IHt IHf]]; [split; reflexivity | ].
  cbn [single_spaced collapse_spaces]. destruct (is_regex_space c).
  - split; intros H.
    + rewrite andb_false_r in H. discriminate.
    + apply andb_true_iff in H as [H Hs]. apply andb_true_iff in H as [Hc _].
      apply Ascii.eqb_eq in Hc. subst c. now rewrite IHt.
  - split; intros H; now rewrite IHf.
Qed.

(** After [trim], the replacement puts a space in front exactly when the
    phrase starts with next line. *)
Lemma collapse_head (s : string) :
  head_ok s = true -> head_ok (collapse_spaces false s) = head_plain s.
Proof.
  destruct s as [ | c s]; [reflexivity | ].
  cbn [head_ok collapse_spaces head_plain]. intros H. apply negb_true_iff in H.
  destruct (is_regex_space c) eqn:E.
  - rewrite (regex_space_not_trimmed c E H). reflexivity.
  - cbn [head_ok]. rewrite H.
    destruct (is_next_line c) eqn:N; [ | reflexivity].
    apply next_line_is_regex_space in N. congruence.
Qed.

(** And it leaves a space at the end exactly when the phrase ends with next
    line; inside a run the whole rest may vanish. *)
Lemma collapse_last (b : bool) (s : string) :
  s <> EmptyString -> last_ok s = true ->
  (last_plain s = true ->
   collapse_spaces b s <> EmptyString /\ last_ok (collapse_spaces b s) = true)
  /\ (last_plain s = false ->
      (b = true /\ collapse_spaces b s = EmptyString)
      \/ (collapse_spaces b s <> EmptyString
          /\ last_ok (collapse_spaces b s) = false)).
Proof.
  revert b. induction s as [ | c s IH]; intros b Hne Hl; [contradiction | ].
  destruct s as [ | d s].
  - cbn [last_ok] in Hl. apply negb_true_iff in Hl.
    cbn [last_plain collapse_spaces].
    destruct (is_regex_space c) eqn:E.
    + rewrite (regex_space_not_trimmed c E Hl). cbn [negb].
      split; [discriminate | ]. intros _.
      destruct b; [left; now split | right; split; [discriminate | reflexivity]].
    + destruct (is_next_line c) eqn:N;
        [apply next_line_is_regex_space in N; congruence | ].
      cbn [negb]. split; [ | discriminate]. intros _.
      split; [discriminate | ]. cbn [last_ok]. now rewrite Hl.
  - assert (Hrest : forall b',
               (last_plain (String d s) = true ->
                collapse_spaces b' (String d s) <> EmptyString
                /\ last_ok (collapse_spaces b' (String d s)) = true)
               /\ (last_plain (String d s) = false ->
                   (b' = true /\ collapse_spaces b' (String d s) = EmptyString)
                   \/ (collapse_spaces b' (String d s) <> EmptyString
                       /\ last_ok (collapse_spaces b' (String d s)) = false)))
      by (intros b'; apply IH; [discriminate | exact Hl]).
    change (last_plain (String c (String d s))) with (last_plain (String d s)).
    change (collapse_spaces b (String c (String d s)))
      with (if is_regex_space c
            then if b then collapse_spaces true (String d s)
                 else String " " (collapse_spaces true (String d s))
            else String c (collapse_spaces false (String d s))).
    destruct (is_regex_space c); [destruct b | ].
    + apply Hrest.
    + destruct (Hrest true) as [Hp Hn]. split.
      * intros P. destruct (Hp P) as [Hr Ho]. split; [discriminate | ].
        destruct (collapse_spaces true (String d s)); [contradiction | exact Ho].
      * intros P. right. split; [discriminate | ].
        destruct (Hn P) as [[_ Hr] | [Hr Ho]].
        -- rewrite Hr. reflexivity.
        -- destruct (collapse_spaces true (String d s)); [contradiction | exact Ho].
    + destruct (Hrest false) as [Hp Hn]. split.
      * intros P. destruct (Hp P) as [Hr Ho]. split; [discriminate | ].
        destruct (collapse_spaces false (String d s)); [contradiction | exact Ho].
      * intros P. right. split; [discriminate | ].
        destruct (Hn P) as [[Hb _] | [Hr Ho]]; [discriminate | ].
        destruct (collapse_spaces false (String d s)); [contradiction | exact Ho].
Qed.

Lemma collapse_last_ok (s : string) :
  last_ok s = true -> last_ok (collapse_spaces false s) = last_plain s.
Proof.
  intros Hl. destruct s as [ | c s]; [reflexivity | ].
  destruct (collapse_last false (String c s)) as [Hp Hn]; [discriminate | exact Hl | ].
  destruct (last_plain (String c s)).
  - now destruct Hp.
  - destruct Hn as [[Hb _] | [_ Ho]]; [reflexivity | discriminate | exact Ho].
Qed.

(** *** Next line is gone after the replacement *)

Lemma single_spaced_no_next_line (b : bool) (s : string) :
  single_spaced b s = true -> no_next_line s = true.
Proof.
  unfold no_next_line. revert b. induction s as [ | c s IH]; intros b H; [reflexivity | ].
  cbn [single_spaced] in H. cbn [string_forall].
  destruct (is_regex_space c) eqn:E.
  - apply andb_true_iff in H as [H Hs]. apply andb_true_iff in H as [Hc _].
    apply Ascii.eqb_eq in Hc. subst c. cbn [negb andb]. exact (IH _ Hs).
  - destruct (is_next_line c) eqn:N;
      [apply next_line_is_regex_space in N; congruence | ].
    cbn [negb andb]. exact (IH _ H).
Qed.

Lemma no_next_line_rev_append (s acc : string) :
  no_next_line (rev_append s acc) = no_next_line s && no_next_line acc.
Proof.
  unfold no_next_line. revert acc.
  induction s as [ | c s IH]; intros acc; [reflexivity | ].
  cbn [rev_append string_forall]. rewrite IH. cbn [string_forall].
  destruct (is_next_line c), (string_forall _ s), (string_forall _ acc); reflexivity.
Qed.

Lemma no_next_line_rev (s : string) : no_next_line (rev_string s) = no_next_line s.
Proof.
  unfold rev_string. rewrite no_next_line_rev_append. apply andb_true_r.
Qed.

Lemma no_next_line_drop_while (p : ascii -> bool) (s : string) :
  no_next_line s = true -> no_next_line (drop_while p s) = true.
Proof.
  unfold no_next_line. induction s as [ | c s IH]; [reflexivity | ].
  intros H. cbn [drop_while]. destruct (p c); [ | exact H].
  cbn [string_forall] in H. apply andb_true_iff in H as [_ H]. now apply IH.
Qed.

Lemma no_next_line_trim (s : string) :
  no_next_line s = true -> no_next_line (trim s) = true.
Proof.
  intros H. unfold trim. rewrite no_next_line_rev.
  apply no_next_line_drop_while. rewrite no_next_line_rev.
  now apply no_next_line_drop_while.
Qed.

Lemma no_next_line_plain_ends (s : string) :
  no_next_line s = true -> plain_ends s = true.
Proof.
  unfold no_next_line, plain_ends. intros H. apply andb_true_iff. split.
  - destruct s as [ | c s]; [reflexivity | ].
    cbn [string_forall] in H. now apply andb_true_iff in H as [H _].
  - induction s as [ | c s IH]; [reflexivity | ].
    cbn [string_forall] in H. apply andb_true_iff in H as [Hc Hs].
    destruct s as [ | d s]; [exact Hc | now apply IH].
Qed.

End NormalFacts.

Module PhraseFacts.
Import CryptoManager.

(** The parts of the normal form that every normalized phrase has, and the
    two that depend on where next line stood. *)
Lemma cleanMnemonic_parts (rawMnemonic : string) :
  Shape.single_spaced false (cleanMnemonic rawMnemonic) = true
  /\ Shape.all_lower (cleanMnemonic rawMnemonic) = true
  /\ Shape.head_ok (cleanMnemonic rawMnemonic)
     = Shape.head_plain (Kotlin.trim rawMnemonic)
  /\ Shape.last_ok (cleanMnemonic rawMnemonic)
     = Shape.last_plain (Kotlin.trim rawMnemonic).
Proof.
  unfold cleanMnemonic.
  set (t := Kotlin.trim rawMnemonic).
  destruct (NormalFacts.trim_ends rawMnemonic) as [Hth Htl]. fold t in Hth, Htl.
  destruct (NormalFacts.lowercase_ends t) as [Hlh Hll].
  destruct (NormalFacts.lowercase_plain_ends t) as [Hph Hpl].
  split; [apply NormalFacts.collapse_single_spaced | ].
  split; [apply NormalFacts.collapse_all_lower, NormalFacts.lowercase_all_lower | ].
  split.
  - rewrite NormalFacts.collapse_head by now rewrite Hlh. exact Hph.
  - rewrite NormalFacts.collapse_last_ok by now rewrite Hll. exact Hpl.
Qed.

Lemma cleanMnemonic_fixed (s : string) :
  Shape.normalized s = true -> cleanMnemonic s = s.
Proof.
  unfold Shape.normalized. intros H.
  apply andb_true_iff in H as [H Ha]. apply andb_true_iff in H as [H Hs].
  apply andb_true_iff in H as [Hh Hl].
  unfold cleanMnemonic.
  rewrite (NormalFacts.trim_fixed _ Hh Hl), (NormalFacts.lowercase_fixed _ Ha).
  now apply NormalFacts.collapse_fixed.
Qed.

(** A phrase that, once trimmed, neither starts nor ends with next line is
    brought to normal form, and normalizing it again changes nothing. *)
Lemma cleanMnemonic_shape (rawMnemonic : string) :
  Shape.plain_ends (Kotlin.trim rawMnemonic) = true ->
  Shape.normalized (cleanMnemonic rawMnemonic) = true
  /\ cleanMnemonic (cleanMnemonic rawMnemonic) = cleanMnemonic rawMnemonic.
Proof.
  intros Hplain. unfold Shape.plain_ends in Hplain.
  apply andb_true_iff in Hplain as [Hph Hpl].
  destruct (cleanMnemonic_parts rawMnemonic) as (Hs & Ha & Hh & Hl).
  assert (Hn : Shape.normalized (cleanMnemonic rawMnemonic) = true)
    by (unfold Shape.normalized; now rewrite Hh, Hl, Hs, Ha, Hph, Hpl).
  split; [exact Hn | now apply cleanMnemonic_fixed].
Qed.

Lemma cleanMnemonic_plain (rawMnemonic : string) :
  Shape.plain_ends (Kotlin.trim (cleanMnemonic rawMnemonic)) = true.
Proof.
  destruct (cleanMnemonic_parts rawMnemonic) as (Hs & _).
  apply NormalFacts.no_next_line_plain_ends, NormalFacts.no_next_line_trim.
  exact (NormalFacts.single_spaced_no_next_line _ _ Hs).
Qed.

(** What normalization achieves on Android, where [\s] also matches next
    line (U+0085), a character that [trim] keeps.  Always: the only [\s]
    characters of the result are single spaces, and it holds no character
    that lowercasing would change.  The result is free of whitespace at
    its two ends exactly when the trimmed input neither starts nor ends
    with next line, and exactly then normalizing it again changes nothing;
    in the other case a space is left at that end.  Normalizing twice
    always reaches the normal form. *)
Theorem cleanMnemonic_normalizes (rawMnemonic : string) :
  let clean := cleanMnemonic rawMnemonic in
  Shape.single_spaced false clean = true
  /\ Shape.all_lower clean = true
  /\ Shape.head_ok clean = Shape.head_plain (Kotlin.trim rawMnemonic)
  /\ Shape.last_ok clean = Shape.last_plain (Kotlin.trim rawMnemonic)
  /\ (Shape.normalized clean = true
      <-> Shape.plain_ends (Kotlin.trim rawMnemonic) = true)
  /\ (cleanMnemonic clean = clean
      <-> Shape.plain_ends (Kotlin.trim rawMnemonic) = true)
  /\ Shape.normalized (cleanMnemonic clean) = true
  /\ cleanMnemonic (cleanMnemonic clean) = cleanMnemonic clean.
Proof.
  intros clean. subst clean.
  destruct (cleanMnemonic_parts rawMnemonic) as (Hs & Ha & Hh & Hl).
  destruct (cleanMnemonic_shape _ (cleanMnemonic_plain rawMnemonic)) as [Hn2 Hi2].
  assert (Hnorm : Shape.normalized (cleanMnemonic rawMnemonic) = true
                  -> Shape.plain_ends (Kotlin.trim rawMnemonic) = true).
  { unfold Shape.normalized, Shape.plain_ends. rewrite Hh, Hl, Hs, Ha.
    now rewrite !andb_true_r. }
  split; [exact Hs | ]. split; [exact Ha | ].
  split; [exact Hh | ]. split; [exact Hl | ].
  split; [split; [exact Hnorm | apply cleanMnemonic_shape] | ].
  split; [ | split; [exact Hn2 | exact Hi2]].
  split; [ | apply cleanMnemonic_shape].
  intros Hfix. apply Hnorm. rewrite <- Hfix. exact Hn2.
Qed.

(** Next line in front of a word: a space is left there, and a second
    normalization removes it. *)
Example cleanMnemonic_next_line :
  cleanMnemonic (String "133" "Abandon") = " abandon"%string
  /\ cleanMnemonic " abandon" = "abandon"%string.
Proof. split; reflexivity. Qed.

Section WithPrimitives.
Context {P : Primitives}.

(** A phrase of nothing but whitespace, the empty phrase included, is
    refused, whatever the wallet library would say about it. *)
Theorem blank_phrase_rejected (rawMnemonic : string) (w : world) :
  string_forall Kotlin.isWhitespace rawMnemonic = true ->
  importWalletFromMnemonic rawMnemonic w = (Err InvalidMnemonic, w).
Proof.
  intros H. apply ImportFacts.import_rejected.
  unfold accepted, word_count, cleanMnemonic, Kotlin.trim.
  now rewrite (NormalFacts.drop_while_all _ H).
Qed.

(** Recovery from the store: when the typed phrase, once trimmed, neither
    starts nor ends with next line (U+0085), the phrase a successful import
    stored imports again, on any store, to the same address and the same
    key pair. *)
Theorem stored_phrase_imports_again
    (rawMnemonic : string) (w w' w2 : world) (addr : string) :
  Shape.plain_ends (Kotlin.trim rawMnemonic) = true ->
  importWalletFromMnemonic rawMnemonic w = (Ok addr, w') ->
  exists stored w2',
    prefs w' !! KEY_MNEMONIC = Some stored
    /\ importWalletFromMnemonic stored w2 = (Ok addr, w2')
    /\ prefs w2' !! KEY_PRIVATE_KEY = prefs w' !! KEY_PRIVATE_KEY
    /\ prefs w2' !! KEY_PUBLIC_KEY = prefs w' !! KEY_PUBLIC_KEY
    /\ prefs w2' !! KEY_ADDRESS = prefs w' !! KEY_ADDRESS
    /\ prefs w2' !! KEY_MNEMONIC = Some stored.
Proof.
  intros Hplain H. apply ImportFacts.import_ok_inv in H as (Hacc & -> & ->).
  destruct (cleanMnemonic_shape rawMnemonic Hplain) as [_ Hidem].
  set (clean := cleanMnemonic rawMnemonic) in *.
  assert (Hacc' : accepted (cleanMnemonic clean) = true) by now rewrite Hidem.
  pose proof (ImportFacts.import_accepted clean w2 Hacc') as Himp.
  destruct (ImportFacts.imported_lookups clean w) as (Hp & Hq & Ha & Hm & _).
  destruct (ImportFacts.imported_lookups (cleanMnemonic clean) w2)
    as (Hp2 & Hq2 & Ha2 & Hm2 & _).
  rewrite Hidem in Himp, Hp2, Hq2, Ha2, Hm2.
  exists clean. eexists. split; [exact Hm | ]. split; [exact Himp | ].
  rewrite Hp, Hq, Ha, Hp2, Hq2, Ha2, Hm2. repeat split.
Qed.

End WithPrimitives.

End PhraseFacts.

(** ** AptosClient: the list of memories *)

Module MemoryListFacts.
Import AptosClient.

Section WithLibrary.
Variable valueOf : json -> string.
Variable currentTimeMillis : nat -> Z.

#[local] Abbreviation decode_memory := (decode_memory valueOf currentTimeMillis).
#[local] Abbreviation decode_all := (decode_all valueOf currentTimeMillis).
#[local] Abbreviation fetchUserMemories := (fetchUserMemories valueOf currentTimeMillis).

Lemma Forall2_nth_error {A B} (R : A -> B -> Prop) (l : list A) (l' : list B)
    (i : nat) (a : A) (b : B) :
  Forall2 R l l' -> nth_error l i = Some a -> nth_error l' i = Some b -> R a b.
Proof.
  intros H. revert i. induction H as [ | x y xs ys Hxy _ IH]; intros i Ha Hb.
  - destruct i; discriminate.
  - destruct i as [ | i]; cbn [nth_error] in Ha, Hb; [congruence | eauto].
Qed.

Lemma decode_all_some (arr : list json) (indices : list nat) (items : list MemoryItem) :
  decode_all arr indices = Some items ->
  Forall2 (fun i item => decode_memory arr i = Some item) indices items.
Proof.
  revert items. induction indices as [ | i rest IH]; intros items H.
  - cbn in H. injection H as <-. constructor.
  - cbn [AptosClient.decode_all] in H.
    destruct (decode_memory arr i) as [item | ] eqn:Hi; [ | discriminate].
    destruct (decode_all arr rest) as [more | ] eqn:Hrest; [ | discriminate].
    injection H as <-. constructor; [exact Hi | now apply IH].
Qed.

Lemma decode_all_none (arr : list json) (indices : list nat) (i : nat) :
  In i indices -> decode_memory arr i = None -> decode_all arr indices = None.
Proof.
  induction indices as [ | j rest IH]; intros Hin Hi; [destruct Hin | ].
  cbn [AptosClient.decode_all]. destruct Hin as [-> | Hin].
  - now rewrite Hi.
  - destruct (decode_memory arr j); [ | reflexivity]. now rewrite IH.
Qed.

Lemma decode_all_total (arr : list json) (indices : list nat) :
  (forall i, In i indices -> decode_memory arr i <> None) ->
  exists items, decode_all arr indices = Some items.
Proof.
  induction indices as [ | j rest IH]; intros H; [now exists [] | ].
  cbn [AptosClient.decode_all].
  destruct (decode_memory arr j) as [item | ] eqn:Hj;
    [ | now destruct (H j (or_introl eq_refl))].
  destruct IH as [items ->]; [intros i Hi; apply H; now right | ].
  now eexists.
Qed.

Lemma decode_memory_fields (arr : list json) (i : nat) (item : MemoryItem) :
  decode_memory arr i = Some item ->
  id item = toInt (currentTimeMillis i + Z.of_nat i)
  /\ date item = "On-Chain"%string
  /\ isSecured item = true.
Proof.
  unfold AptosClient.decode_memory.
  destruct (getJSONObject i arr) as [mem | ]; [ | discriminate].
  destruct (cleanField _) as [t | ]; [ | discriminate].
  destruct (cleanField _) as [h | ]; [ | discriminate].
  intros H. injection H as <-. repeat split.
Qed.

Lemma fetch_unfold (mems rest : list json) :
  fetchUserMemories
    (Answer {| isSuccessful := true;
               responseBody := Document (JArray (JArray mems :: rest)) |})
  = match decode_all mems (seq 0 (length mems)) with
    | Some items => items
    | None => []
    end.
Proof. reflexivity. Qed.

(** All or nothing: when one element of the inner array cannot be decoded
    (it is no object, or its title or hash is "0x" followed by an odd
    number of characters or by something that is no hex digit), the whole
    result is the empty list, the well-formed records included. *)
Theorem one_bad_record_empties_the_list (mems rest : list json) (i : nat) :
  (i < length mems)%nat ->
  decode_memory mems i = None ->
  fetchUserMemories
    (Answer {| isSuccessful := true;
               responseBody := Document (JArray (JArray mems :: rest)) |}) = [].
Proof.
  intros Hi Hbad. rewrite fetch_unfold.
  rewrite (decode_all_none mems _ i); [reflexivity | | exact Hbad].
  apply in_seq. lia.
Qed.

Lemma fetched_items (mems rest : list json) :
  (forall i, (i < length mems)%nat -> decode_memory mems i <> None) ->
  let items :=
    fetchUserMemories
      (Answer {| isSuccessful := true;
                 responseBody := Document (JArray (JArray mems :: rest)) |}) in
  length items = length mems
  /\ forall i item,
       nth_error items i = Some item ->
       decode_memory mems i = Some item
       /\ id item = toInt (currentTimeMillis i + Z.of_nat i)
       /\ date item = "On-Chain"%string
       /\ isSecured item = true.
Proof.
  intros Hall items. subst items. rewrite fetch_unfold.
  destruct (decode_all_total mems (seq 0 (length mems))) as [items Hitems].
  { intros i Hi. apply Hall. apply in_seq in Hi. lia. }
  rewrite Hitems. apply decode_all_some in Hitems.
  pose proof (Forall2_length _ _ _ Hitems) as Hlen. rewrite length_seq in Hlen.
  split; [now symmetry | ].
  intros i item Hnth.
  assert (Hi : (i < length mems)%nat).
  { rewrite Hlen. apply nth_error_Some. now rewrite Hnth. }
  assert (Hdec : decode_memory mems i = Some item).
  { assert (Hseq : nth_error (seq 0 (length mems)) i = Some i).
    { rewrite nth_error_nth' with (d := 0%nat) by now rewrite length_seq.
      now rewrite seq_nth. }
    exact (Forall2_nth_error _ _ _ _ _ _ Hitems Hseq Hnth). }
  split; [exact Hdec | ]. exact (decode_memory_fields _ _ _ Hdec).
Qed.

(** When every element decodes, the result has exactly one item per
    element, in the order of the array; item [i] is marked secured, dated
    "On-Chain", and numbered by the clock plus [i], cut to 32 bits. *)
Theorem one_item_per_record (mems rest : list json) :
  (forall i, (i < length mems)%nat -> decode_memory mems i <> None) ->
  let items :=
    fetchUserMemories
      (Answer {| isSuccessful := true;
                 responseBody := Document (JArray (JArray mems :: rest)) |}) in
  length items = length mems
  /\ forall i item,
       nth_error items i = Some item ->
       decode_memory mems i = Some item
       /\ id item = toInt (currentTimeMillis i + Z.of_nat i)
       /\ date item = "On-Chain"%string
       /\ isSecured item = true.
Proof. apply fetched_items. Qed.

End WithLibrary.

End MemoryListFacts.

(** ** AptosClient: the local identifiers *)

Module IdFacts.
Import AptosClient.

Lemma toInt_window (a b : Z) :
  toInt a = toInt b -> - 2 ^ 32 < a - b < 2 ^ 32 -> a = b.
Proof.
  unfold toInt. intros H Hw.
  assert (E : (a + 2 ^ 31) mod 2 ^ 32 = (b + 2 ^ 31) mod 2 ^ 32) by lia.
  revert E. change (2 ^ 32) with 4294967296 in *. change (2 ^ 31) with 2147483648.
  Z.div_mod_to_equations. lia.
Qed.

Section WithLibrary.
Variable valueOf : json -> string.

(** Within one fetch the identifiers are pairwise different, provided the
    clock does not run backwards during the loop and the loop, counted in
    milliseconds plus records, stays below 2^32. *)
Theorem ids_distinct_within_a_fetch
    (currentTimeMillis : nat -> Z) (mems rest : list json) :
  (forall i j, (i <= j < length mems)%nat ->
     0 <= currentTimeMillis j - currentTimeMillis i
          < 2 ^ 32 - Z.of_nat (length mems)) ->
  (forall i, (i < length mems)%nat ->
     decode_memory valueOf currentTimeMillis mems i <> None) ->
  let items :=
    fetchUserMemories valueOf currentTimeMillis
      (Answer {| isSuccessful := true;
                 responseBody := Document (JArray (JArray mems :: rest)) |}) in
  forall i j a b,
    i <> j ->
    nth_error items i = Some a ->
    nth_error items j = Some b ->
    id a <> id b.
Proof.
  intros Hclock Hall items i j a b Hij Ha Hb.
  destruct (MemoryListFacts.fetched_items valueOf currentTimeMillis mems rest Hall)
    as [Hlen Hitems].
  fold items in Hlen, Hitems.
  assert (Hi : (i < length mems)%nat)
    by (rewrite <- Hlen; apply nth_error_Some; now rewrite Ha).
  assert (Hj : (j < length mems)%nat)
    by (rewrite <- Hlen; apply nth_error_Some; now rewrite Hb).
  destruct (Hitems i a Ha) as (_ & Hida & _).
  destruct (Hitems j b Hb) as (_ & Hidb & _).
  rewrite Hida, Hidb. intros E. apply toInt_window in E.
  - destruct (Nat.lt_ge_cases i j) as [Hlt | Hge].
    + pose proof (Hclock i j ltac:(lia)). lia.
    + pose proof (Hclock j i ltac:(lia)). lia.
  - destruct (Nat.lt_ge_cases i j) as [Hlt | Hge].
    + pose proof (Hclock i j ltac:(lia)). lia.
    + pose proof (Hclock j i ltac:(lia)). lia.
Qed.

(** The identifiers are not stable: fetching the same records again while
    the clock has moved on by less than 2^32 milliseconds gives every record
    another identifier. *)
Theorem ids_change_between_fetches
    (clock1 clock2 : nat -> Z) (mems rest : list json) :
  (forall i, 0 < clock2 i - clock1 i < 2 ^ 32) ->
  (forall i, (i < length mems)%nat -> decode_memory valueOf clock1 mems i <> None) ->
  let r := Answer {| isSuccessful := true;
                     responseBody := Document (JArray (JArray mems :: rest)) |} in
  length (fetchUserMemories valueOf clock2 r) = length (fetchUserMemories valueOf clock1 r)
  /\ forall i a b,
       nth_error (fetchUserMemories valueOf clock1 r) i = Some a ->
       nth_error (fetchUserMemories valueOf clock2 r) i = Some b ->
       title a = title b /\ ipfsHash a = ipfsHash b /\ id a <> id b.
Proof.
  intros Hclock Hall1 r.
  assert (Hall2 : forall i, (i < length mems)%nat ->
                    decode_memory valueOf clock2 mems i <> None).
  { intros i Hi H. apply (Hall1 i Hi). unfold decode_memory in *.
    destruct (getJSONObject i mems); [ | reflexivity].
    destruct (cleanField _); [ | reflexivity].
    destruct (cleanField _); [discriminate | reflexivity]. }
  destruct (MemoryListFacts.fetched_items valueOf clock1 mems rest Hall1)
    as [Hlen1 H1].
  destruct (MemoryListFacts.fetched_items valueOf clock2 mems rest Hall2)
    as [Hlen2 H2].
  fold r in Hlen1, H1, Hlen2, H2.
  split; [now rewrite Hlen1, Hlen2 | ].
  intros i a b Ha Hb.
  destruct (H1 i a Ha) as (Hda & Hida & _).
  destruct (H2 i b Hb) as (Hdb & Hidb & _).
  unfold decode_memory in Hda, Hdb.
  destruct (getJSONObject i mems) as [mem | ]; [ | discriminate].
  destruct (cleanField (optString valueOf "title" "Secured Memory" mem)) as [t | ];
    [ | discriminate].
  destruct (cleanField (optString valueOf "ipfs_hash" EmptyString mem)) as [h | ];
    [ | discriminate].
  injection Hda as <-. injection Hdb as <-. cbn [title ipfsHash id].
  split; [reflexivity | ]. split; [reflexivity | ].
  intros E. apply toInt_window in E; pose proof (Hclock i); lia.
Qed.

End WithLibrary.

End IdFacts.

(** ** AptosClient: reading a balance *)

Module BalanceFacts.
Import AptosClient.

(** The value of a decimal numeral, digit by digit. *)
Lemma digits_value_uint (d : Decimal.uint) (acc : Z) :
  exists v,
    digits_value acc (NilEmpty.string_of_uint d) = Some v
    /\ (forall p, acc = Z.pos p -> v = Z.pos (Pos.of_uint_acc d p))
    /\ (acc = 0 -> v = Z.of_N (Pos.of_uint d)).
Proof.
  revert acc.
  induction d as [ | d IH | d IH | d IH | d IH | d IH | d IH | d IH | d IH | d IH | d IH];
    intros acc;
    [ exists acc; split; [reflexivity | ]; split;
        [intros p ->; reflexivity | intros ->; reflexivity]
    | .. ];
    cbn [NilEmpty.string_of_uint digits_value];
    match goal with
    | |- context [is_digit ?c] =>
        change (is_digit c) with true; cbv iota;
        let x := eval vm_compute in (Kotlin.code c - 48) in
        change (Kotlin.code c - 48) with x
    end;
    match goal with
    | |- context [digits_value ?a _] =>
        destruct (IH a) as (v & Hv & Hpos & Hzero); exists v
    end;
    (split; [exact Hv | ]);
    (split;
     [ intros p ->; cbn [Pos.of_uint_acc]; apply Hpos; lia
     | intros ->; cbn [Pos.of_uint];
       first [ apply Hzero; reflexivity | apply Hpos; reflexivity ] ]).
Qed.

Lemma digits_value_positive (p : positive) :
  digits_value 0 (NilEmpty.string_of_uint (Pos.to_uint p)) = Some (Z.pos p).
Proof.
  destruct (digits_value_uint (Pos.to_uint p) 0) as (v & Hv & _ & Hzero).
  rewrite Hv, (Hzero eq_refl), DecimalPos.Unsigned.of_to. reflexivity.
Qed.

Lemma string_of_uint_positive (p : positive) :
  NilZero.string_of_uint (Pos.to_uint p) = NilEmpty.string_of_uint (Pos.to_uint p)
  /\ NilEmpty.string_of_uint (Pos.to_uint p) <> EmptyString.
Proof.
  pose proof (DecimalPos.Unsigned.to_uint_nonnil p) as Hnil.
  destruct (Pos.to_uint p); [contradiction | ..]; split; try reflexivity; discriminate.
Qed.

Lemma toLongOrNull_digits (s : string) (v : Z) :
  s <> EmptyString ->
  digits_value 0 s = Some v ->
  toLongOrNull s = if (- 2 ^ 63 <=? v) && (v <=? 2 ^ 63 - 1) then Some v else None.
Proof.
  destruct s as [ | c rest]; [contradiction | ]. intros _ H.
  unfold toLongOrNull. rewrite H.
  cbn [digits_value] in H. unfold is_digit in H.
  destruct (Kotlin.code c <? 48) eqn:E; [ | reflexivity].
  apply Z.ltb_lt in E.
  destruct (48 <=? Kotlin.code c) eqn:E'; [apply Z.leb_le in E'; lia | discriminate].
Qed.

(** Printing a [Long] in decimal and reading it back with [toLongOrNull]
    gives the number. *)
Lemma toLongOrNull_decimal (n : Z) :
  - 2 ^ 63 <= n <= 2 ^ 63 - 1 ->
  toLongOrNull (WalletContext.number_to_string n) = Some n.
Proof.
  intros Hn. unfold WalletContext.number_to_string.
  destruct n as [ | p | p].
  - reflexivity.
  - cbn [Z.to_int NilZero.string_of_int].
    destruct (string_of_uint_positive p) as [-> Hne].
    rewrite (toLongOrNull_digits _ _ Hne (digits_value_positive p)).
    destruct (- 2 ^ 63 <=? Z.pos p) eqn:E1; [ | apply Z.leb_gt in E1; lia].
    destruct (Z.pos p <=? 2 ^ 63 - 1) eqn:E2; [reflexivity | apply Z.leb_gt in E2; lia].
  - cbn [Z.to_int NilZero.string_of_int].
    destruct (string_of_uint_positive p) as [-> Hne].
    unfold toLongOrNull. change (Kotlin.code "-" <? 48) with true. cbv iota.
    destruct (NilEmpty.string_of_uint (Pos.to_uint p)) eqn:Es; [contradiction | ].
    rewrite <- Es. change (Ascii.eqb "-" "-") with true. cbv iota.
    rewrite digits_value_positive.
    change (- Z.pos p) with (Z.neg p).
    destruct (- 2 ^ 63 <=? Z.neg p) eqn:E1; [ | apply Z.leb_gt in E1; lia].
    destruct (Z.neg p <=? 2 ^ 63 - 1) eqn:E2; [reflexivity | apply Z.leb_gt in E2; lia].
Qed.

Section WithLibrary.
Variable valueOf : json -> string.

(** A successful answer carrying the coin value as the decimal text of a
    [Long] gives exactly that number. *)
Theorem getBalance_reads_the_coin_value
    (json data coin : list (string * json)) (n : Z) :
  - 2 ^ 63 <= n <= 2 ^ 63 - 1 ->
  optJSONObject "data" json = Some data ->
  optJSONObject "coin" data = Some coin ->
  opt "value" coin = Some (JString (WalletContext.number_to_string n)) ->
  getBalance valueOf
    (Answer {| isSuccessful := true; responseBody := Document (JObject json) |}) = n.
Proof.
  intros Hn Hdata Hcoin Hvalue.
  unfold getBalance, getBalance_try. cbn [isSuccessful negb responseBody parseObject].
  rewrite Hdata, Hcoin. unfold optString. rewrite Hvalue.
  now rewrite toLongOrNull_decimal.
Qed.

(** Everything else degrades to 0: a call that throws, a body that is no
    JSON object, and a coin value that is missing or is no [Long] numeral
    (the value is within the [Long] range in every case). *)
Theorem getBalance_degrades_to_zero (r : reply) :
  - 2 ^ 63 <= getBalance valueOf r <= 2 ^ 63 - 1
  /\ (r = TransportError -> getBalance valueOf r = 0)
  /\ (forall ok j,
        r = Answer {| isSuccessful := ok; responseBody := j |} ->
        parseObject j = None -> getBalance valueOf r = 0)
  /\ (forall ok j json data coin,
        r = Answer {| isSuccessful := ok; responseBody := j |} ->
        parseObject j = Some json ->
        optJSONObject "data" json = Some data ->
        optJSONObject "coin" data = Some coin ->
        toLongOrNull (optString valueOf "value" "0" coin) = None ->
        getBalance valueOf r = 0).
Proof.
  split.
  { unfold getBalance, getBalance_try.
    destruct r as [ | r]; [lia | ].
    destruct (negb (isSuccessful r)); [lia | ].
    destruct (parseObject (responseBody r)) as [json | ]; [ | lia].
    destruct (optJSONObject "data" json) as [data | ]; [ | lia].
    destruct (optJSONObject "coin" data) as [coin | ]; [ | lia].
    destruct (toLongOrNull _) as [v | ] eqn:Hv; [ | lia].
    unfold toLongOrNull in Hv.
    assert (Hr : forall x, (if (- 2 ^ 63 <=? x) && (x <=? 2 ^ 63 - 1)
                            then Some x else None) = Some v ->
                           - 2 ^ 63 <= v <= 2 ^ 63 - 1).
    { intros x H. destruct (- 2 ^ 63 <=? x) eqn:E1; [ | discriminate].
      destruct (x <=? 2 ^ 63 - 1) eqn:E2; [ | discriminate].
      injection H as <-. apply Z.leb_le in E1, E2. lia. }
    destruct (optString valueOf "value" "0" coin) as [ | c rest]; [discriminate | ].
    destruct (Kotlin.code c <? 48).
    - destruct rest as [ | d rest]; [discriminate | ].
      destruct (Ascii.eqb c "-").
      + destruct (digits_value 0 (String d rest)); [now apply Hr in Hv | discriminate].
      + destruct (Ascii.eqb c "+"); [ | discriminate].
        destruct (digits_value 0 (String d rest)); [now apply Hr in Hv | discriminate].
    - destruct (digits_value 0 (String c rest)); [now apply Hr in Hv | discriminate]. }
  split; [intros ->; reflexivity | ].
  split.
  - intros ok j -> Hparse. unfold getBalance, getBalance_try.
    cbn [isSuccessful responseBody]. destruct ok; cbn [negb]; [ | reflexivity].
    now rewrite Hparse.
  - intros ok j json data coin -> Hparse Hdata Hcoin Hvalue.
    unfold getBalance, getBalance_try.
    cbn [isSuccessful responseBody]. destruct ok; cbn [negb]; [ | reflexivity].
    now rewrite Hparse, Hdata, Hcoin, Hvalue.
Qed.

End WithLibrary.

End BalanceFacts.

(** ** AptosClient: relaying and the deprecated registration *)

Module RelayFacts.
Import AptosClient Relay.

Section WithLibrary.
Variable valueOf : json -> string.

(** How a relay attempt ends.  A hash is returned only for an HTTP success
    whose body says success, and it is the empty string when the body
    carries no hash.  Every other answer throws a message that starts with
    "Relay Failed: " and goes on with the "message" string of the error
    body when that is a JSON object holding one, and with the HTTP status
    text otherwise; in particular an HTTP success whose body says failure
    reports the status text, whatever message that body carries. *)
Theorem submitRealMemory_outcomes (r : http) :
  (forall h, submitRealMemory valueOf (RelayAnswer r) = Returned h ->
     successful r = true
     /\ (exists b, parsed r = Some b /\ success b = true)
     /\ h = body_hash r)
  /\ (successful r = false ->
      forall members m,
        errorBody r = Document (JObject members) ->
        opt "message" members = Some (JString m) ->
        submitRealMemory valueOf (RelayAnswer r) = Failed ("Relay Failed: " +:+ m))
  /\ (successful r = false ->
      (errorBody r = Malformed
       \/ exists members,
            parseObject (errorBody r) = Some members
            /\ opt "message" members = None) ->
      submitRealMemory valueOf (RelayAnswer r)
      = Failed ("Relay Failed: " +:+ statusMessage r))
  /\ (forall b,
        successful r = true -> errorBody r = NoBody ->
        parsed r = Some b -> success b = false ->
        submitRealMemory valueOf (RelayAnswer r)
        = Failed ("Relay Failed: " +:+ statusMessage r))
  /\ (forall b,
        successful r = true -> parsed r = Some b -> success b = true ->
        data b = None ->
        submitRealMemory valueOf (RelayAnswer r) = Returned EmptyString).
Proof.
  split.
  { intros h H. unfold submitRealMemory in H.
    destruct (successful r); [ | discriminate].
    destruct (parsed r) as [b | ] eqn:Hb; [ | discriminate].
    destruct (success b) eqn:Hs; [ | discriminate].
    cbn [andb] in H. injection H as <-.
    split; [reflexivity | ]. split; [now exists b | ].
    unfold body_hash. now rewrite Hb. }
  split.
  { intros Hfail members m Hbody Hm. unfold submitRealMemory, errorMessage.
    rewrite Hfail, Hbody. cbn [andb parseObject]. unfold optString. now rewrite Hm. }
  split.
  { intros Hfail H. unfold submitRealMemory, errorMessage. rewrite Hfail. cbn [andb].
    destruct H as [-> | (members & -> & Hm)]; [reflexivity | ].
    unfold optString. now rewrite Hm. }
  split.
  { intros b Hok Hbody Hb Hs. unfold submitRealMemory, errorMessage.
    rewrite Hok, Hb, Hs, Hbody. reflexivity. }
  intros b Hok Hb Hs Hd. unfold submitRealMemory, body_hash.
  now rewrite Hok, Hb, Hs, Hd.
Qed.

End WithLibrary.

(** *** The deprecated registration *)

Lemma hex_digit_lower (d : Z) :
  0 <= d < 16 ->
  is_lower_hex (hex_digit d) = true /\ of_hex_digit (hex_digit d) = Some d.
Proof.
  intros H.
  assert (Hd : d = 0 \/ d = 1 \/ d = 2 \/ d = 3 \/ d = 4 \/ d = 5 \/ d = 6 \/ d = 7
               \/ d = 8 \/ d = 9 \/ d = 10 \/ d = 11 \/ d = 12 \/ d = 13 \/ d = 14
               \/ d = 15) by lia.
  repeat (destruct Hd as [-> | Hd]; [split; reflexivity | ]).
  subst d. split; reflexivity.
Qed.

Lemma hex_go_spec (fuel : nat) (n : Z) (acc : string) :
  0 <= n < 16 ^ Z.of_nat fuel ->
  (0 < fuel)%nat ->
  string_forall is_lower_hex acc = true ->
  string_forall is_lower_hex (hex_go fuel n acc) = true
  /\ (String.length acc < String.length (hex_go fuel n acc) <= fuel + String.length acc)%nat
  /\ hex_number (hex_go fuel n acc)
     = n * 16 ^ Z.of_nat (String.length acc) + hex_number acc.
Proof.
  revert n acc. induction fuel as [ | fuel IH]; intros n acc Hn Hfuel Hacc; [lia | ].
  cbn [hex_go].
  assert (Hmod : 0 <= n mod 16 < 16) by (apply Z.mod_pos_bound; lia).
  destruct (hex_digit_lower _ Hmod) as [Hlow Hback].
  assert (Hacc' : string_forall is_lower_hex (String (hex_digit (n mod 16)) acc) = true)
    by (cbn [string_forall]; now rewrite Hlow, Hacc).
  assert (Hval : hex_number (String (hex_digit (n mod 16)) acc)
                 = n mod 16 * 16 ^ Z.of_nat (String.length acc) + hex_number acc)
    by (cbn [hex_number]; now rewrite Hback).
  destruct (n / 16 =? 0) eqn:Hq.
  - apply Z.eqb_eq in Hq. split; [exact Hacc' | ].
    split; [cbn [String.length]; lia | ].
    rewrite Hval. f_equal. f_equal. Z.div_mod_to_equations. lia.
  - apply Z.eqb_neq in Hq.
    destruct fuel as [ | fuel].
    { exfalso. apply Hq. apply Z.div_small. cbn in Hn. lia. }
    destruct (IH (n / 16) (String (hex_digit (n mod 16)) acc)) as (Hf & Hl & Hv);
      [ | lia | exact Hacc' | ].
    { rewrite Nat2Z.inj_succ, Z.pow_succ_r in Hn by lia.
      split; [apply Z.div_pos; lia | ].
      apply Z.div_lt_upper_bound; lia. }
    split; [exact Hf | ]. split; [cbn [String.length] in Hl; lia | ].
    rewrite Hv, Hval. cbn [String.length].
    rewrite Nat2Z.inj_succ, Z.pow_succ_r by lia.
    pose proof (Z.div_mod n 16 ltac:(lia)) as Hdm.
    set (k := 16 ^ Z.of_nat (String.length acc)) in *.
    rewrite Hdm at 3. ring.
Qed.

Lemma repeat_char_facts (n : nat) (s : string) :
  String.length (repeat_char "0" n +:+ s) = (n + String.length s)%nat
  /\ string_forall is_lower_hex (repeat_char "0" n +:+ s) = string_forall is_lower_hex s
  /\ hex_number (repeat_char "0" n +:+ s) = hex_number s.
Proof.
  induction n as [ | n (Hl & Hf & Hv)]; [repeat split | ].
  change (repeat_char "0" (S n) +:+ s) with (String "0" (repeat_char "0" n +:+ s)).
  cbn [String.length string_forall hex_number].
  change (is_lower_hex "0") with true. change (of_hex_digit "0") with (Some 0).
  rewrite Hl, Hf, Hv. repeat split; try lia.
Qed.

(** For every time from 1970 on that a [Long] holds, the fake transaction
    hash has the format of an address: "0x" and then exactly 64 lowercase
    hex digits; the digits spell the time. *)
Theorem registerMemory_looks_like_a_hash (now : Z) :
  0 <= now < 2 ^ 63 ->
  exists digits,
    registerMemory now = "0x" +:+ digits
    /\ String.length digits = 64%nat
    /\ string_forall is_lower_hex digits = true
    /\ hex_number digits = now.
Proof.
  intros Hnow. unfold registerMemory, padStart, toString16.
  destruct (now <? 0) eqn:E; [apply Z.ltb_lt in E; lia | ].
  destruct (hex_go_spec 16 now EmptyString) as (Hf & Hl & Hv);
    [change (16 ^ Z.of_nat 16) with (2 ^ 64); lia | lia | reflexivity | ].
  cbn [String.length hex_number] in Hl, Hv.
  set (h := hex_go 16 now EmptyString) in *.
  destruct (repeat_char_facts (64 - String.length h) h) as (Hl' & Hf' & Hv').
  eexists. split; [reflexivity | ].
  rewrite Hl', Hf', Hv', Hf, Hv. repeat split; lia.
Qed.

End RelayFacts.

(** ** WalletContext: what is sent to the backend *)

Module WalletHexFacts.
Import WalletContext WalletHex.

Lemma substring_all (s : string) : String.substring 0 (String.length s) s = s.
Proof. induction s as [ | c s IH]; [reflexivity | ]. cbn. now rewrite IH. Qed.

Lemma startsWith_0x (s : string) :
  Kotlin.startsWith "0x" (String "0" (String "x" s)) = true.
Proof.
  unfold Kotlin.startsWith. cbn [String.prefix].
  destruct (Ascii.ascii_dec "0" "0") as [_ | H]; [ | now destruct H].
  destruct (Ascii.ascii_dec "x" "x") as [_ | H]; [ | now destruct H].
  now destruct s.
Qed.

Lemma strip0x_prefixed (s : string) : strip0x ("0x" +:+ s) = s.
Proof.
  unfold strip0x.
  change ("0x" +:+ s) with (String "0" (String "x" s)).
  rewrite startsWith_0x.
  cbn [String.length String.substring Nat.sub]. rewrite Nat.sub_0_r.
  apply substring_all.
Qed.

Lemma hex_never_prefixed (bs : list byte) :
  Kotlin.startsWith "0x" (hex_of_bytes bs) = false.
Proof.
  destruct bs as [ | b bs]; [reflexivity | ].
  rewrite hex_of_bytes_cons. destruct b; reflexivity.
Qed.

(** A signature or key that the wallet hands over as bytes, directly or
    wrapped in [{key: ..}] or [{data: ..}], reaches the backend as the
    lowercase hex of the bytes, two digits per byte, without "0x" in front,
    and the bytes can be read back from it. *)
Theorem bytes_are_sent_as_plain_hex (bs : list byte) (other : value) :
  processSignature (Bytes bs) other = hex_of_bytes bs
  /\ processSignature (KeyOf (Bytes bs)) other = hex_of_bytes bs
  /\ processSignature (DataOf (Bytes bs)) other = hex_of_bytes bs
  /\ processSignature Undefined (Bytes bs) = hex_of_bytes bs
  /\ strip0x (toHexString (Bytes bs)) = hex_of_bytes bs
  /\ String.length (hex_of_bytes bs) = (2 * length bs)%nat
  /\ string_forall is_lower_hex (hex_of_bytes bs) = true
  /\ Kotlin.startsWith "0x" (hex_of_bytes bs) = false
  /\ unhex (hex_of_bytes bs) = bs.
Proof.
  assert (H : strip0x (toHexString (Bytes bs)) = hex_of_bytes bs)
    by apply strip0x_prefixed.
  repeat split; try exact H.
  - apply hex_of_bytes_length.
  - apply hex_of_bytes_lower_hex.
  - apply hex_never_prefixed.
  - apply unhex_hex_of_bytes.
Qed.

Lemma toHexString_text (s : string) :
  strip0x (toHexString (Str s)) = strip0x s.
Proof.
  cbn [toHexString]. destruct s as [ | c s]; [reflexivity | ].
  destruct (Kotlin.startsWith "0x" (String c s)) eqn:E; [reflexivity | ].
  rewrite strip0x_prefixed. unfold strip0x. now rewrite E.
Qed.

Lemma strip0x_plain (s : string) :
  Kotlin.startsWith "0x" s = false -> strip0x s = s.
Proof. intros E. unfold strip0x. now rewrite E. Qed.

(** A key or signature handed over as text.  The public key reaches the
    backend with one leading "0x" removed, the signature with two removed:
    [signMessage] removes one and the caller removes one more.  For a text
    without the prefix, or with one, both arrive as the bare text; a text
    with the prefix twice arrives bare as a signature but keeps one "0x"
    as a public key. *)
Theorem text_prefixes_removed (s : string) (other : value) :
  s <> EmptyString ->
  processSignature (Str s) other = strip0x s
  /\ postedSignature (Str s) other = strip0x (strip0x s)
  /\ postedPublicKey (Str s) = strip0x s
  /\ (Kotlin.startsWith "0x" s = false ->
      postedSignature (Str s) other = s
      /\ postedSignature (Str ("0x" +:+ s)) other = s
      /\ postedSignature (Str ("0x0x" +:+ s)) other = s
      /\ postedPublicKey (Str s) = s
      /\ postedPublicKey (Str ("0x" +:+ s)) = s
      /\ postedPublicKey (Str ("0x0x" +:+ s)) = "0x" +:+ s).
Proof.
  intros Hne.
  assert (Hsig : forall t, t <> EmptyString ->
                           processSignature (Str t) other = strip0x t).
  { intros t Ht. unfold processSignature.
    destruct t as [ | c t]; [contradiction | ].
    cbn [truthy]. apply toHexString_text. }
  assert (Hposted : forall t, t <> EmptyString ->
                              postedSignature (Str t) other = strip0x (strip0x t))
    by (intros t Ht; unfold postedSignature; now rewrite Hsig).
  assert (Hkey : forall t, postedPublicKey (Str t) = strip0x t)
    by (intros t; apply toHexString_text).
  split; [now apply Hsig | ]. split; [now apply Hposted | ].
  split; [apply Hkey | ].
  intros Hplain.
  split; [rewrite Hposted by exact Hne; now rewrite !(strip0x_plain s Hplain) | ].
  split; [rewrite Hposted by discriminate;
          rewrite strip0x_prefixed; now apply strip0x_plain | ].
  split; [rewrite Hposted by discriminate;
          change ("0x0x" +:+ s) with ("0x" +:+ ("0x" +:+ s));
          now rewrite !strip0x_prefixed | ].
  split; [rewrite Hkey; now apply strip0x_plain | ].
  split; [rewrite Hkey; apply strip0x_prefixed | ].
  rewrite Hkey. change ("0x0x" +:+ s) with ("0x" +:+ ("0x" +:+ s)).
  apply strip0x_prefixed.
Qed.

(** *** The two challenge messages *)

Lemma number_to_string_inj (n m : Z) :
  number_to_string n = number_to_string m -> n = m.
Proof.
  unfold number_to_string. intros H.
  assert (Hnorm : forall z, Z.to_int z <> Decimal.Pos Decimal.Nil
                            /\ Z.to_int z <> Decimal.Neg Decimal.Nil).
  { intros [ | p | p]; cbn [Z.to_int]; split; try discriminate;
      intros E; injection E as E; now apply (Unsigned.to_uint_nonnil p). }
  apply (f_equal NilZero.int_of_string) in H.
  rewrite !NilZero.isi in H by apply Hnorm.
  injection H as H. apply (f_equal Z.of_int) in H.
  now rewrite !DecimalZ.of_to in H.
Qed.

Lemma string_app_inv_head (p s t : string) : p +:+ s = p +:+ t -> s = t.
Proof.
  induction p as [ | c p IH]; [trivial | ].
  change (String c (p +:+ s) = String c (p +:+ t) -> s = t).
  intros H. injection H as H. now apply IH.
Qed.

Lemma string_app_inv_tail (s t q : string) : s +:+ q = t +:+ q -> s = t.
Proof.
  intros H.
  assert (Hlen : String.length s = String.length t).
  { apply (f_equal String.length) in H. rewrite !string_length_app in H. lia. }
  revert t H Hlen. induction s as [ | c s IH]; intros [ | d t] H Hlen;
    try reflexivity; try discriminate.
  change (String c (s +:+ q) = String d (t +:+ q)) in H.
  injection H as -> H. f_equal. apply IH; [exact H | ]. cbn in Hlen. lia.
Qed.

(** Two one-line strings followed by a line feed: equal texts split at the
    same place. *)
Lemma split_at_line_feed (a b r s : string) :
  one_line a = true -> one_line b = true ->
  a +:+ String "010" r = b +:+ String "010" s ->
  a = b /\ r = s.
Proof.
  unfold one_line. revert b.
  induction a as [ | c a IH]; intros [ | d b] Ha Hb H.
  - change (String "010" r = String "010" s) in H. injection H as H. now split.
  - change (String "010" r = String d (b +:+ String "010" s)) in H.
    injection H as <- _. cbn [string_forall] in Hb.
    change (Ascii.eqb "010" "010") with true in Hb. discriminate.
  - change (String c (a +:+ String "010" r) = String "010" s) in H.
    injection H as -> _. cbn [string_forall] in Ha.
    change (Ascii.eqb "010" "010") with true in Ha. discriminate.
  - change (String c (a +:+ String "010" r) = String d (b +:+ String "010" s)) in H.
    injection H as -> H. cbn [string_forall] in Ha, Hb.
    apply andb_true_iff in Ha as [_ Ha]. apply andb_true_iff in Hb as [_ Hb].
    destruct (IH b Ha Hb H) as [-> ->]. now split.
Qed.

(** The authentication message determines what it was built from: for
    addresses without a line feed, equal messages mean the same address and
    the same timestamp.  So a challenge for one address or one moment is
    never the challenge for another. *)
Theorem generateAuthMessage_injective (now1 now2 : Z) (address1 address2 : string) :
  one_line address1 = true ->
  one_line address2 = true ->
  generateAuthMessage now1 address1 = generateAuthMessage now2 address2 ->
  address1 = address2 /\ now1 = now2.
Proof.
  intros H1 H2 H.
  change (generateAuthMessage now1 address1)
    with (("Sign this message to authenticate with LifeVault." +:+ newline +:+ newline
           +:+ "Wallet: ") +:+ address1
          +:+ String "010" ("Timestamp: " +:+ number_to_string now1
          +:+ (newline +:+ newline +:+
           "This signature will not trigger any blockchain transaction or cost any gas fees."))) in H.
  change (generateAuthMessage now2 address2)
    with (("Sign this message to authenticate with LifeVault." +:+ newline +:+ newline
           +:+ "Wallet: ") +:+ address2
          +:+ String "010" ("Timestamp: " +:+ number_to_string now2
          +:+ (newline +:+ newline +:+
           "This signature will not trigger any blockchain transaction or cost any gas fees."))) in H.
  apply string_app_inv_head in H.
  apply split_at_line_feed in H as [Haddr H]; [ | assumption | assumption].
  split; [exact Haddr | ].
  apply (string_app_inv_head "Timestamp: ") in H.
  apply string_app_inv_tail in H. now apply number_to_string_inj.
Qed.

(** The link message determines its address and timestamp as well, and it
    is never an authentication message: a signature obtained for linking is
    over a different text than any signature for authenticating. *)
Theorem linkMessage_injective (now1 now2 : Z) (address1 address2 : string) :
  one_line address1 = true ->
  one_line address2 = true ->
  linkMessage now1 address1 = linkMessage now2 address2 ->
  address1 = address2 /\ now1 = now2
  /\ forall now address,
       linkMessage now1 address1 <> generateAuthMessage now address.
Proof.
  intros H1 H2 H.
  enough (address1 = address2 /\ now1 = now2)
    by (repeat split; try tauto; discriminate).
  change (linkMessage now1 address1)
    with (("Link this wallet to your LifeVault account." +:+ newline +:+ newline
           +:+ "Wallet: ") +:+ address1
          +:+ String "010" ("Timestamp: " +:+ number_to_string now1)) in H.
  change (linkMessage now2 address2)
    with (("Link this wallet to your LifeVault account." +:+ newline +:+ newline
           +:+ "Wallet: ") +:+ address2
          +:+ String "010" ("Timestamp: " +:+ number_to_string now2)) in H.
  apply string_app_inv_head in H.
  apply split_at_line_feed in H as [Haddr H]; [ | assumption | assumption].
  split; [exact Haddr | ].
  apply (string_app_inv_head "Timestamp: ") in H.
  now apply number_to_string_inj.
Qed.

End WalletHexFacts.

(** ** AES: a block cipher call is one-to-one *)

Module AesFacts.
Import Aes AesInverse.

Lemma byte_checks_hold : forallb byte_check all_bytes = true.
Proof. vm_compute. reflexivity. Qed.

Lemma linear_checks_hold :
  forallb (fun k =>
    forallb (fun x => forallb (linear_check k x) all_bytes) all_bytes)
    [9; 11; 13; 14] = true.
Proof. vm_compute. reflexivity. Qed.

Lemma matrix_rows :
  forallb (entry_check 14 11 13 9 true false false false) all_bytes = true
  /\ forallb (entry_check 9 14 11 13 false true false false) all_bytes = true
  /\ forallb (entry_check 13 9 14 11 false false true false) all_bytes = true
  /\ forallb (entry_check 11 13 9 14 false false false true) all_bytes = true.
Proof. vm_compute. repeat split. Qed.

Lemma in_all_bytes (x : Z) : 0 <= x < 256 -> In x all_bytes.
Proof.
  intros H. unfold all_bytes. apply in_map_iff. exists (Z.to_nat x).
  split; [lia | ]. apply in_seq. lia.
Qed.

Lemma in_range_spec (x : Z) : in_range x = true -> 0 <= x < 256.
Proof. unfold in_range. intros H. apply andb_true_iff in H as [H1 H2]. lia. Qed.

Lemma forallb_in {A} (f : A -> bool) (l : list A) (x : A) :
  forallb f l = true -> In x l -> f x = true.
Proof. intros H. exact (proj1 (forallb_forall f l) H x). Qed.

Lemma byte_facts (x : Z) :
  0 <= x < 256 ->
  0 <= sbox x < 256
  /\ inv_sbox (sbox x) = x
  /\ forall c, 0 <= c < 256 -> 0 <= gmul c x < 256.
Proof.
  intros Hx.
  pose proof (forallb_in _ _ x byte_checks_hold (in_all_bytes x Hx)) as H.
  unfold byte_check in H.
  apply andb_true_iff in H as [H Hg]. apply andb_true_iff in H as [Hs Hi].
  split; [exact (in_range_spec _ Hs) | ]. split; [exact (proj1 (Z.eqb_eq _ _) Hi) | ].
  intros c Hc.
  exact (in_range_spec _ (forallb_in _ _ c Hg (in_all_bytes c Hc))).
Qed.

Lemma gmul_range (c x : Z) : 0 <= c < 256 -> 0 <= x < 256 -> 0 <= gmul c x < 256.
Proof. intros Hc Hx. now apply byte_facts. Qed.

Lemma gmul_linear (k x y : Z) :
  In k [9; 11; 13; 14] -> 0 <= x < 256 -> 0 <= y < 256 ->
  gmul k (Z.lxor x y) = Z.lxor (gmul k x) (gmul k y).
Proof.
  intros Hk Hx Hy.
  pose proof (forallb_in _ _ k linear_checks_hold Hk) as H1. cbv beta in H1.
  pose proof (forallb_in _ _ x H1 (in_all_bytes x Hx)) as H2. cbv beta in H2.
  pose proof (forallb_in _ _ y H2 (in_all_bytes y Hy)) as H3.
  exact (proj1 (Z.eqb_eq _ _) H3).
Qed.

Lemma lxor_range (a b : Z) : 0 <= a < 256 -> 0 <= b < 256 -> 0 <= Z.lxor a b < 256.
Proof.
  intros Ha Hb. rewrite <- (GcmFacts.lxor_small a b Ha Hb).
  apply Z.mod_pos_bound. lia.
Qed.

Lemma x4_range (p q r s : Z) :
  0 <= p < 256 -> 0 <= q < 256 -> 0 <= r < 256 -> 0 <= s < 256 ->
  0 <= x4 p q r s < 256.
Proof. intros. unfold x4. repeat apply lxor_range; assumption. Qed.

Lemma gmul_x4 (k p q r s : Z) :
  In k [9; 11; 13; 14] ->
  0 <= p < 256 -> 0 <= q < 256 -> 0 <= r < 256 -> 0 <= s < 256 ->
  gmul k (x4 p q r s) = x4 (gmul k p) (gmul k q) (gmul k r) (gmul k s).
Proof.
  intros Hk Hp Hq Hr Hs. unfold x4.
  rewrite !gmul_linear; auto using lxor_range.
Qed.

(** Sixteen values xored row by row or column by column. *)
Lemma x4_transpose (a1 a2 a3 a4 b1 b2 b3 b4 c1 c2 c3 c4 d1 d2 d3 d4 : Z) :
  x4 (x4 a1 a2 a3 a4) (x4 b1 b2 b3 b4) (x4 c1 c2 c3 c4) (x4 d1 d2 d3 d4)
  = x4 (x4 a1 b1 c1 d1) (x4 a2 b2 c2 d2) (x4 a3 b3 c3 d3) (x4 a4 b4 c4 d4).
Proof.
  unfold x4. apply Z.bits_inj'. intros n _. rewrite !Z.lxor_spec.
  repeat match goal with
         | |- context [Z.testbit ?z n] => generalize (Z.testbit z n); intro
         end.
  btauto.
Qed.

Lemma entry_facts (k0 k1 k2 k3 : Z) (e0 e1 e2 e3 : bool) (v : Z) :
  forallb (entry_check k0 k1 k2 k3 e0 e1 e2 e3) all_bytes = true ->
  0 <= v < 256 ->
  x4 (gmul k0 (gmul 2 v)) (gmul k1 v) (gmul k2 v) (gmul k3 (gmul 3 v))
    = (if e0 then v else 0)
  /\ x4 (gmul k0 (gmul 3 v)) (gmul k1 (gmul 2 v)) (gmul k2 v) (gmul k3 v)
    = (if e1 then v else 0)
  /\ x4 (gmul k0 v) (gmul k1 (gmul 3 v)) (gmul k2 (gmul 2 v)) (gmul k3 v)
    = (if e2 then v else 0)
  /\ x4 (gmul k0 v) (gmul k1 v) (gmul k2 (gmul 3 v)) (gmul k3 (gmul 2 v))
    = (if e3 then v else 0).
Proof.
  intros H Hv.
  pose proof (forallb_in _ _ v H (in_all_bytes v Hv)) as H'.
  unfold entry_check in H'. cbv zeta in H'.
  apply andb_true_iff in H' as [H' H3]. apply andb_true_iff in H' as [H' H2].
  apply andb_true_iff in H' as [H0 H1].
  split; [exact (proj1 (Z.eqb_eq _ _) H0) | ].
  split; [exact (proj1 (Z.eqb_eq _ _) H1) | ].
  split; [exact (proj1 (Z.eqb_eq _ _) H2) | exact (proj1 (Z.eqb_eq _ _) H3)].
Qed.

(** One row of the inverse matrix applied to a mixed column. *)
Lemma row_of_inverse (k0 k1 k2 k3 : Z) (e0 e1 e2 e3 : bool) (a b c d : Z) :
  forallb (entry_check k0 k1 k2 k3 e0 e1 e2 e3) all_bytes = true ->
  In k0 [9; 11; 13; 14] -> In k1 [9; 11; 13; 14] ->
  In k2 [9; 11; 13; 14] -> In k3 [9; 11; 13; 14] ->
  0 <= a < 256 -> 0 <= b < 256 -> 0 <= c < 256 -> 0 <= d < 256 ->
  x4 (gmul k0 (x4 (gmul 2 a) (gmul 3 b) c d))
     (gmul k1 (x4 a (gmul 2 b) (gmul 3 c) d))
     (gmul k2 (x4 a b (gmul 2 c) (gmul 3 d)))
     (gmul k3 (x4 (gmul 3 a) b c (gmul 2 d)))
  = x4 (if e0 then a else 0) (if e1 then b else 0)
       (if e2 then c else 0) (if e3 then d else 0).
Proof.
  intros He H0 H1 H2 H3 Ha Hb Hc Hd.
  assert (R2 : forall v, 0 <= v < 256 -> 0 <= gmul 2 v < 256)
    by (intros; apply gmul_range; lia).
  assert (R3 : forall v, 0 <= v < 256 -> 0 <= gmul 3 v < 256)
    by (intros; apply gmul_range; lia).
  rewrite !gmul_x4 by auto.
  rewrite x4_transpose.
  destruct (entry_facts _ _ _ _ _ _ _ _ a He Ha) as (-> & _).
  destruct (entry_facts _ _ _ _ _ _ _ _ b He Hb) as (_ & -> & _).
  destruct (entry_facts _ _ _ _ _ _ _ _ c He Hc) as (_ & _ & -> & _).
  destruct (entry_facts _ _ _ _ _ _ _ _ d He Hd) as (_ & _ & _ & ->).
  reflexivity.
Qed.

Lemma mix_column_x4 (a b c d : Z) :
  mix_column [a; b; c; d]
  = [x4 (gmul 2 a) (gmul 3 b) c d; x4 a (gmul 2 b) (gmul 3 c) d;
     x4 a b (gmul 2 c) (gmul 3 d); x4 (gmul 3 a) b c (gmul 2 d)].
Proof. reflexivity. Qed.

Lemma inv_mix_column_mix_column (a b c d : Z) :
  0 <= a < 256 -> 0 <= b < 256 -> 0 <= c < 256 -> 0 <= d < 256 ->
  inv_mix_column (mix_column [a; b; c; d]) = [a; b; c; d]
  /\ Forall (fun v => 0 <= v < 256) (mix_column [a; b; c; d]).
Proof.
  intros Ha Hb Hc Hd. rewrite mix_column_x4.
  assert (R2 : forall v, 0 <= v < 256 -> 0 <= gmul 2 v < 256)
    by (intros; apply gmul_range; lia).
  assert (R3 : forall v, 0 <= v < 256 -> 0 <= gmul 3 v < 256)
    by (intros; apply gmul_range; lia).
  split.
  - destruct matrix_rows as (M0 & M1 & M2 & M3).
    cbn [inv_mix_column].
    rewrite (row_of_inverse _ _ _ _ _ _ _ _ a b c d M0) by (cbn; auto).
    rewrite (row_of_inverse _ _ _ _ _ _ _ _ a b c d M1) by (cbn; auto).
    rewrite (row_of_inverse _ _ _ _ _ _ _ _ a b c d M2) by (cbn; auto).
    rewrite (row_of_inverse _ _ _ _ _ _ _ _ a b c d M3) by (cbn; auto).
    unfold x4. now rewrite !Z.lxor_0_r, !Z.lxor_0_l.
  - repeat constructor; apply x4_range; auto.
Qed.

(** *** The four steps on a state *)

Lemma list16 {A} (l : list A) :
  length l = 16%nat ->
  exists b0_ b1_ b2_ b3_ b4_ b5_ b6_ b7_ b8_ b9_ ba_ bb_ bc_ bd_ be_ bf_,
    l = [b0_; b1_; b2_; b3_; b4_; b5_; b6_; b7_; b8_; b9_; ba_; bb_; bc_; bd_; be_; bf_].
Proof.
  intros H.
  do 16 (destruct l as [ | ? l]; [discriminate H | ]).
  destruct l; [ | discriminate H].
  repeat eexists.
Qed.

Lemma sub_bytes_facts (st : list Z) :
  Forall (fun b => 0 <= b < 256) st ->
  map inv_sbox (sub_bytes st) = st
  /\ Forall (fun b => 0 <= b < 256) (sub_bytes st)
  /\ length (sub_bytes st) = length st.
Proof.
  unfold sub_bytes. induction 1 as [ | x l Hx _ (IH1 & IH2 & IH3)];
    [repeat split; constructor | ].
  destruct (byte_facts x Hx) as (Hr & Hi & _).
  cbn [map length]. rewrite Hi, IH1, IH3. repeat split. now constructor.
Qed.

Lemma shift_rows_facts (st : list Z) :
  state16 st ->
  inv_shift_rows (shift_rows st) = st /\ state16 (shift_rows st).
Proof.
  intros [Hlen Hrange]. split.
  - destruct (list16 st Hlen)
      as (b0_ & b1_ & b2_ & b3_ & b4_ & b5_ & b6_ & b7_ & b8_ & b9_ & ba_ & bb_ & bc_ & bd_ & be_ & bf_ & ->).
    reflexivity.
  - split; [unfold shift_rows; now rewrite length_map, length_seq | ].
    unfold shift_rows. apply List.Forall_forall. intros y Hy.
    apply in_map_iff in Hy as (i & <- & Hi). apply in_seq in Hi.
    rewrite List.Forall_forall in Hrange. apply Hrange, nth_In. rewrite Hlen.
    pose proof (Nat.mod_upper_bound i 4 ltac:(lia)).
    pose proof (Nat.mod_upper_bound (i / 4 + i mod 4) 4 ltac:(lia)). lia.
Qed.

Lemma mix_columns_facts (st : list Z) :
  state16 st ->
  inv_mix_columns (mix_columns st) = st /\ state16 (mix_columns st).
Proof.
  intros [Hlen Hrange].
  destruct (list16 st Hlen)
    as (b0_ & b1_ & b2_ & b3_ & b4_ & b5_ & b6_ & b7_ & b8_ & b9_ & ba_ & bb_ & bc_ & bd_ & be_ & bf_ & ->).
  repeat match goal with
         | H : Forall _ (_ :: _) |- _ => apply Forall_cons_iff in H as [? H]
         end.
  unfold mix_columns, chunks.
  cbn [length chunks_fuel firstn skipn map List.concat app].
  destruct (inv_mix_column_mix_column b0_ b1_ b2_ b3_) as [I0 R0]; auto.
  destruct (inv_mix_column_mix_column b4_ b5_ b6_ b7_) as [I1 R1]; auto.
  destruct (inv_mix_column_mix_column b8_ b9_ ba_ bb_) as [I2 R2]; auto.
  destruct (inv_mix_column_mix_column bc_ bd_ be_ bf_) as [I3 R3]; auto.
  rewrite !mix_column_x4 in *. cbn [app].
  split.
  - unfold inv_mix_columns, chunks.
    cbn [length chunks_fuel firstn skipn map List.concat app].
    rewrite I0, I1, I2, I3. reflexivity.
  - split; [reflexivity | ].
    repeat match goal with
           | H : Forall _ (_ :: _) |- _ => apply Forall_cons_iff in H as [? H]
           end.
    repeat (apply List.Forall_cons; [assumption | ]). apply List.Forall_nil.
Qed.

Lemma xor_list_facts (st rk : list Z) :
  length st = length rk ->
  Forall (fun b => 0 <= b < 256) st ->
  Forall (fun b => 0 <= b < 256) rk ->
  xor_list (xor_list st rk) rk = st
  /\ length (xor_list st rk) = length st
  /\ Forall (fun b => 0 <= b < 256) (xor_list st rk).
Proof.
  unfold xor_list. revert rk.
  induction st as [ | x st IH]; intros [ | k rk] Hlen Hs Hk;
    try discriminate; [repeat split; constructor | ].
  apply Forall_cons_iff in Hs as [Hx Hs]. apply Forall_cons_iff in Hk as [Hk0 Hk].
  destruct (IH rk) as (I1 & I2 & I3); [cbn in Hlen; lia | assumption | assumption | ].
  cbn [combine map length]. rewrite I1, I2.
  rewrite Z.lxor_assoc, Z.lxor_nilpotent, Z.lxor_0_r.
  repeat split. constructor; [now apply lxor_range | exact I3].
Qed.

Lemma xor_state (st rk : list Z) :
  state16 st -> state16 rk ->
  xor_list (xor_list st rk) rk = st /\ state16 (xor_list st rk).
Proof.
  intros [Hl Hr] [Hkl Hkr].
  destruct (xor_list_facts st rk) as (I1 & I2 & I3); [lia | assumption | assumption | ].
  split; [exact I1 | ]. split; [lia | exact I3].
Qed.

Lemma sub_state (st : list Z) :
  state16 st -> map inv_sbox (sub_bytes st) = st /\ state16 (sub_bytes st).
Proof.
  intros [Hl Hr]. destruct (sub_bytes_facts st Hr) as (I1 & I2 & I3).
  split; [exact I1 | ]. split; [lia | exact I2].
Qed.

Lemma cipher_round_facts (st rk : list Z) :
  state16 st -> state16 rk ->
  inv_round (cipher_round st rk) rk = st /\ state16 (cipher_round st rk).
Proof.
  intros Hst Hrk. unfold cipher_round, inv_round.
  destruct (sub_state st Hst) as [S1 S2].
  destruct (shift_rows_facts _ S2) as [R1 R2].
  destruct (mix_columns_facts _ R2) as [M1 M2].
  destruct (xor_state _ rk M2 Hrk) as [X1 X2].
  split; [ | exact X2].
  rewrite X1. rewrite M1. rewrite R1. exact S1.
Qed.

Lemma final_round_facts (st rk : list Z) :
  state16 st -> state16 rk ->
  inv_final (xor_list (shift_rows (sub_bytes st)) rk) rk = st
  /\ state16 (xor_list (shift_rows (sub_bytes st)) rk).
Proof.
  intros Hst Hrk. unfold inv_final.
  destruct (sub_state st Hst) as [S1 S2].
  destruct (shift_rows_facts _ S2) as [R1 R2].
  destruct (xor_state _ rk R2 Hrk) as [X1 X2].
  split; [ | exact X2].
  rewrite X1. rewrite R1. exact S1.
Qed.

Lemma rounds_facts (middle : list (list Z)) (st : list Z) :
  Forall state16 middle -> state16 st ->
  fold_left inv_round (rev middle) (fold_left cipher_round middle st) = st
  /\ state16 (fold_left cipher_round middle st).
Proof.
  revert st. induction middle as [ | rk middle IH]; intros st Hm Hst;
    [now split | ].
  apply Forall_cons_iff in Hm as [Hrk Hm].
  destruct (cipher_round_facts st rk Hst Hrk) as [C1 C2].
  destruct (IH _ Hm C2) as [I1 I2].
  cbn [fold_left rev]. split; [ | exact I2].
  rewrite fold_left_app. rewrite I1. cbn [fold_left]. exact C1.
Qed.

(** Decryption undoes encryption, for round keys that are states and at
    least two of them. *)
Lemma inv_cipher_cipher (rks : list (list Z)) (block : list Z) :
  Forall state16 rks -> (2 <= length rks)%nat -> state16 block ->
  inv_cipher rks (cipher rks block) = block /\ state16 (cipher rks block).
Proof.
  intros Hrks Hlen Hb.
  destruct rks as [ | rk0 rest]; [cbn in Hlen; lia | ].
  assert (Hne : rest <> []) by (destruct rest; [cbn in Hlen; lia | discriminate]).
  apply Forall_cons_iff in Hrks as [H0 Hrest].
  pose proof (app_removelast_last [] Hne) as Hsplit.
  assert (Hparts : Forall state16 (List.removelast rest)
                   /\ state16 (List.last rest [])).
  { rewrite Hsplit in Hrest. apply Forall_app in Hrest as [Hm Hf].
    split; [exact Hm | now apply Forall_cons_iff in Hf as [Hf _]]. }
  destruct Hparts as [Hm Hf].
  unfold cipher, inv_cipher.
  destruct (xor_state block rk0 Hb H0) as [X1 X2].
  destruct (rounds_facts _ _ Hm X2) as [R1 R2].
  destruct (final_round_facts _ _ R2 Hf) as [F1 F2].
  split; [ | exact F2].
  rewrite F1. rewrite R1. exact X1.
Qed.

End AesFacts.

(** ** The key schedule yields proper round keys, so a block cipher call
    under an admitted key loses nothing *)

Module KeyFacts.
Import Aes AesInverse AesFacts.

Lemma chunks_fuel_exact {A} (n m fuel : nat) (l : list A) :
  (0 < n)%nat -> length l = (m * n)%nat -> (m <= fuel)%nat ->
  length (chunks_fuel fuel n l) = m
  /\ Forall (fun c => length c = n) (chunks_fuel fuel n l)
  /\ List.concat (chunks_fuel fuel n l) = l.
Proof.
  intros Hn. revert fuel l. induction m as [ | m IH]; intros fuel l Hl Hf.
  - destruct l; [ | discriminate].
    destruct fuel; (split; [reflexivity | split; [constructor | reflexivity]]).
  - destruct fuel as [ | fuel]; [lia | ].
    destruct l as [ | a l]; [cbn in Hl; lia | ].
    cbn [chunks_fuel].
    destruct (IH fuel (skipn n (a :: l))) as (I1 & I2 & I3);
      [rewrite length_skipn; lia | lia | ].
    split; [cbn [length]; now rewrite I1 | ].
    split.
    + constructor; [rewrite length_firstn; lia | exact I2].
    + cbn [List.concat]. rewrite I3. apply firstn_skipn.
Qed.

Lemma chunks_exact {A} (n m : nat) (l : list A) :
  (0 < n)%nat -> length l = (m * n)%nat ->
  length (chunks n l) = m
  /\ Forall (fun c => length c = n) (chunks n l)
  /\ List.concat (chunks n l) = l.
Proof.
  intros Hn Hl. unfold chunks. apply chunks_fuel_exact; [exact Hn | exact Hl | ].
  rewrite Hl. nia.
Qed.

Lemma word4_nth (ws : list (list Z)) (i : nat) :
  Forall word4 ws -> (i < length ws)%nat -> word4 (nth i ws []).
Proof.
  intros H Hi. rewrite List.Forall_forall in H. apply H. now apply nth_In.
Qed.

Lemma gpow_range (n : nat) : 0 <= gpow 2 n < 256.
Proof.
  induction n as [ | n IH]; cbn [gpow]; [lia | ].
  apply gmul_range; [lia | exact IH].
Qed.

Lemma word4_xor (a b : list Z) : word4 a -> word4 b -> word4 (xor_list a b).
Proof.
  intros [La Ra] [Lb Rb].
  destruct (xor_list_facts a b) as (_ & L & R); [lia | assumption | assumption | ].
  split; [lia | exact R].
Qed.

Lemma word4_sbox (a : list Z) : word4 a -> word4 (map sbox a).
Proof.
  intros [La Ra]. destruct (sub_bytes_facts a Ra) as (_ & R & L).
  unfold sub_bytes in R, L. split; [lia | exact R].
Qed.

Lemma word4_rot (a : Z) (rest : list Z) : word4 (a :: rest) -> word4 (rest ++ [a]).
Proof.
  intros [L R]. apply Forall_cons_iff in R as [Ra Rr]. split.
  - rewrite length_app. cbn [length] in *. lia.
  - apply Forall_app. split; [exact Rr | ].
    apply List.Forall_cons; [exact Ra | apply List.Forall_nil].
Qed.

Lemma word4_rcon (i : nat) : word4 [rcon i; 0; 0; 0].
Proof.
  split; [reflexivity | ].
  apply List.Forall_cons; [apply gpow_range | ].
  repeat (apply List.Forall_cons; [lia | ]). apply List.Forall_nil.
Qed.

(** Key expansion adds [n] words and keeps every word four bytes long. *)
Lemma expand_facts (n nk : nat) (ws : list (list Z)) :
  (0 < nk)%nat -> (nk <= length ws)%nat -> Forall word4 ws ->
  Forall word4 (expand n nk ws) /\ length (expand n nk ws) = (length ws + n)%nat.
Proof.
  intros Hnk. revert ws. induction n as [ | n IH]; intros ws Hlen Hws.
  - cbn [expand]. split; [assumption | lia].
  - cbn [expand]. cbv zeta.
    assert (Hprev : word4 (nth (length ws - 1) ws []))
      by (apply word4_nth; [assumption | lia]).
    assert (Hold : word4 (nth (length ws - nk) ws []))
      by (apply word4_nth; [assumption | lia]).
    match goal with
    | |- context [xor_list (nth (length ws - nk) ws []) ?t] =>
        assert (Htemp : word4 t); [ | set (temp := t) in * ]
    end.
    { destruct (length ws mod nk =? 0)%nat.
      - destruct (nth (length ws - 1) ws []) as [ | a rest];
          [destruct Hprev; discriminate | ].
        apply word4_xor; [ | apply word4_rcon].
        apply word4_sbox, word4_rot, Hprev.
      - destruct ((6 <? nk)%nat && (length ws mod nk =? 4)%nat);
          [apply word4_sbox | ]; exact Hprev. }
    destruct (IH (ws ++ [xor_list (nth (length ws - nk) ws []) temp])) as [I1 I2].
    + rewrite length_app. cbn [length]. lia.
    + apply Forall_app. split; [exact Hws | ].
      apply List.Forall_cons; [now apply word4_xor | apply List.Forall_nil].
    + split; [exact I1 | ]. rewrite I2, length_app. cbn [length]. lia.
Qed.

Lemma four_words_state (c : list (list Z)) :
  length c = 4%nat -> Forall word4 c -> state16 (List.concat c).
Proof.
  intros Hl Hc.
  do 4 (destruct c as [ | ? c]; [discriminate Hl | ]).
  destruct c; [ | discriminate Hl].
  repeat match goal with
         | H : Forall _ (_ :: _) |- _ => apply Forall_cons_iff in H as [[? ?] H]
         end.
  cbn [List.concat]. split.
  - rewrite !length_app. cbn [length]. lia.
  - rewrite app_nil_r. repeat (apply Forall_app; split); assumption.
Qed.

(** For the three admitted key lengths the schedule is a list of at least
    two round keys, each a state. *)
Lemma key_schedule_facts (key : list Z) :
  valid_key_length (length key) = true ->
  Forall (fun b => 0 <= b < 256) key ->
  Forall state16 (key_schedule key) /\ (2 <= length (key_schedule key))%nat.
Proof.
  intros Hvalid Hkey. unfold key_schedule. cbv zeta.
  set (nk := (length key / 4)%nat).
  assert (Hnk : length key = (nk * 4)%nat /\ (0 < nk)%nat).
  { unfold valid_key_length in Hvalid. subst nk.
    destruct (length key =? 16)%nat eqn:E16;
      [apply Nat.eqb_eq in E16; rewrite E16; split; [reflexivity | cbn; lia] | ].
    destruct (length key =? 24)%nat eqn:E24;
      [apply Nat.eqb_eq in E24; rewrite E24; split; [reflexivity | cbn; lia] | ].
    destruct (length key =? 32)%nat eqn:E32; [ | discriminate].
    apply Nat.eqb_eq in E32; rewrite E32; split; [reflexivity | cbn; lia]. }
  destruct Hnk as [Hlen Hpos].
  destruct (chunks_exact 4 nk key) as (K1 & K2 & K3); [lia | exact Hlen | ].
  assert (Hwords0 : Forall word4 (chunks 4 key)).
  { rewrite <- K3 in Hkey. apply Forall_concat in Hkey.
    rewrite List.Forall_forall in K2, Hkey. apply List.Forall_forall.
    intros c Hc. split; [now apply K2 | now apply Hkey]. }
  destruct (expand_facts (4 * (nk + 7) - nk) nk (chunks 4 key)) as [E1 E2];
    [exact Hpos | lia | exact Hwords0 | ].
  set (words := expand (4 * (nk + 7) - nk) nk (chunks 4 key)) in *.
  destruct (chunks_exact 4 (nk + 7) words) as (W1 & W2 & W3);
    [lia | rewrite E2, K1; lia | ].
  split; [ | rewrite length_map, W1; lia].
  rewrite <- W3 in E1. apply Forall_concat in E1.
  rewrite List.Forall_forall in W2, E1. apply List.Forall_forall.
  intros rk Hrk. apply in_map_iff in Hrk as (c & <- & Hc).
  apply four_words_state; [now apply W2 | now apply E1].
Qed.

Lemma map_b2z_z2b (l : list Z) :
  Forall (fun b => 0 <= b < 256) l -> map b2z (map z2b l) = l.
Proof.
  induction 1 as [ | x l Hx _ IH]; [reflexivity | ].
  cbn [map]. rewrite IH, b2z_z2b, Z.mod_small by exact Hx. reflexivity.
Qed.

Lemma map_z2b_b2z (l : list byte) : map z2b (map b2z l) = l.
Proof.
  induction l as [ | b l IH]; [reflexivity | ].
  cbn [map]. now rewrite IH, z2b_b2z.
Qed.

Lemma state16_bytes (l : list byte) : length l = 16%nat -> state16 (map b2z l).
Proof.
  intros H. split; [now rewrite length_map | ].
  apply List.Forall_forall. intros z Hz.
  apply in_map_iff in Hz as (b & <- & _). apply b2z_range.
Qed.

Lemma encrypt_block_length (key block : list byte) :
  valid_key_length (length key) = true -> length block = 16%nat ->
  length (encrypt_block key block) = 16%nat.
Proof.
  intros Hk Hb. unfold encrypt_block. rewrite length_map.
  destruct (key_schedule_facts (map b2z key)) as [K1 K2].
  - now rewrite length_map.
  - apply List.Forall_forall. intros z Hz.
    apply in_map_iff in Hz as (b & <- & _). apply b2z_range.
  - destruct (inv_cipher_cipher _ (map b2z block) K1 K2 (state16_bytes _ Hb))
      as [_ [L _]].
    exact L.
Qed.

(** Under an admitted key, two blocks with the same encryption are the
    same block. *)
Lemma encrypt_block_inj (key b1 b2 : list byte) :
  valid_key_length (length key) = true ->
  length b1 = 16%nat -> length b2 = 16%nat ->
  encrypt_block key b1 = encrypt_block key b2 -> b1 = b2.
Proof.
  intros Hk H1 H2 Heq. unfold encrypt_block in Heq.
  destruct (key_schedule_facts (map b2z key)) as [K1 K2].
  - now rewrite length_map.
  - apply List.Forall_forall. intros z Hz.
    apply in_map_iff in Hz as (b & <- & _). apply b2z_range.
  - destruct (inv_cipher_cipher _ (map b2z b1) K1 K2 (state16_bytes _ H1))
      as [I1 [_ R1]].
    destruct (inv_cipher_cipher _ (map b2z b2) K1 K2 (state16_bytes _ H2))
      as [I2 [_ R2]].
    apply (f_equal (map b2z)) in Heq.
    rewrite !map_b2z_z2b in Heq by assumption.
    rewrite Heq in I1. rewrite I2 in I1.
    apply (f_equal (map z2b)) in I1. rewrite !map_z2b_b2z in I1.
    now symmetry.
Qed.

End KeyFacts.

(** ** Big-endian readings *)

Module EndianFacts.

Lemma fold_acc (bs : list byte) (acc : Z) :
  fold_left (fun a b => a * 256 + b2z b) bs acc
  = acc * 256 ^ Z.of_nat (length bs) + be2z bs.
Proof.
  unfold be2z. revert acc. induction bs as [ | b bs IH]; intros acc.
  - cbn. lia.
  - cbn [fold_left length]. rewrite IH, (IH (0 * 256 + b2z b)).
    rewrite Nat2Z.inj_succ, Z.pow_succ_r by lia. lia.
Qed.

Lemma be2z_cons (b : byte) (bs : list byte) :
  be2z (b :: bs) = b2z b * 256 ^ Z.of_nat (length bs) + be2z bs.
Proof. unfold be2z at 1. cbn [fold_left]. now rewrite fold_acc. Qed.

Lemma be2z_range (bs : list byte) : 0 <= be2z bs < 256 ^ Z.of_nat (length bs).
Proof.
  induction bs as [ | b bs IH]; [cbn; lia | ].
  rewrite be2z_cons. cbn [length]. rewrite Nat2Z.inj_succ, Z.pow_succ_r by lia.
  pose proof (b2z_range b). nia.
Qed.

(** Two byte strings of one length with the same reading are equal. *)
Lemma be2z_inj (xs ys : list byte) :
  length xs = length ys -> be2z xs = be2z ys -> xs = ys.
Proof.
  revert ys. induction xs as [ | x xs IH]; intros [ | y ys] Hl He;
    try discriminate; [reflexivity | ].
  injection Hl as Hl. rewrite !be2z_cons, <- Hl in He.
  pose proof (be2z_range xs) as Rx. pose proof (be2z_range ys) as Ry.
  rewrite <- Hl in Ry.
  pose proof (b2z_range x) as Bx. pose proof (b2z_range y) as By.
  set (p := 256 ^ Z.of_nat (length xs)) in *.
  assert (Hb : b2z x = b2z y) by nia.
  assert (Hr : be2z xs = be2z ys) by nia.
  f_equal; [ | now apply IH].
  rewrite <- (z2b_b2z x), <- (z2b_b2z y). now rewrite Hb.
Qed.

(** Reading back what [z2be] wrote gives the number modulo [256 ^ n]. *)
Lemma be2z_z2be (n : nat) (z : Z) : be2z (z2be n z) = z mod 256 ^ Z.of_nat n.
Proof.
  induction n as [ | n IH]; [cbn; now rewrite Z.mod_1_r | ].
  cbn [z2be]. rewrite be2z_cons, GcmFacts.z2be_length, IH, b2z_z2b.
  rewrite Z.shiftr_div_pow2 by lia.
  rewrite Nat2Z.inj_succ, Z.pow_succ_r by lia.
  replace (2 ^ (8 * Z.of_nat n)) with (256 ^ Z.of_nat n)
    by (change 256 with (2 ^ 8); rewrite <- Z.pow_mul_r by lia; reflexivity).
  assert (Hp : 0 < 256 ^ Z.of_nat n) by (apply Z.pow_pos_nonneg; lia).
  rewrite (Z.mul_comm 256), Z.rem_mul_r by lia. lia.
Qed.

Lemma z2be_inj (n : nat) (x y : Z) :
  0 <= x < 256 ^ Z.of_nat n -> 0 <= y < 256 ^ Z.of_nat n ->
  z2be n x = z2be n y -> x = y.
Proof.
  intros Hx Hy H. apply (f_equal be2z) in H.
  now rewrite !be2z_z2be, !Z.mod_small in H.
Qed.

(** Xor with a common value cancels, modulo a power of two. *)
Lemma lxor_cancel_mod (k s a b : Z) :
  0 <= k -> 0 <= a < 2 ^ k -> 0 <= b < 2 ^ k ->
  Z.lxor s a mod 2 ^ k = Z.lxor s b mod 2 ^ k -> a = b.
Proof.
  intros Hk Ha Hb H.
  rewrite <- (Z.mod_small a (2 ^ k)), <- (Z.mod_small b (2 ^ k)) by assumption.
  apply Z.bits_inj'. intros n Hn.
  destruct (Z_lt_le_dec n k) as [Hlt | Hge].
  - rewrite !Z.mod_pow2_bits_low by lia.
    apply (f_equal (fun z => Z.testbit z n)) in H.
    rewrite !Z.mod_pow2_bits_low, !Z.lxor_spec in H by lia.
    destruct (Z.testbit s n), (Z.testbit a n), (Z.testbit b n);
      first [reflexivity | discriminate H].
  - now rewrite !Z.mod_pow2_bits_high by lia.
Qed.

End EndianFacts.

(** ** A blob does not open under another IV *)

Module IvFacts.
Import CryptoManager.

Lemma E_range (k : list byte) (z : Z) :
  Aes.valid_key_length (length k) = true -> 0 <= Gcm.E k z < 2 ^ 128.
Proof.
  intros Hk. unfold Gcm.E.
  pose proof (EndianFacts.be2z_range (Aes.encrypt_block k (z2be 16 z))) as H.
  rewrite KeyFacts.encrypt_block_length in H
    by (first [exact Hk | apply GcmFacts.z2be_length]).
  exact H.
Qed.

(** The block cipher call of the mode is one-to-one on 128-bit numbers. *)
Lemma E_inj (k : list byte) (x y : Z) :
  Aes.valid_key_length (length k) = true ->
  0 <= x < 2 ^ 128 -> 0 <= y < 2 ^ 128 ->
  Gcm.E k x = Gcm.E k y -> x = y.
Proof.
  intros Hk Hx Hy H. unfold Gcm.E in H.
  apply EndianFacts.be2z_inj in H;
    [ | rewrite !KeyFacts.encrypt_block_length;
        first [reflexivity | exact Hk | apply GcmFacts.z2be_length]].
  apply KeyFacts.encrypt_block_inj in H;
    [ | exact Hk | apply GcmFacts.z2be_length | apply GcmFacts.z2be_length].
  exact (EndianFacts.z2be_inj 16 x y Hx Hy H).
Qed.

Lemma j0_12 (k iv : list byte) :
  length iv = 12%nat -> Gcm.j0 k iv = be2z iv * 2 ^ 32 + 1.
Proof. intros H. unfold Gcm.j0. now rewrite H. Qed.

Lemma j0_range (k iv : list byte) :
  length iv = 12%nat -> 0 <= Gcm.j0 k iv < 2 ^ 128.
Proof.
  intros H. rewrite j0_12 by exact H.
  pose proof (EndianFacts.be2z_range iv) as R. rewrite H in R.
  change (256 ^ Z.of_nat 12) with (2 ^ 96) in R.
  change (2 ^ 128) with (2 ^ 96 * 2 ^ 32). lia.
Qed.

(** Different 12-byte IVs give different tags for the same ciphertext. *)
Lemma tag_iv_inj (k iv1 iv2 ct : list byte) :
  Aes.valid_key_length (length k) = true ->
  length iv1 = 12%nat -> length iv2 = 12%nat ->
  Gcm.tag k (Gcm.j0 k iv1) ct = Gcm.tag k (Gcm.j0 k iv2) ct -> iv1 = iv2.
Proof.
  intros Hk H1 H2 Ht. unfold Gcm.tag in Ht. cbv zeta in Ht.
  apply (f_equal be2z) in Ht. rewrite !EndianFacts.be2z_z2be in Ht.
  change (256 ^ Z.of_nat 16) with (2 ^ 128) in Ht.
  apply EndianFacts.lxor_cancel_mod in Ht;
    [ | lia | now apply E_range | now apply E_range].
  apply E_inj in Ht; [ | exact Hk | now apply j0_range | now apply j0_range].
  rewrite !j0_12 in Ht by assumption.
  apply EndianFacts.be2z_inj; [congruence | lia].
Qed.

(** Tampering with the IV: when the IV of a blob from [encryptData] is
    replaced by any other 12 bytes, [decryptData] fails with the
    authentication error and the store stays as it is. *)
Theorem decryptData_rejects_changed_iv
    (x : list byte) (w w' : world) (blob : EncryptedData)
    (nonce nonce' : list byte) :
  encryptData x w = (Ok blob, w') ->
  Base64.decode (iv blob) = Some nonce ->
  length nonce' = 12%nat ->
  nonce' <> nonce ->
  decryptData {| iv := Base64.encode nonce'; data := data blob |} w'
  = (Err AuthenticationFailure, w').
Proof.
  intros Henc Hnonce Hlen' Hdiff.
  destruct (ImportFacts.encryptData_blob _ _ _ _ Henc)
    as (encoded & k & nonce0 & Hlook & Hdec & Hlen & Hn0 & Hiv & Hdata).
  rewrite Hiv, Base64Facts.decode_encode in Hnonce.
  assert (nonce0 = nonce) as ->
    by exact (f_equal (fun o => match o with Some t => t | None => nonce end) Hnonce).
  assert (Hne : nonce' <> []) by (intros E; rewrite E in Hlen'; discriminate).
  rewrite (ImportFacts.decryptData_with_key w' encoded k _ nonce'
             (Gcm.seal k nonce x) Hlook Hdec Hlen);
    [ | cbn [iv]; apply Base64Facts.decode_encode
      | cbn [data]; rewrite Hdata; apply Base64Facts.decode_encode
      | exact Hne].
  unfold Gcm.seal. cbv zeta.
  rewrite TamperFacts.open_wrong_tag; [reflexivity | | ].
  - unfold Gcm.tag. cbv zeta. apply GcmFacts.z2be_length.
  - intros Ht. apply Hdiff. symmetry.
    exact (tag_iv_inj k nonce nonce' _ Hlen Hn0 Hlen' Ht).
Qed.

End IvFacts.

(** ** The further theorems on sample inputs *)

Module MoreWitnesses.
Import CryptoManager.

Lemma imported_ok :
  importWalletFromMnemonic (P := Samples.primitives) Samples.phrase Samples.sealed_world
  = (Ok Samples.imported_address, Samples.imported_world).
Proof. vm_compute. reflexivity. Qed.

Lemma encrypted_ok :
  encryptData Samples.plain Samples.fresh_world
  = (Ok Samples.sealed_blob, Samples.sealed_world).
Proof. vm_compute. reflexivity. Qed.

Lemma import_then_getters_witness :
  Wallet.hasWallet Samples.imported_world = (Ok true, Samples.imported_world)
  /\ getAddress Samples.imported_world
     = (Ok (Some Samples.imported_address), Samples.imported_world).
Proof.
  destruct (WalletFacts.import_then_getters (P := Samples.primitives) _ _ _ _ imported_ok)
    as (sk & pk & Hhas & Haddr & _).
  split; [exact Hhas | exact Haddr].
Defined.

Lemma create_then_import_restores_wallet_witness :
  exists w2',
    importWalletFromMnemonic (P := Samples.primitives)
      (Wallet.mnemonic Samples.created_data) Samples.other_world
    = (Ok (Wallet.address Samples.created_data), w2').
Proof.
  assert (Hc : Wallet.createNewWallet (P := Samples.primitives)
                 Samples.words_of_entropy Samples.fresh_world
               = (Ok Samples.created_data, Samples.created.2))
    by (vm_compute; reflexivity).
  assert (Hn : cleanMnemonic (Wallet.mnemonic Samples.created_data)
               = Wallet.mnemonic Samples.created_data)
    by (vm_compute; reflexivity).
  destruct (WalletFacts.create_then_import_restores_wallet (P := Samples.primitives)
              Samples.words_of_entropy _ _ Samples.other_world _ Hc Hn)
    as (w2' & Himp & _).
  exists w2'. exact Himp.
Defined.

Lemma decryptData_only_authenticated_witness :
  exists input,
    Base64.decode (data Samples.sealed_blob) = Some input
    /\ length Samples.plain = (length input - 16)%nat.
Proof.
  assert (Hd : decryptData Samples.sealed_blob Samples.sealed_world
               = (Ok Samples.plain, Samples.sealed_world))
    by (vm_compute; reflexivity).
  destruct (TamperFacts.decryptData_only_authenticated _ _ _ _ Hd)
    as (encoded & k & ivb & input & _ & _ & _ & Hin & _ & _ & Hlen).
  exists input. split; [exact Hin | exact Hlen].
Defined.

Lemma decryptData_rejects_changed_tag_witness :
  decryptData
    {| iv := iv Samples.sealed_blob;
       data := Base64.encode
                 (firstn (length Samples.plain)
                    (Gcm.seal (map (Samples.counting 0) (seq 0 32))
                              (map (Samples.counting 0) (seq 32 12)) Samples.plain)
                  ++ repeat x00 16) |}
    Samples.sealed_world
  = (Err AuthenticationFailure, Samples.sealed_world).
Proof.
  apply (TamperFacts.decryptData_rejects_changed_tag
           Samples.plain Samples.fresh_world Samples.sealed_world Samples.sealed_blob
           (Gcm.seal (map (Samples.counting 0) (seq 0 32))
                     (map (Samples.counting 0) (seq 32 12)) Samples.plain)
           (repeat x00 16) encrypted_ok).
  - vm_compute. reflexivity.
  - left. split; [reflexivity | vm_compute; discriminate].
Defined.


Lemma blank_phrase_rejected_witness :
  importWalletFromMnemonic (P := Samples.primitives)
    (String " " (String "009" (String "010" EmptyString))) Samples.other_world
  = (Err InvalidMnemonic, Samples.other_world).
Proof.
  apply (PhraseFacts.blank_phrase_rejected (P := Samples.primitives)).
  vm_compute. reflexivity.
Defined.

Lemma stored_phrase_imports_again_witness :
  exists stored w2',
    prefs Samples.imported_world !! KEY_MNEMONIC = Some stored
    /\ importWalletFromMnemonic (P := Samples.primitives) stored Samples.other_world
       = (Ok Samples.imported_address, w2').
Proof.
  assert (Hplain : Shape.plain_ends (Kotlin.trim Samples.phrase) = true)
    by reflexivity.
  destruct (PhraseFacts.stored_phrase_imports_again (P := Samples.primitives)
              Samples.phrase _ _ Samples.other_world _ Hplain imported_ok)
    as (stored & w2' & Hm & Himp & _).
  exists stored, w2'. split; [exact Hm | exact Himp].
Defined.

Lemma decryptData_rejects_changed_iv_witness :
  decryptData
    {| iv := Base64.encode (repeat x00 12); data := data Samples.sealed_blob |}
    Samples.sealed_world
  = (Err AuthenticationFailure, Samples.sealed_world).
Proof.
  apply (IvFacts.decryptData_rejects_changed_iv
           Samples.plain Samples.fresh_world Samples.sealed_world Samples.sealed_blob
           (map (Samples.counting 0) (seq 32 12)) (repeat x00 12) encrypted_ok).
  - vm_compute. reflexivity.
  - reflexivity.
  - vm_compute. discriminate.
Defined.

End MoreWitnesses.

Module ReaderWitnesses.
Import AptosClient.

Lemma all_decode :
  forall i, (i < length Samples.two_memories)%nat ->
    decode_memory Samples.valueOf Samples.clock Samples.two_memories i <> None.
Proof.
  intros i Hi. destruct i as [ | [ | i]];
    [vm_compute; discriminate | vm_compute; discriminate | cbn in Hi; lia].
Qed.

Lemma one_bad_record_empties_the_list_witness :
  fetchUserMemories Samples.valueOf Samples.clock
    (Answer {| isSuccessful := true;
               responseBody :=
                 Document (JArray [JArray Samples.one_broken_memory]) |}) = [].
Proof.
  apply (MemoryListFacts.one_bad_record_empties_the_list
           Samples.valueOf Samples.clock Samples.one_broken_memory [] 1).
  - cbn. lia.
  - vm_compute. reflexivity.
Defined.

Lemma one_item_per_record_witness :
  length (fetchUserMemories Samples.valueOf Samples.clock
            (Answer {| isSuccessful := true;
                       responseBody :=
                         Document (JArray [JArray Samples.two_memories]) |}))
  = 2%nat.
Proof.
  exact (proj1 (MemoryListFacts.one_item_per_record
                  Samples.valueOf Samples.clock Samples.two_memories [] all_decode)).
Defined.

Lemma ids_distinct_within_a_fetch_witness :
  exists a b,
    nth_error (fetchUserMemories Samples.valueOf Samples.clock
                 (Answer {| isSuccessful := true;
                            responseBody :=
                              Document (JArray [JArray Samples.two_memories]) |})) 0
    = Some a
    /\ nth_error (fetchUserMemories Samples.valueOf Samples.clock
                    (Answer {| isSuccessful := true;
                               responseBody :=
                                 Document (JArray [JArray Samples.two_memories]) |})) 1
       = Some b
    /\ id a <> id b.
Proof.
  eexists _, _.
  split; [vm_compute; reflexivity | ]. split; [vm_compute; reflexivity | ].
  apply (IdFacts.ids_distinct_within_a_fetch
           Samples.valueOf Samples.clock Samples.two_memories []) with (i := 0%nat) (j := 1%nat).
  - intros i j Hij. unfold Samples.clock. cbn [length Samples.two_memories] in *. lia.
  - exact all_decode.
  - discriminate.
  - vm_compute. reflexivity.
  - vm_compute. reflexivity.
Defined.

Lemma ids_change_between_fetches_witness :
  exists a b,
    nth_error (fetchUserMemories Samples.valueOf Samples.clock
                 (Answer {| isSuccessful := true;
                            responseBody :=
                              Document (JArray [JArray Samples.two_memories]) |})) 0
    = Some a
    /\ nth_error (fetchUserMemories Samples.valueOf Samples.later_clock
                    (Answer {| isSuccessful := true;
                               responseBody :=
                                 Document (JArray [JArray Samples.two_memories]) |})) 0
       = Some b
    /\ title a = title b /\ id a <> id b.
Proof.
  eexists _, _.
  split; [vm_compute; reflexivity | ]. split; [vm_compute; reflexivity | ].
  destruct (IdFacts.ids_change_between_fetches
              Samples.valueOf Samples.clock Samples.later_clock
              Samples.two_memories []) as [_ H].
  - intros i. unfold Samples.clock, Samples.later_clock. lia.
  - exact all_decode.
  - destruct (H 0%nat _ _ ltac:(vm_compute; reflexivity) ltac:(vm_compute; reflexivity))
      as (Ht & _ & Hid).
    split; [exact Ht | exact Hid].
Defined.

Lemma getBalance_reads_the_coin_value_witness :
  getBalance Samples.valueOf
    (Answer {| isSuccessful := true;
               responseBody := Document (JObject Samples.resource_members) |})
  = 100000000.
Proof.
  apply (BalanceFacts.getBalance_reads_the_coin_value
           Samples.valueOf Samples.resource_members Samples.data_members
           Samples.coin_members 100000000).
  - lia.
  - reflexivity.
  - reflexivity.
  - reflexivity.
Defined.

Lemma registerMemory_looks_like_a_hash_witness :
  exists digits,
    Relay.registerMemory 1700000000000 = "0x" +:+ digits
    /\ String.length digits = 64%nat.
Proof.
  destruct (RelayFacts.registerMemory_looks_like_a_hash 1700000000000)
    as (digits & Hd & Hl & _); [lia | ].
  exists digits. split; [exact Hd | exact Hl].
Defined.

Lemma generateAuthMessage_injective_witness :
  WalletContext.generateAuthMessage 1700000000000 "0xabc"
  = WalletContext.generateAuthMessage 1700000000000 "0xabc"
  /\ ("0xabc"%string = "0xabc"%string /\ 1700000000000 = 1700000000000).
Proof.
  split; [reflexivity | ].
  apply (WalletHexFacts.generateAuthMessage_injective
           1700000000000 1700000000000 "0xabc" "0xabc");
    reflexivity.
Defined.

Lemma linkMessage_injective_witness :
  WalletHex.linkMessage 1700000000000 "0xabc"
  <> WalletContext.generateAuthMessage 1700000000000 "0xabc".
Proof.
  destruct (WalletHexFacts.linkMessage_injective
              1700000000000 1700000000000 "0xabc" "0xabc"
              eq_refl eq_refl eq_refl) as (_ & _ & H).
  exact (H 1700000000000 "0xabc"%string).
Defined.

Lemma text_prefixes_removed_witness :
  WalletHex.postedSignature (WalletHex.Str "0x0xab") WalletHex.Undefined = "ab"%string
  /\ WalletHex.postedPublicKey (WalletHex.Str "0x0xab") = "0xab"%string.
Proof.
  assert (Hne : "ab"%string <> EmptyString) by discriminate.
  destruct (WalletHexFacts.text_prefixes_removed "ab" WalletHex.Undefined Hne)
    as (_ & _ & _ & H).
  destruct (H eq_refl) as (_ & _ & Hsig & _ & _ & Hkey).
  split; [exact Hsig | exact Hkey].
Defined.

End ReaderWitnesses.
